(** * OCEL generator: a shallow embedding of [ocel-generator.py]

    The builder replays traces of activity labels and materialises an
    object-centric event log.  The embedding follows the Python source
    function by function:

    - the builder's fields and the two process-wide random generators
      ([random], [numpy.random]) form the state of a small state-and-exception
      monad; an exception leaves the state as the code left it;
    - a [datetime] is the number of microseconds since the epoch, a
      [timedelta] a number of microseconds; [iso] drops the microseconds, and
      a rendered timestamp is kept as the number of whole seconds it denotes;
    - a [float] is a rational; years and durations are unbounded;
    - the generators are an interface ([Generators]); every theorem holds for
      any implementation of it, the closed examples use [toy]. *)

From stdpp Require Import base strings gmap list pretty sorting.
From Stdlib Require Import QArith Qround.

Open Scope string_scope.
Open Scope Z_scope.

(** ** Records of the log *)

(** A Python value stored under a ["value"] key. *)
Inductive Value :=
| VStr (s : string)
| VInt (n : Z)
| VTime (seconds : Z)      (* a string produced by [iso] *)
| VNone.

Record EventAttr := { ea_name : string; ea_value : Value }.

Record Relationship := { objectId : string; qualifier : string }.

Record Event := {
  ev_id : string;
  ev_type : string;
  ev_time : Z;
  ev_attributes : list EventAttr;
  ev_relationships : list Relationship;
}.

Record ObjAttr := { at_name : string; at_time : Z; at_value : Value }.

Record Obj := {
  obj_id : string;
  obj_type : string;
  obj_attributes : list ObjAttr;
}.

Record O2O := {
  rel_id : string;
  rel_type : string;
  rel_time : Z;
  sourceObject : string;
  targetObject : string;
  rel_attributes : list EventAttr;
}.

(** Schema declarations are passed through to the output untouched.  Of an
    attribute declaration only the name and the type are kept. *)
Record AttrDecl := { decl_name : string; decl_type : string }.
Record TypeDecl := { td_name : string; td_attributes : list AttrDecl }.
Record O2OTypeDecl := {
  o2o_name : string;
  sourceType : string;
  targetType : string;
  o2o_attributes : list AttrDecl;
}.

Definition DEFAULT_EVENT_TYPES : list TypeDecl :=
  [ {| td_name := "OutpatientRegistration";
       td_attributes := [ {| decl_name := "ReceptionDesk"; decl_type := "string" |} ] |};
    {| td_name := "InitialVisit";
       td_attributes := [ {| decl_name := "Department"; decl_type := "string" |};
                          {| decl_name := "AttendingPhysician"; decl_type := "string" |} ] |};
    {| td_name := "ImagingTest";
       td_attributes := [ {| decl_name := "TestType"; decl_type := "string" |} ] |};
    {| td_name := "LabTest";
       td_attributes := [ {| decl_name := "TestType"; decl_type := "string" |} ] |};
    {| td_name := "FollowUpVisit";
       td_attributes := [ {| decl_name := "Assessment"; decl_type := "string" |} ] |};
    {| td_name := "JointConsult";
       td_attributes := [ {| decl_name := "CareTeam"; decl_type := "string" |} ] |};
    {| td_name := "MedicationTreatment";
       td_attributes := [ {| decl_name := "CycleNumber"; decl_type := "integer" |} ] |};
    {| td_name := "Payment";
       td_attributes := [ {| decl_name := "PaymentMethod"; decl_type := "string" |};
                          {| decl_name := "PaymentAmount"; decl_type := "integer" |} ] |};
    {| td_name := "Discharge"; td_attributes := [] |} ].

Definition decls (l : list (string * string)) : list AttrDecl :=
  map (fun p => {| decl_name := fst p; decl_type := snd p |}) l.

Definition DEFAULT_OBJECT_TYPES : list TypeDecl :=
  [ {| td_name := "Patient";
       td_attributes := decls
         [ ("patient_id", "id"); ("sex", "string"); ("age", "integer");
           ("allergies", "string"); ("contradindications", "string");
           ("status", "string"); ("condition", "string") ] |};
    {| td_name := "Test";
       td_attributes := decls
         [ ("test_id", "id"); ("patient_id", "id"); ("modality", "string");
           ("perform_time", "time"); ("result_state", "string");
           ("findings", "string") ] |};
    {| td_name := "Encounter";
       td_attributes := decls
         [ ("enc_id", "id"); ("patient_id", "id"); ("type", "string");
           ("dept", "string"); ("start_time", "time"); ("end_time", "time");
           ("status", "string"); ("reason", "string"); ("attending", "string");
           ("billing_status", "string"); ("billing_amount", "integer");
           ("payment_method", "string"); ("billing_time", "time") ] |};
    {| td_name := "Diagnosis";
       td_attributes := decls
         [ ("dx_id", "id"); ("patient_id", "id"); ("primary_site", "string");
           ("stage", "string"); ("confirm_time", "time") ] |};
    {| td_name := "TreatmentPlan";
       td_attributes := decls
         [ ("plan_id", "id"); ("patient_id", "id"); ("dx_id", "id");
           ("intent", "string"); ("primary_modality", "string");
           ("regimen", "string"); ("status", "string") ] |};
    {| td_name := "Dose";
       td_attributes := decls
         [ ("admin_id", "id"); ("patient_id", "id"); ("plan_id", "id");
           ("drug_name", "string"); ("amount", "integer"); ("route", "string");
           ("given_time", "time"); ("adverse_event", "string") ] |} ].

Definition DEFAULT_O2O_TYPES : list O2OTypeDecl :=
  [ {| o2o_name := "Encounter-Patient"; sourceType := "Encounter";
       targetType := "Patient"; o2o_attributes := [] |};
    {| o2o_name := "TreatmentPlan-Dose"; sourceType := "TreatmentPlan";
       targetType := "Dose"; o2o_attributes := [] |} ].

(** ** Time *)

Definition datetime := Z.     (* microseconds since the epoch *)
Definition timedelta := Z.    (* microseconds *)

Definition seconds (n : Z) : timedelta := n * 1000000.
Definition minutes (n : Z) : timedelta := n * 60000000.
Definition hours (n : Z) : timedelta := n * 3600000000.

(** [dt.strftime("%Y-%m-%dT%H:%M:%SZ")]: the microsecond field is dropped. *)
Definition iso (dt : datetime) : Z := dt / 1000000.

(** Rounding to the nearest integer, ties to even, as [timedelta] rounds a
    fractional number of microseconds. *)
Definition round_half_even (x : Q) : Z :=
  let f := Qfloor x in
  match Qcompare (x - inject_Z f) (1 # 2) with
  | Lt => f
  | Gt => f + 1
  | Eq => if Z.even f then f else f + 1
  end.

(** [timedelta(minutes=m)] for a float [m]. *)
Definition timedelta_minutes (m : Q) : timedelta :=
  round_half_even (m * inject_Z 60000000).

(** Python's [max(10, m)]: the first argument unless the second is greater. *)
Definition max_10 (m : Q) : Q := if Qle_bool m (inject_Z 10) then inject_Z 10 else m.

(** ** Formatting *)

Fixpoint zeros (k : nat) : string :=
  match k with
  | O => EmptyString
  | S k' => "0" ++ zeros k'
  end.

(** [s.zfill(w)] on the digits of a natural number. *)
Definition zfill (w : nat) (s : string) : string :=
  zeros (w - String.length s) ++ s.

(** [str(n)] and the format specs [{n}], [{n:03d}], [{n:04d}]. *)
Definition str (n : nat) : string := pretty n.
Definition fmt_d (w : nat) (n : nat) : string := zfill w (str n).

(** ** Configuration and builder state *)

(** The arguments of the constructor.  The collections and the counters
    always take their defaults. *)
Record Config := {
  event_types : list TypeDecl;
  object_types : list TypeDecl;
  o2o_types : list O2OTypeDecl;
  obj_id_pad : nat;
  _type_prefix : gmap string string;
  base_time : datetime;
  event_step_mean_minutes : Q;
  event_step_std_minutes : Q;
  rng_seed : Z;
}.

Definition default_type_prefix : gmap string string :=
  <["Patient" := "pat"]> (<["Test" := "test"]> (<["Encounter" := "enc"]>
  (<["Diagnosis" := "dx"]> (<["TreatmentPlan" := "plan"]> (<["Dose" := "med"]> ∅))))).

(** [datetime(2025, 8, 1, 9, 0, 0)] *)
Definition default_base_time : datetime := seconds 1754038800.

Definition default_config : Config :=
  {| event_types := DEFAULT_EVENT_TYPES;
     object_types := DEFAULT_OBJECT_TYPES;
     o2o_types := DEFAULT_O2O_TYPES;
     obj_id_pad := 3;
     _type_prefix := default_type_prefix;
     base_time := default_base_time;
     event_step_mean_minutes := 30;
     event_step_std_minutes := 10;
     rng_seed := 42 |}.

(** The fields of an [OCELBuilder] instance.  A counter
    ([itertools.count(1)]) is the next number it will give. *)
Record OCELBuilder := {
  cfg : Config;
  _event_seq : nat;
  _obj_seq_by_type : gmap string nat;
  _o2o_seq : nat;
  events : list Event;
  objects : list Obj;
  object_relationship_types : list O2OTypeDecl;
  object_relationships : list O2O;
}.

Definition with_event_seq (n : nat) (b : OCELBuilder) : OCELBuilder :=
  {| cfg := cfg b; _event_seq := n; _obj_seq_by_type := _obj_seq_by_type b;
     _o2o_seq := _o2o_seq b; events := events b; objects := objects b;
     object_relationship_types := object_relationship_types b;
     object_relationships := object_relationships b |}.

Definition with_obj_seq (m : gmap string nat) (b : OCELBuilder) : OCELBuilder :=
  {| cfg := cfg b; _event_seq := _event_seq b; _obj_seq_by_type := m;
     _o2o_seq := _o2o_seq b; events := events b; objects := objects b;
     object_relationship_types := object_relationship_types b;
     object_relationships := object_relationships b |}.

Definition with_o2o_seq (n : nat) (b : OCELBuilder) : OCELBuilder :=
  {| cfg := cfg b; _event_seq := _event_seq b; _obj_seq_by_type := _obj_seq_by_type b;
     _o2o_seq := n; events := events b; objects := objects b;
     object_relationship_types := object_relationship_types b;
     object_relationships := object_relationships b |}.

Definition with_events (l : list Event) (b : OCELBuilder) : OCELBuilder :=
  {| cfg := cfg b; _event_seq := _event_seq b; _obj_seq_by_type := _obj_seq_by_type b;
     _o2o_seq := _o2o_seq b; events := l; objects := objects b;
     object_relationship_types := object_relationship_types b;
     object_relationships := object_relationships b |}.

Definition with_objects (l : list Obj) (b : OCELBuilder) : OCELBuilder :=
  {| cfg := cfg b; _event_seq := _event_seq b; _obj_seq_by_type := _obj_seq_by_type b;
     _o2o_seq := _o2o_seq b; events := events b; objects := l;
     object_relationship_types := object_relationship_types b;
     object_relationships := object_relationships b |}.

Definition with_relationship_types (l : list O2OTypeDecl) (b : OCELBuilder) : OCELBuilder :=
  {| cfg := cfg b; _event_seq := _event_seq b; _obj_seq_by_type := _obj_seq_by_type b;
     _o2o_seq := _o2o_seq b; events := events b; objects := objects b;
     object_relationship_types := l;
     object_relationships := object_relationships b |}.

Definition with_relationships (l : list O2O) (b : OCELBuilder) : OCELBuilder :=
  {| cfg := cfg b; _event_seq := _event_seq b; _obj_seq_by_type := _obj_seq_by_type b;
     _o2o_seq := _o2o_seq b; events := events b; objects := objects b;
     object_relationship_types := object_relationship_types b;
     object_relationships := l |}.

(** The per-trace context dictionary. *)
Record Ctx := {
  trace_index : nat;
  start_time : datetime;
  patient_id : string;
  visit_id : string;
  diagnosis_id : option string;
  plan_id : option string;
  medication_ids : list string;
  test_ids : list string;
  med_cycles : nat;
}.

Definition with_diagnosis_id (d : string) (c : Ctx) : Ctx :=
  {| trace_index := trace_index c; start_time := start_time c;
     patient_id := patient_id c; visit_id := visit_id c;
     diagnosis_id := Some d; plan_id := plan_id c;
     medication_ids := medication_ids c; test_ids := test_ids c;
     med_cycles := med_cycles c |}.

Definition with_plan_id (p : string) (c : Ctx) : Ctx :=
  {| trace_index := trace_index c; start_time := start_time c;
     patient_id := patient_id c; visit_id := visit_id c;
     diagnosis_id := diagnosis_id c; plan_id := Some p;
     medication_ids := medication_ids c; test_ids := test_ids c;
     med_cycles := med_cycles c |}.

Definition with_test_ids (l : list string) (c : Ctx) : Ctx :=
  {| trace_index := trace_index c; start_time := start_time c;
     patient_id := patient_id c; visit_id := visit_id c;
     diagnosis_id := diagnosis_id c; plan_id := plan_id c;
     medication_ids := medication_ids c; test_ids := l;
     med_cycles := med_cycles c |}.

Definition with_medication (l : list string) (n : nat) (c : Ctx) : Ctx :=
  {| trace_index := trace_index c; start_time := start_time c;
     patient_id := patient_id c; visit_id := visit_id c;
     diagnosis_id := diagnosis_id c; plan_id := plan_id c;
     medication_ids := l; test_ids := test_ids c;
     med_cycles := n |}.

(** The output document of [to_json]. *)
Record Document := {
  doc_eventTypes : list TypeDecl;
  doc_objectTypes : list TypeDecl;
  doc_events : list Event;
  doc_objects : list Obj;
  doc_objectRelationshipTypes : list O2OTypeDecl;
  doc_objectRelationships : list O2O;
}.

(** ** Exceptions *)

Inductive Exn :=
| ValueError (msg : string)
| KeyError (msg : string).

Inductive Res (A : Type) :=
| Ok (a : A)
| Raise (e : Exn).
Arguments Ok {A} a.
Arguments Raise {A} e.

(** ** The random generators *)

(** The process-wide state of Python's [random] module and of
    [numpy.random], with the operations the builder calls.  [randbelow n]
    stands for a draw in [0, n); [random_float] for [random.random()]. *)
Record Generators := {
  rng_state : Type;
  random_seed : Z -> rng_state;
  randbelow : nat -> rng_state -> nat * rng_state;
  random_float : rng_state -> Q * rng_state;
  np_state : Type;
  np_seed : Z -> np_state;
  np_normal : Q -> Q -> np_state -> Q * np_state;
}.

(** ** The builder's monad *)

Section Builder.

Variable G : Generators.

(** What a method can see and change: the instance and the two random
    generators of the process. *)
Record Process := {
  self : OCELBuilder;
  random_st : rng_state G;
  np_random_st : np_state G;
}.

Definition M (A : Type) : Type := Process -> Res A * Process.

Definition ret {A} (a : A) : M A := fun p => (Ok a, p).

Definition bind {A B} (m : M A) (k : A -> M B) : M B :=
  fun p =>
    match m p with
    | (Ok a, p') => k a p'
    | (Raise e, p') => (Raise e, p')
    end.

Definition raise {A} (e : Exn) : M A := fun p => (Raise e, p).

Definition get_self : M OCELBuilder := fun p => (Ok (self p), p).

Definition update_self (f : OCELBuilder -> OCELBuilder) : M unit :=
  fun p => (Ok tt, {| self := f (self p); random_st := random_st p;
                      np_random_st := np_random_st p |}).

Notation "x <- m ;; k" := (bind m (fun x => k))
  (at level 100, m at next level, right associativity).
Notation "m ;;; k" := (bind m (fun _ => k))
  (at level 100, right associativity).

Fixpoint for_each {A} (f : A -> M unit) (l : list A) : M unit :=
  match l with
  | [] => ret tt
  | x :: rest => f x ;;; for_each f rest
  end.

(** *** Calls into [random] and [numpy.random] *)

(** [random.choice([x, ...xs])] *)
Definition random_choice {A} (x : A) (xs : list A) : M A :=
  fun p =>
    let (k, r) := randbelow G (S (length xs)) (random_st p) in
    (Ok (nth (k mod S (length xs)) (x :: xs) x),
     {| self := self p; random_st := r; np_random_st := np_random_st p |}).

(** [random.randint(a, b)] *)
Definition random_randint (a b : Z) : M Z :=
  fun p =>
    let n := Z.to_nat (b - a + 1) in
    let (k, r) := randbelow G n (random_st p) in
    (Ok (a + Z.of_nat (k mod n)),
     {| self := self p; random_st := r; np_random_st := np_random_st p |}).

(** [random.random()] *)
Definition random_random : M Q :=
  fun p =>
    let (x, r) := random_float G (random_st p) in
    (Ok x, {| self := self p; random_st := r; np_random_st := np_random_st p |}).

(** [np.random.normal(mean, std)] *)
Definition np_random_normal (mean std : Q) : M Q :=
  fun p =>
    let (x, r) := np_normal G mean std (np_random_st p) in
    (Ok x, {| self := self p; random_st := random_st p; np_random_st := r |}).

(** *** Utility functions *)

(** [uniq(self._event_seq, "e")] *)
Definition _new_event_id : M string :=
  b <- get_self ;;
  update_self (with_event_seq (S (_event_seq b))) ;;;
  ret ("e" ++ str (_event_seq b)).

Definition _next_obj_suffix (type_name : string) : M nat :=
  b <- get_self ;;
  let n := default 1%nat (_obj_seq_by_type b !! type_name) in
  update_self (with_obj_seq (<[type_name := S n]> (_obj_seq_by_type b))) ;;;
  ret n.

Definition _new_object_id (type_name : string) : M string :=
  n <- _next_obj_suffix type_name ;;
  b <- get_self ;;
  let pad := zfill (obj_id_pad (cfg b)) (str n) in
  let base := default "obj" (_type_prefix (cfg b) !! type_name) in
  ret (base ++ "-" ++ pad).

Definition append_event (e : Event) : M unit :=
  update_self (fun b => with_events (events b ++ [e]) b).

Definition append_object (o : Obj) : M unit :=
  update_self (fun b => with_objects (objects b ++ [o]) b).

Definition add_attribute (a : ObjAttr) (o : Obj) : Obj :=
  {| obj_id := obj_id o; obj_type := obj_type o;
     obj_attributes := obj_attributes o ++ [a] |}.

(** The first object of [l] with identifier [oid]; the callers scan
    [reversed(self.objects)]. *)
Fixpoint scan (oid : string) (l : list Obj) : option Obj :=
  match l with
  | [] => None
  | o :: rest => if String.eqb (obj_id o) oid then Some o else scan oid rest
  end.

(** The same scan, changing the object it stops at. *)
Fixpoint scan_update (oid : string) (f : Obj -> Obj) (l : list Obj) : option (list Obj) :=
  match l with
  | [] => None
  | o :: rest =>
      if String.eqb (obj_id o) oid then Some (f o :: rest)
      else match scan_update oid f rest with
           | Some rest' => Some (o :: rest')
           | None => None
           end
  end.

Definition _get_obj_attr (oid : string) (attr_name : string) : M Value :=
  b <- get_self ;;
  match scan oid (rev (objects b)) with
  | Some o =>
      let vals := List.filter (fun a => String.eqb (at_name a) attr_name) (obj_attributes o) in
      ret (match last vals with
           | Some a => at_value a
           | None => VNone
           end)
  | None => ret VNone
  end.

Definition _append_attr (oid : string) (name : string) (time : Z) (value : Value) : M unit :=
  b <- get_self ;;
  match scan_update oid
          (add_attribute {| at_name := name; at_time := time; at_value := value |})
          (rev (objects b)) with
  | Some l => update_self (with_objects (rev l))
  | None => raise (KeyError ("Object " ++ oid ++ " not found"))
  end.

Definition _append_obj_attrs (oid : string) (triples : list (string * Z * Value)) : M unit :=
  for_each (fun '(n, t, v) => _append_attr oid n t v) triples.

(** *** Object creation *)

Definition attr (name : string) (time : Z) (value : Value) : ObjAttr :=
  {| at_name := name; at_time := time; at_value := value |}.

Definition _create_patient (trace_index : nat) (t : datetime) : M string :=
  oid <- _new_object_id "Patient" ;;
  sex <- random_choice "M" ["F"] ;;
  age <- random_randint 20 85 ;;
  append_object
    {| obj_id := oid; obj_type := "Patient";
       obj_attributes :=
         [ attr "patient_id" (iso t) (VStr ("P-" ++ fmt_d 4 trace_index));
           attr "sex" (iso t) (VStr sex);
           attr "age" (iso t) (VInt age);
           attr "contradindications" (iso t) (VStr "none");
           attr "allergies" (iso t) (VStr "none");
           attr "status" (iso t) (VStr "Outpatient");
           attr "condition" (iso t) (VStr "Stable") ] |} ;;;
  ret oid.

Definition _create_visit (trace_index : nat) (t : datetime) : M string :=
  oid <- _new_object_id "Encounter" ;;
  reason <- random_choice "StomachPain" ["ChestPain"; "ThroatPain"] ;;
  append_object
    {| obj_id := oid; obj_type := "Encounter";
       obj_attributes :=
         [ attr "enc_id" (iso t) (VStr ("E-" ++ fmt_d 4 trace_index));
           attr "patient_id" (iso t) (VStr ("P-" ++ fmt_d 4 trace_index));
           attr "type" (iso t) (VStr "Outpatient");
           attr "dept" (iso t) (VStr "Oncology");
           attr "start_time" (iso t) (VTime (iso t));
           attr "status" (iso t) (VStr "open");
           attr "reason" (iso t) (VStr reason);
           attr "billing_status" (iso t) (VStr "unpaid") ] |} ;;;
  ret oid.

Definition _create_test (ctx : Ctx) (t : datetime) (modality : string) : M string :=
  let test_num_in_trace := S (length (test_ids ctx)) in
  let oid := "test-" ++ fmt_d 3 (trace_index ctx) ++ "-" ++ str test_num_in_trace in
  finding <- random_choice "Suspicious" ["Normal"] ;;
  append_object
    {| obj_id := oid; obj_type := "Test";
       obj_attributes :=
         [ attr "test_id" (iso t)
             (VStr ("T-" ++ fmt_d 4 (trace_index ctx) ++ "-" ++ modality
                         ++ str test_num_in_trace));
           attr "patient_id" (iso t) (VStr ("P-" ++ fmt_d 4 (trace_index ctx)));
           attr "modality" (iso t) (VStr modality);
           attr "perform_time" (iso t) (VTime (iso t));
           attr "result_state" (iso t) (VStr "Unreviewed");
           attr "findings" (iso (t + minutes 15)) (VStr finding) ] |} ;;;
  ret oid.

Definition _create_diagnosis (ctx : Ctx) (t : datetime) : M string :=
  oid <- _new_object_id "Diagnosis" ;;
  site <- random_choice "Lung" ["Stomach"; "Breast"] ;;
  stage <- random_choice "I" ["II"; "III"; "IV"] ;;
  append_object
    {| obj_id := oid; obj_type := "Diagnosis";
       obj_attributes :=
         [ attr "dx_id" (iso t) (VStr ("DX-" ++ fmt_d 4 (trace_index ctx)));
           attr "patient_id" (iso t) (VStr ("P-" ++ fmt_d 4 (trace_index ctx)));
           attr "primary_site" (iso t) (VStr site);
           attr "stage" (iso t) (VStr stage);
           attr "confirm_time" (iso t) (VTime (iso t)) ] |} ;;;
  ret oid.

Definition _create_plan (ctx : Ctx) (t : datetime) (diagnosis_id : string) : M string :=
  oid <- _new_object_id "TreatmentPlan" ;;
  dx_id_val <- _get_obj_attr diagnosis_id "dx_id" ;;
  intent <- random_choice "curative" ["palliative"] ;;
  regimen <- random_choice "FOLFOX" ["FOLFIRI"; "CAPOX"] ;;
  append_object
    {| obj_id := oid; obj_type := "TreatmentPlan";
       obj_attributes :=
         [ attr "plan_id" (iso t) (VStr ("PLAN-" ++ fmt_d 4 (trace_index ctx)));
           attr "patient_id" (iso t) (VStr ("P-" ++ fmt_d 4 (trace_index ctx)));
           attr "dx_id" (iso t) dx_id_val;
           attr "intent" (iso t) (VStr intent);
           attr "primary_modality" (iso t) (VStr "medication");
           attr "regimen" (iso t) (VStr regimen);
           attr "status" (iso t) (VStr "Planned") ] |} ;;;
  ret oid.

Definition _create_medication (ctx : Ctx) (t : datetime) (plan_id : string) : M string :=
  let med_num_in_trace := S (length (medication_ids ctx)) in
  let oid := "med-" ++ fmt_d 3 (trace_index ctx) ++ "-" ++ str med_num_in_trace in
  plan_id_val <- _get_obj_attr plan_id "plan_id" ;;
  drug <- random_choice "pembrolizumab" ["trastuzumab"; "paclitaxel"] ;;
  amount <- random_randint 100 500 ;;
  x <- random_random ;;
  append_object
    {| obj_id := oid; obj_type := "Dose";
       obj_attributes :=
         [ attr "admin_id" (iso t)
             (VStr ("D-" ++ fmt_d 4 (trace_index ctx) ++ "-" ++ str med_num_in_trace));
           attr "patient_id" (iso t) (VStr ("P-" ++ fmt_d 4 (trace_index ctx)));
           attr "plan_id" (iso t) plan_id_val;
           attr "drug_name" (iso t) (VStr drug);
           attr "amount" (iso t) (VInt amount);
           attr "route" (iso t) (VStr "IV");
           attr "given_time" (iso t) (VTime (iso t));
           attr "adverse_event" (iso (t + minutes 30))
             (VStr (if Qle_bool x (2 # 10) then "Nausea" else "None")) ] |} ;;;
  ret oid.

(** *** Activity handlers *)

Definition rel (oid : string) (q : string) : Relationship :=
  {| objectId := oid; qualifier := q |}.

Definition _emit_event_registration (ctx : Ctx) (t : datetime) : M Ctx :=
  eid <- _new_event_id ;;
  append_event
    {| ev_id := eid; ev_type := "OutpatientRegistration"; ev_time := iso t;
       ev_attributes :=
         [ {| ea_name := "ReceptionDesk";
              ea_value := VStr ("Outpatient " ++ str (S (trace_index ctx mod 3))) |} ];
       ev_relationships :=
         [ rel (patient_id ctx) "subject"; rel (visit_id ctx) "encounter" ] |} ;;;
  ret ctx.

Definition _emit_event_initial_consult (ctx : Ctx) (t : datetime) : M Ctx :=
  doctor <- random_choice "Dr. Kim" ["Dr. Cha"; "Dr.Jung"] ;;
  _append_attr (visit_id ctx) "attending" (iso t) (VStr doctor) ;;;
  eid <- _new_event_id ;;
  department <- random_choice "Oncology" ["Surgery"] ;;
  append_event
    {| ev_id := eid; ev_type := "InitialVisit"; ev_time := iso t;
       ev_attributes :=
         [ {| ea_name := "Department"; ea_value := VStr department |};
           {| ea_name := "AttendingPhysician"; ea_value := VStr doctor |} ];
       ev_relationships :=
         [ rel (patient_id ctx) "subject"; rel (visit_id ctx) "encounter" ] |} ;;;
  ret ctx.

Definition _emit_event_imaging (ctx : Ctx) (t : datetime) : M Ctx :=
  modality <- random_choice "CT" ["MRI"; "PET"] ;;
  test_id <- _create_test ctx t modality ;;
  let ctx := with_test_ids (test_ids ctx ++ [test_id]) ctx in
  eid <- _new_event_id ;;
  append_event
    {| ev_id := eid; ev_type := "ImagingTest"; ev_time := iso t;
       ev_attributes := [ {| ea_name := "TestType"; ea_value := VStr modality |} ];
       ev_relationships :=
         [ rel (patient_id ctx) "subject"; rel (visit_id ctx) "encounter";
           rel test_id "order" ] |} ;;;
  ret ctx.

Definition _emit_event_lab (ctx : Ctx) (t : datetime) : M Ctx :=
  modality <- random_choice "Blood" ["Pathology"] ;;
  test_id <- _create_test ctx t modality ;;
  let ctx := with_test_ids (test_ids ctx ++ [test_id]) ctx in
  eid <- _new_event_id ;;
  append_event
    {| ev_id := eid; ev_type := "LabTest"; ev_time := iso t;
       ev_attributes := [ {| ea_name := "TestType"; ea_value := VStr modality |} ];
       ev_relationships :=
         [ rel (patient_id ctx) "subject"; rel (visit_id ctx) "encounter";
           rel test_id "order" ] |} ;;;
  ret ctx.

Definition _emit_event_followup (ctx : Ctx) (t : datetime) : M Ctx :=
  for_each (fun test_id => _append_attr test_id "result_state" (iso t) (VStr "Reviewed"))
           (test_ids ctx) ;;;
  eid <- _new_event_id ;;
  assessment <- random_choice "AdditionalTesting" ["TreatmentPlanning"; "Monitoring"] ;;
  append_event
    {| ev_id := eid; ev_type := "FollowUpVisit"; ev_time := iso t;
       ev_attributes := [ {| ea_name := "Assessment"; ea_value := VStr assessment |} ];
       ev_relationships :=
         [ rel (patient_id ctx) "subject"; rel (visit_id ctx) "encounter" ]
         ++ map (fun test_id => rel test_id "reviewed_test") (test_ids ctx) |} ;;;
  ret ctx.

(** The two guards that open [_emit_event_mdt] and [_emit_event_medication]:
    they return the context and the identifier now stored in it. *)
Definition ensure_diagnosis (ctx : Ctx) (t : datetime) : M (Ctx * string) :=
  match diagnosis_id ctx with
  | None => d <- _create_diagnosis ctx t ;; ret (with_diagnosis_id d ctx, d)
  | Some d => ret (ctx, d)
  end.

Definition ensure_plan (ctx : Ctx) (t : datetime) (dx : string) : M (Ctx * string) :=
  match plan_id ctx with
  | None => p <- _create_plan ctx t dx ;; ret (with_plan_id p ctx, p)
  | Some p => ret (ctx, p)
  end.

Definition _emit_event_mdt (ctx : Ctx) (t : datetime) : M Ctx :=
  r <- ensure_diagnosis ctx t ;;
  let '(ctx, dx) := r in
  r <- ensure_plan ctx t dx ;;
  let '(ctx, plan) := r in
  eid <- _new_event_id ;;
  append_event
    {| ev_id := eid; ev_type := "MDT"; ev_time := iso t;
       ev_attributes :=
         [ {| ea_name := "Care Team"; ea_value := VStr "OncologySurgeryRadiology" |} ];
       ev_relationships :=
         [ rel (patient_id ctx) "subject"; rel (visit_id ctx) "encounter";
           rel dx "diagnosis"; rel plan "plan" ] |} ;;;
  ret ctx.

Definition _emit_event_medication (ctx : Ctx) (t : datetime) : M Ctx :=
  r <- ensure_diagnosis ctx t ;;
  let '(ctx, dx) := r in
  r <- ensure_plan ctx t dx ;;
  let '(ctx, plan) := r in
  med_id <- _create_medication ctx t plan ;;
  let ctx := with_medication (medication_ids ctx ++ [med_id]) (S (med_cycles ctx)) ctx in
  _append_attr plan "status" (iso t) (VStr "Proceed") ;;;
  eid <- _new_event_id ;;
  append_event
    {| ev_id := eid; ev_type := "MedicationTreatment"; ev_time := iso t;
       ev_attributes :=
         [ {| ea_name := "CycleNumber"; ea_value := VInt (Z.of_nat (med_cycles ctx)) |} ];
       ev_relationships :=
         [ rel (patient_id ctx) "subject"; rel (visit_id ctx) "encounter";
           rel plan "plan"; rel med_id "drug_admin" ] |} ;;;
  ret ctx.

Definition _emit_event_payment (ctx : Ctx) (t : datetime) : M Ctx :=
  amount <- random_randint 100000 1000000 ;;
  method <- random_choice "card" ["cash"; "transfer"] ;;
  _append_obj_attrs (visit_id ctx)
    [ ("billing_amount", iso t, VInt amount);
      ("billing_status", iso t, VStr "paid");
      ("payment_method", iso t, VStr method);
      ("billing_time", iso t, VTime (iso t)) ] ;;;
  eid <- _new_event_id ;;
  append_event
    {| ev_id := eid; ev_type := "Payment"; ev_time := iso t;
       ev_attributes :=
         [ {| ea_name := "PaymentMethod"; ea_value := VStr method |};
           {| ea_name := "PaymentAmount"; ea_value := VInt amount |} ];
       ev_relationships :=
         [ rel (patient_id ctx) "subject"; rel (visit_id ctx) "billing_encounter" ] |} ;;;
  ret ctx.

Definition _emit_event_discharge (ctx : Ctx) (t : datetime) : M Ctx :=
  _append_obj_attrs (visit_id ctx)
    [ ("status", iso t, VStr "closed");
      ("end_time", iso t, VTime (iso t)) ] ;;;
  eid <- _new_event_id ;;
  append_event
    {| ev_id := eid; ev_type := "Discharge"; ev_time := iso t;
       ev_attributes := [];
       ev_relationships :=
         [ rel (patient_id ctx) "subject"; rel (visit_id ctx) "encounter" ] |} ;;;
  ret ctx.

(** *** Object-to-object relationships *)

Definition new_rel (rtype : string) (time : datetime) (src tgt : string) : M unit :=
  b <- get_self ;;
  update_self (with_o2o_seq (S (_o2o_seq b))) ;;;
  update_self (fun b' =>
    with_relationships
      (object_relationships b' ++
         [ {| rel_id := "or" ++ str (_o2o_seq b); rel_type := rtype;
              rel_time := iso time; sourceObject := src; targetObject := tgt;
              rel_attributes := [] |} ]) b').

(** Truth value of a string and of a list in a condition. *)
Definition truthy (s : string) : bool := negb (String.eqb s EmptyString).
Definition nonempty {A} (l : list A) : bool :=
  match l with [] => false | _ :: _ => true end.

Definition _emit_o2o (ctx : Ctx) : M unit :=
  new_rel "Encounter-Patient" (start_time ctx) (visit_id ctx) (patient_id ctx) ;;;
  match plan_id ctx with
  | Some plan =>
      if truthy plan && nonempty (medication_ids ctx) then
        for_each (fun med_id => new_rel "TreatmentPlan-Dose" (start_time ctx) plan med_id)
                 (medication_ids ctx)
      else ret tt
  | None => ret tt
  end.

(** *** Replaying traces *)

Definition _init_trace_objects (trace_index : nat) (start_time : datetime) : M Ctx :=
  patient <- _create_patient trace_index start_time ;;
  visit <- _create_visit trace_index start_time ;;
  ret {| trace_index := trace_index; start_time := start_time;
         patient_id := patient; visit_id := visit;
         diagnosis_id := None; plan_id := None;
         medication_ids := []; test_ids := []; med_cycles := 0 |}.

(** The [if]/[elif] chain of the loop body. *)
Definition dispatch (ctx : Ctx) (t : datetime) (act : string) : M Ctx :=
  if String.eqb act "OutpatientRegistration" then _emit_event_registration ctx t
  else if String.eqb act "InitialVisit" then _emit_event_initial_consult ctx t
  else if String.eqb act "ImagingTest" then _emit_event_imaging ctx t
  else if String.eqb act "LabTest" then _emit_event_lab ctx t
  else if String.eqb act "FollowUpVisit" then _emit_event_followup ctx t
  else if String.eqb act "JointConsult" then _emit_event_mdt ctx t
  else if String.eqb act "MedicationTreatment" then _emit_event_medication ctx t
  else if String.eqb act "Payment" then _emit_event_payment ctx t
  else if String.eqb act "Discharge" then _emit_event_discharge ctx t
  else raise (ValueError ("Unknown activity label: " ++ act)).

(** The loop over the activities of one trace, from cursor time [t]. *)
Fixpoint replay (ctx : Ctx) (t : datetime) (step : timedelta) (activities : list string)
  : M Ctx :=
  match activities with
  | [] => ret ctx
  | act :: rest =>
      ctx' <- dispatch ctx t act ;;
      replay ctx' (t + step) step rest
  end.

Definition trace_start (b : OCELBuilder) (trace_index : nat) : datetime :=
  base_time (cfg b) + hours (Z.of_nat trace_index - 1).

Definition _add_single_trace (trace_index : nat) (activities : list string) : M unit :=
  b <- get_self ;;
  let t := trace_start b trace_index in
  minutes_to_add <- np_random_normal (event_step_mean_minutes (cfg b))
                                     (event_step_std_minutes (cfg b)) ;;
  let step := timedelta_minutes (max_10 minutes_to_add) in
  ctx <- _init_trace_objects trace_index t ;;
  ctx' <- replay ctx t step activities ;;
  _emit_o2o ctx'.

(** [_add_single_trace] up to the end of its loop: the context and the state
    on which [_emit_o2o] is then run. *)
Definition replay_trace (trace_index : nat) (activities : list string) : M Ctx :=
  b <- get_self ;;
  let t := trace_start b trace_index in
  minutes_to_add <- np_random_normal (event_step_mean_minutes (cfg b))
                                     (event_step_std_minutes (cfg b)) ;;
  let step := timedelta_minutes (max_10 minutes_to_add) in
  ctx <- _init_trace_objects trace_index t ;;
  replay ctx t step activities.

(** The step a trace started in process [p] computes. *)
Definition sampled_step (p : Process) : timedelta :=
  let b := self p in
  timedelta_minutes
    (max_10 (fst (np_normal G (event_step_mean_minutes (cfg b))
                            (event_step_std_minutes (cfg b)) (np_random_st p)))).

(** [enumerate(traces, start=idx)] *)
Fixpoint add_traces_from (idx : nat) (traces : list (list string)) : M unit :=
  match traces with
  | [] => ret tt
  | trace :: rest => _add_single_trace idx trace ;;; add_traces_from (S idx) rest
  end.

Definition add_traces (traces : list (list string)) : M unit :=
  add_traces_from 1 traces.

Definition to_json : M Document :=
  b <- get_self ;;
  ret {| doc_eventTypes := event_types (cfg b);
         doc_objectTypes := object_types (cfg b);
         doc_events := events b;
         doc_objects := objects b;
         doc_objectRelationshipTypes := object_relationship_types b;
         doc_objectRelationships := object_relationships b |}.

(** *** Construction *)

Definition __post_init__ : M unit :=
  fun p =>
    let seed := rng_seed (cfg (self p)) in
    (Ok tt,
     {| self := with_relationship_types (o2o_types (cfg (self p))) (self p);
        random_st := random_seed G seed;
        np_random_st := np_seed G seed |}).

(** The fields as the dataclass initialises them. *)
Definition initial_fields (c : Config) : OCELBuilder :=
  {| cfg := c; _event_seq := 1; _obj_seq_by_type := ∅; _o2o_seq := 1;
     events := []; objects := []; object_relationship_types := [];
     object_relationships := [] |}.

(** [OCELBuilder(...)] in a process whose generators are in states [r] and
    [n]. *)
Definition new_builder (c : Config) (r : rng_state G) (n : np_state G) : Process :=
  snd (__post_init__ {| self := initial_fields c; random_st := r; np_random_st := n |}).

(** One full run as the script does it: construct, replay, export.  The
    result is the document, or the exception that ended the run. *)
Definition generate (c : Config) (traces : list (list string))
           (r : rng_state G) (n : np_state G) : Res Document :=
  fst ((add_traces traces ;;; to_json) (new_builder c r n)).

End Builder.

Arguments Process G : clear implicits.
Arguments M G A : clear implicits.

(** ** A concrete generator for the examples

    [random] counts its draws from the seed and returns the count (reduced
    by the caller); [numpy.random.normal] returns its mean. *)
Definition toy : Generators :=
  {| rng_state := nat;
     random_seed := fun seed => Z.to_nat seed;
     randbelow := fun _ s => (s, S s);
     random_float := fun s => (1 # 2, S s);
     np_state := unit;
     np_seed := fun _ => tt;
     np_normal := fun mean _ s => (mean, s) |}.

(** ** The activity vocabulary *)

Definition vocabulary : list string :=
  [ "OutpatientRegistration"; "InitialVisit"; "ImagingTest"; "LabTest";
    "FollowUpVisit"; "JointConsult"; "MedicationTreatment"; "Payment";
    "Discharge" ].

Definition known (act : string) : bool := bool_decide (act ∈ vocabulary).

(** The labels as an enumeration, with the handler each one selects. *)
Inductive Activity :=
| OutpatientRegistration | InitialVisit | ImagingTest | LabTest | FollowUpVisit
| JointConsult | MedicationTreatment | Payment | Discharge.

Definition label (a : Activity) : string :=
  match a with
  | OutpatientRegistration => "OutpatientRegistration"
  | InitialVisit => "InitialVisit"
  | ImagingTest => "ImagingTest"
  | LabTest => "LabTest"
  | FollowUpVisit => "FollowUpVisit"
  | JointConsult => "JointConsult"
  | MedicationTreatment => "MedicationTreatment"
  | Payment => "Payment"
  | Discharge => "Discharge"
  end.

Definition handler (G : Generators) (a : Activity) : Ctx -> datetime -> M G Ctx :=
  match a with
  | OutpatientRegistration => _emit_event_registration G
  | InitialVisit => _emit_event_initial_consult G
  | ImagingTest => _emit_event_imaging G
  | LabTest => _emit_event_lab G
  | FollowUpVisit => _emit_event_followup G
  | JointConsult => _emit_event_mdt G
  | MedicationTreatment => _emit_event_medication G
  | Payment => _emit_event_payment G
  | Discharge => _emit_event_discharge G
  end.

(** The [type] the handler of an activity writes into its event. *)
Definition emitted_type (a : Activity) : string :=
  match a with
  | JointConsult => "MDT"
  | _ => label a
  end.

(** The rendered cursor times of [n] activities replayed from [t]. *)
Fixpoint cursor_times (t : datetime) (step : timedelta) (n : nat) : list Z :=
  match n with
  | O => []
  | S n' => iso t :: cursor_times (t + step) step n'
  end.

(** ** Reading the object collection *)

(** The object a scan of [reversed(objects)] stops at, and the collection
    after the scan changed it. *)
Definition find_obj (oid : string) (l : list Obj) : option Obj := scan oid (rev l).

Definition upd_obj (oid : string) (f : Obj -> Obj) (l : list Obj) : option (list Obj) :=
  @rev Obj <$> scan_update oid f (rev l).

(** The current value of an attribute of an object: the last entry of that
    name, as [_get_obj_attr] reads it. *)
Definition current_value (o : Obj) (name : string) : Value :=
  match last (List.filter (fun a => String.eqb (at_name a) name) (obj_attributes o)) with
  | Some a => at_value a
  | None => VNone
  end.

Definition ids (l : list Obj) : list string := map obj_id l.

Definition of_type (ty : string) (l : list Obj) : list Obj :=
  List.filter (fun o => String.eqb (obj_type o) ty) l.

(** The timestamps of the entries of one name, in the order of the history. *)
Definition stamps (name : string) (l : list ObjAttr) : list Z :=
  map at_time (List.filter (fun a => String.eqb (at_name a) name) l).

(** ** Weakest preconditions for the builder's monad *)

(** [wp m Q p]: from [p], [m] returns normally and [Q] holds of the result. *)
Definition wp {G A} (m : M G A) (Q : A -> Process G -> Prop) (p : Process G) : Prop :=
  match m p with
  | (Ok a, p') => Q a p'
  | (Raise _, _) => False
  end.

(** What the theorems read of a process: configuration and the three
    collections. *)
Definition log_is {G} (p : Process G) (c : Config) (evs : list Event)
           (objs : list Obj) (rels : list O2O) : Prop :=
  cfg (self G p) = c /\ events (self G p) = evs /\
  objects (self G p) = objs /\ object_relationships (self G p) = rels.

(** ** What one handled activity does to the log *)

Open Scope list_scope.

(** The two attributes stamped ahead of the cursor when their object is
    created. *)
Definition future_name (n : string) : bool :=
  String.eqb n "findings" || String.eqb n "adverse_event".

(** Every entry outside the two future-stamped names is at or before [tau]. *)
Definition stamped (tau : Z) (l : list ObjAttr) : Prop :=
  Forall (fun a => future_name (at_name a) = false -> at_time a <= tau) l.

(** The entries of every single name are in non-decreasing timestamp order. *)
Definition name_sorted (l : list ObjAttr) : Prop :=
  forall name, StronglySorted Z.le (stamps name l).

(** [o'] is [o] after some entries stamped [tau] were appended to it. *)
Definition touched (tau : Z) (o o' : Obj) : Prop :=
  obj_id o' = obj_id o /\ obj_type o' = obj_type o /\
  exists ex, obj_attributes o' = obj_attributes o ++ ex /\
             Forall (fun a => at_time a = tau /\ future_name (at_name a) = false) ex.

(** [o] is an object a creator makes at cursor time [t]. *)
Definition created (t : datetime) (o : Obj) : Prop :=
  obj_id o <> EmptyString /\
  name_sorted (obj_attributes o) /\
  stamped (iso t) (obj_attributes o).

(** The current [result_state] of the object found under identifier [i] is
    "Reviewed". *)
Definition reviewed (objs : list Obj) (i : string) : Prop :=
  exists o, find_obj i objs = Some o /\
            current_value o "result_state" = VStr "Reviewed".



(** The identifier a creator called with context [ctx] gives its object:
    numbered within the trace for a Test and a Dose, from the prefix table
    and a counter for the other types. *)
Definition shaped (c : Config) (ctx : Ctx) (o : Obj) : Prop :=
  (obj_type o = "Test" /\
   obj_id o = "test-" +:+ fmt_d 3 (trace_index ctx) +:+ "-"
                +:+ str (S (length (test_ids ctx)))) \/
  (obj_type o = "Dose" /\
   obj_id o = "med-" +:+ fmt_d 3 (trace_index ctx) +:+ "-"
                +:+ str (S (length (medication_ids ctx)))) \/
  (obj_type o ∈ ["Patient"; "Encounter"; "Diagnosis"; "TreatmentPlan"] /\
   exists pad,
     obj_id o = default "obj" (_type_prefix c !! obj_type o) +:+ "-" +:+ pad).


Definition test_id (i k : nat) : string := "test-" +:+ fmt_d 3 i +:+ "-" +:+ str k.



(** [X] is [cur] after objects were touched and objects of types [tys]
    created, all at cursor [t]; [S] holds of the created ones. *)
Definition grown (S : Obj -> Prop) (t : datetime) (cur X : list Obj)
           (tys : list string) : Prop :=
  exists cur1 news,
    X = cur1 ++ news /\ Forall2 (touched (iso t)) cur cur1 /\
    Forall (created t) news /\ map obj_type news = tys /\ Forall S news.

(** What a FollowUpVisit at [tau] does to an object when the tests to review
    are [tids]. *)
Definition review (tau : Z) (tids : list string) (o : Obj) : Obj :=
  if bool_decide (obj_id o ∈ tids)
  then add_attribute (attr "result_state" tau (VStr "Reviewed")) o
  else o.

(** The context [ctx] describes the objects [cur] its trace has made. *)
Record ctx_tracks (ctx : Ctx) (cur : list Obj) : Prop := {
  tracks_patient : ids (of_type "Patient" cur) = [patient_id ctx];
  tracks_visit : ids (of_type "Encounter" cur) = [visit_id ctx];
  tracks_tests : ids (of_type "Test" cur) = test_ids ctx;
  tracks_doses : ids (of_type "Dose" cur) = medication_ids ctx;
  tracks_diagnosis : ids (of_type "Diagnosis" cur) = option_list (diagnosis_id ctx);
  tracks_plan : ids (of_type "TreatmentPlan" cur) = option_list (plan_id ctx);
  tracks_nonempty : Forall (fun i => i <> EmptyString) (ids cur);
  tracks_dose_plan : medication_ids ctx <> [] -> plan_id ctx <> None;
}.

(** The types of the objects the handler of [a] creates from context [ctx]. *)
Definition created_types (a : Activity) (ctx : Ctx) : list string :=
  let lazily :=
    (match diagnosis_id ctx with None => ["Diagnosis"] | Some _ => [] end)
    ++ (match plan_id ctx with None => ["TreatmentPlan"] | Some _ => [] end) in
  match a with
  | ImagingTest | LabTest => ["Test"]
  | JointConsult => lazily
  | MedicationTreatment => lazily ++ ["Dose"]
  | _ => []
  end.

(** The relationships of the event the handler of [a] appends, from the
    context before ([ctx]) and after ([ctx']). *)
Definition expected_relationships (a : Activity) (ctx ctx' : Ctx) : list Relationship :=
  let subject := rel (patient_id ctx) "subject" in
  let encounter := rel (visit_id ctx) "encounter" in
  let plan := map (fun i => rel i "plan") (option_list (plan_id ctx')) in
  match a with
  | OutpatientRegistration | InitialVisit | Discharge => [subject; encounter]
  | ImagingTest | LabTest =>
      [subject; encounter]
      ++ map (fun i => rel i "order") (drop (length (test_ids ctx)) (test_ids ctx'))
  | FollowUpVisit =>
      [subject; encounter] ++ map (fun i => rel i "reviewed_test") (test_ids ctx)
  | JointConsult =>
      [subject; encounter]
      ++ map (fun i => rel i "diagnosis") (option_list (diagnosis_id ctx')) ++ plan
  | MedicationTreatment =>
      [subject; encounter] ++ plan
      ++ map (fun i => rel i "drug_admin")
             (drop (length (medication_ids ctx)) (medication_ids ctx'))
  | Payment => [subject; rel (visit_id ctx) "billing_encounter"]
  end.

(** One step of a replay: the handler of [a], run at cursor [t] on context
    [ctx] and process [p] whose objects are [old ++ cur], ends in [ctx'] and
    [p'] with objects [old ++ cur']. *)
Record handled {G} (old : list Obj) (t : datetime) (a : Activity)
       (ctx : Ctx) (cur : list Obj) (p : Process G)
       (ctx' : Ctx) (cur' : list Obj) (p' : Process G) : Prop := {
  h_cfg : cfg (self G p') = cfg (self G p);
  h_rels : object_relationships (self G p') = object_relationships (self G p);
  h_event : exists e,
      events (self G p') = events (self G p) ++ [e] /\
      ev_time e = iso t /\ ev_type e = emitted_type a /\
      ev_relationships e = expected_relationships a ctx ctx';
  h_objects : objects (self G p') = old ++ cur';
  h_cur : grown (shaped (cfg (self G p)) ctx) t cur cur' (created_types a ctx);
  h_trace_index : trace_index ctx' = trace_index ctx;
  h_start_time : start_time ctx' = start_time ctx;
  h_patient_id : patient_id ctx' = patient_id ctx;
  h_visit_id : visit_id ctx' = visit_id ctx;
  h_tracks : ctx_tracks ctx' cur';
  h_reviewed : a = FollowUpVisit -> Forall (reviewed (old ++ cur')) (test_ids ctx);
  h_followup : a = FollowUpVisit -> NoDup (ids cur) ->
      cur' = map (review (iso t) (test_ids ctx)) cur;
}.

(** A replay of known activities as a chain of such steps. *)
Inductive steps {G} (old : list Obj) (step : timedelta) :
  datetime -> Ctx -> list Obj -> Process G -> list Activity ->
  Ctx -> list Obj -> Process G -> Prop :=
| steps_nil t ctx cur p : steps old step t ctx cur p [] ctx cur p
| steps_cons t a acts ctx cur p ctx1 cur1 p1 ctx2 cur2 p2 :
    handled old t a ctx cur p ctx1 cur1 p1 ->
    steps old step (t + step) ctx1 cur1 p1 acts ctx2 cur2 p2 ->
    steps old step t ctx cur p (a :: acts) ctx2 cur2 p2.

(** Trace [i], started in process [p], has created its Patient and its
    Encounter: [ctx0] is its fresh context, [cur0] the two objects and [p0]
    the process before the first activity. *)
Definition opened {G} (i : nat) (p : Process G) (ctx0 : Ctx) (cur0 : list Obj)
           (p0 : Process G) : Prop :=
  let t0 := trace_start (self G p) i in
  log_is p0 (cfg (self G p)) (events (self G p)) (objects (self G p) ++ cur0)
         (object_relationships (self G p)) /\
  ctx_tracks ctx0 cur0 /\ Forall (created t0) cur0 /\
  map obj_type cur0 = ["Patient"; "Encounter"] /\
  Forall (shaped (cfg (self G p)) ctx0) cur0 /\
  trace_index ctx0 = i /\ start_time ctx0 = t0 /\
  diagnosis_id ctx0 = None /\ plan_id ctx0 = None.

(** What a relationship record says, its identifier apart. *)
Definition o2o_view (r : O2O) : string * Z * string * string :=
  (rel_type r, rel_time r, sourceObject r, targetObject r).

(** The records [_emit_o2o] appends for context [ctx], identifiers apart. *)
Definition emitted_o2o (ctx : Ctx) : list (string * Z * string * string) :=
  ("Encounter-Patient", iso (start_time ctx), visit_id ctx, patient_id ctx)
  :: match plan_id ctx with
     | Some plan =>
         if truthy plan && nonempty (medication_ids ctx)
         then map (fun med => ("TreatmentPlan-Dose", iso (start_time ctx), plan, med))
                  (medication_ids ctx)
         else []
     | None => []
     end.

(** Activities that need a Diagnosis and a TreatmentPlan. *)
Definition consults (a : Activity) : bool :=
  match a with
  | JointConsult | MedicationTreatment => true
  | _ => false
  end.

Definition orders_test (a : Activity) : bool :=
  match a with
  | ImagingTest | LabTest => true
  | _ => false
  end.

Definition medicates (a : Activity) : bool :=
  match a with
  | MedicationTreatment => true
  | _ => false
  end.

(** The shape shared by the six creators: one object of type [ty], made at
    cursor [t] and identified as the context says, is appended after the
    trace's objects and its identifier returned. *)
Definition creates {G} (m : M G string) (ty : string) (t : datetime) (ctx : Ctx) : Prop :=
  forall (Q : string -> Process G -> Prop) p c evs old cur rels,
    log_is p c evs (old ++ cur) rels ->
    (forall o p', obj_type o = ty -> created t o -> shaped c ctx o ->
                  log_is p' c evs (old ++ cur ++ [o]) rels -> Q (obj_id o) p') ->
    wp m Q p.

(** The handler of [a] returns normally and takes one step, whenever the
    context tracks the objects of its trace. *)
Definition handler_ok (G : Generators) (a : Activity) : Prop :=
  forall old cur ctx t (p : Process G),
    objects (self G p) = old ++ cur -> ctx_tracks ctx cur ->
    wp (handler G a ctx t)
       (fun ctx' p' => exists cur', handled old t a ctx cur p ctx' cur' p') p.

(** Two configurations for the examples: a mean of 5 minutes, which the floor
    turns into a step of 10 minutes, and a mean of 10 minutes and half a
    second. *)
Definition short_step_config : Config :=
  {| event_types := DEFAULT_EVENT_TYPES;
     object_types := DEFAULT_OBJECT_TYPES;
     o2o_types := DEFAULT_O2O_TYPES;
     obj_id_pad := 3;
     _type_prefix := default_type_prefix;
     base_time := default_base_time;
     event_step_mean_minutes := 5;
     event_step_std_minutes := 0;
     rng_seed := 42 |}.

Definition odd_step_config : Config :=
  {| event_types := DEFAULT_EVENT_TYPES;
     object_types := DEFAULT_OBJECT_TYPES;
     o2o_types := DEFAULT_O2O_TYPES;
     obj_id_pad := 3;
     _type_prefix := default_type_prefix;
     base_time := default_base_time;
     event_step_mean_minutes := 1201 # 120;
     event_step_std_minutes := 0;
     rng_seed := 42 |}.


(** The builder a run on [toy] starts from, and where it ends. *)
Definition toy_builder (c : Config) : Process toy := new_builder toy c 0%nat tt.

Definition toy_run (c : Config) (traces : list (list string)) : Process toy :=
  (add_traces toy traces (toy_builder c)).2.

(** ** Outcomes of a call, exceptions included *)

(** [run m Q E p]: from [p], [m] either returns normally and [Q] holds of its
    result and final state, or raises [e] and [E e] holds of the state the
    exception leaves. *)
Definition run {G A} (m : M G A) (Q : A -> Process G -> Prop)
           (E : Exn -> Process G -> Prop) (p : Process G) : Prop :=
  match m p with
  | (Ok a, p') => Q a p'
  | (Raise e, p') => E e p'
  end.

(** The process [p] with its builder replaced. *)
Definition with_self {G} (b : OCELBuilder) (p : Process G) : Process G :=
  {| self := b; random_st := random_st G p; np_random_st := np_random_st G p |}.



(** The message of the [KeyError] of [_append_attr]. *)
Definition not_found (oid : string) : Exn := KeyError ("Object " +:+ oid +:+ " not found").

(** A process for the examples: its two objects share the identifier "a",
    and the later one has two entries named "k". *)
Definition twins : Process toy :=
  with_self
    (with_objects
       [ {| obj_id := "a"; obj_type := "Test";
            obj_attributes := [attr "k" 1 (VInt 1)] |};
         {| obj_id := "a"; obj_type := "Dose";
            obj_attributes := [attr "k" 2 (VInt 2); attr "k" 3 (VInt 3)] |} ]
       (initial_fields default_config))
    (toy_builder default_config).

(** ** Identifiers *)

(** [uniq(self._event_seq, "e")] and the identifier [new_rel] writes. *)
Definition event_id (k : nat) : string := "e" +:+ str k.
Definition o2o_id (k : nat) : string := "or" +:+ str k.

(** The number the counter of a type gives next, and the identifier
    [_new_object_id] makes of a number. *)
Definition next_number (b : OCELBuilder) (ty : string) : nat :=
  default 1%nat (_obj_seq_by_type b !! ty).

Definition object_id (c : Config) (ty : string) (n : nat) : string :=
  default "obj" (_type_prefix c !! ty) +:+ "-" +:+ zfill (obj_id_pad c) (str n).

(** ** What a call leaves in place *)

(** A value of the Python type a schema names. *)
Definition fits (v : Value) (ty : string) : bool :=
  match v with
  | VStr _ => String.eqb ty "string" || String.eqb ty "id"
  | VInt _ => String.eqb ty "integer"
  | VTime _ => String.eqb ty "time"
  | VNone => false
  end.

(** The event has a type [types] declares and carries exactly the attributes
    declared for it, in the declared order and with values of the declared
    types. *)
Definition conforms (types : list TypeDecl) (e : Event) : Prop :=
  exists d,
    List.find (fun d => String.eqb (td_name d) (ev_type e)) types = Some d /\
    Forall2 (fun a da => ea_name a = decl_name da /\ fits (ea_value a) (decl_type da) = true)
            (ev_attributes e) (td_attributes d).

(** The events the handlers write: of type "MDT", or as the default schema
    declares them. *)
Definition event_ok (e : Event) : Prop :=
  ev_type e = "MDT" \/ conforms DEFAULT_EVENT_TYPES e.

Definition rel_ok (r : O2O) : Prop :=
  rel_type r ∈ map o2o_name DEFAULT_O2O_TYPES /\ rel_attributes r = [].

(** [o'] is [o] with entries added at the end of its history. *)
Definition extended (o o' : Obj) : Prop :=
  obj_id o' = obj_id o /\ obj_type o' = obj_type o /\
  obj_attributes o `prefix_of` obj_attributes o'.

(** The objects [l'] continue the objects [l]. *)
Definition obj_cont (l l' : list Obj) : Prop :=
  exists kept new, l' = kept ++ new /\ Forall2 extended l kept.

(** The collections of [b'] continue those of [b]: events and relationships
    were appended, objects were appended or extended; configuration and
    relationship types are the same. *)
Record continues (b b' : OCELBuilder) : Prop := {
  cont_cfg : cfg b' = cfg b;
  cont_types : object_relationship_types b' = object_relationship_types b;
  cont_events : exists new, events b' = events b ++ new /\ Forall event_ok new;
  cont_rels : exists new,
      object_relationships b' = object_relationships b ++ new /\ Forall rel_ok new;
  cont_objects : obj_cont (objects b) (objects b');
}.

(** Events and relationships are numbered from 1 in the order of the
    collections, and the counters stand one past the last. *)
Record numbered (b : OCELBuilder) : Prop := {
  num_event_seq : _event_seq b = S (length (events b));
  num_event_ids : map ev_id (events b) = map event_id (seq 1 (length (events b)));
  num_o2o_seq : _o2o_seq b = S (length (object_relationships b));
  num_o2o_ids : map rel_id (object_relationships b)
                = map o2o_id (seq 1 (length (object_relationships b)));
}.

Definition keeps (b b' : OCELBuilder) : Prop :=
  continues b b' /\ (numbered b -> numbered b').

(** The exceptions a replay can end in. *)
Definition unknown_label (e : Exn) : Prop :=
  exists act, known act = false /\ e = ValueError ("Unknown activity label: " +:+ act).

Definition missing_object (e : Exn) : Prop := exists oid, e = not_found oid.

(** [l'] is [l] after the object found under each identifier of [oids], in
    turn, was changed by [f]. *)
Inductive marks (f : Obj -> Obj) : list string -> list Obj -> list Obj -> Prop :=
| marks_nil l : marks f [] l l
| marks_cons oid oids l l1 l2 :
    upd_obj oid f l = Some l1 -> marks f oids l1 l2 -> marks f (oid :: oids) l l2.

(** What a handler guarantees of the log, whether it returns or raises. *)
Definition handler_keeps (G : Generators) (m : M G Ctx) : Prop :=
  forall (p : Process G) b, self G p = b ->
    run m (fun _ p' => keeps b (self G p'))
          (fun e p' => keeps b (self G p') /\ missing_object e) p.

(** The two ways a replay ends early. *)
Definition raised_ok (e : Exn) : Prop := missing_object e \/ unknown_label e.

(** ** References *)

(** Every identifier of [refs] names an object of [objs]. *)
Definition resolved (objs : list Obj) (refs : list string) : Prop :=
  Forall (fun i => i ∈ ids objs) refs.

Definition event_refs (e : Event) : list string := map objectId (ev_relationships e).

Definition o2o_refs (r : O2O) : list string := [sourceObject r; targetObject r].

(** The identifiers a context holds. *)
Definition ctx_ids (ctx : Ctx) : list string :=
  patient_id ctx :: visit_id ctx ::
  option_list (diagnosis_id ctx) ++ option_list (plan_id ctx)
  ++ medication_ids ctx ++ test_ids ctx.

(** The events after the first [n] and the relationships after the first [k]
    refer to objects of the collection. *)
Record linked (n k : nat) (b : OCELBuilder) : Prop := {
  link_n : (n <= length (events b))%nat;
  link_k : (k <= length (object_relationships b))%nat;
  link_events : Forall (fun e => resolved (objects b) (event_refs e)) (drop n (events b));
  link_rels : Forall (fun r => resolved (objects b) (o2o_refs r))
                     (drop k (object_relationships b));
}.

(** What a handler guarantees of the references when its context resolves:
    it returns, and the context it returns resolves. *)
Definition handler_links (G : Generators) (m : Ctx -> M G Ctx) : Prop :=
  forall (p : Process G) b n k ctx,
    self G p = b -> linked n k b -> resolved (objects b) (ctx_ids ctx) ->
    run (m ctx)
        (fun ctx' p' => linked n k (self G p') /\ resolved (objects (self G p')) (ctx_ids ctx'))
        (fun _ _ => False) p.

(** The labels among [acts] that [dispatch] does not know raise this. *)
Definition unknown_among (acts : list string) (e : Exn) : Prop :=
  exists act, act ∈ acts /\ known act = false /\
              e = ValueError ("Unknown activity label: " +:+ act).

(** For the examples: the builder after the trace [JointConsult] on [toy],
    which holds "pat-001", "enc-001", "dx-001" and "plan-001", and the
    context of that trace. *)
Definition consulted_builder : Process toy := toy_run default_config [["JointConsult"]].

Definition consulted_ctx : Ctx :=
  {| trace_index := 1; start_time := default_base_time;
     patient_id := "pat-001"; visit_id := "enc-001";
     diagnosis_id := Some "dx-001"; plan_id := Some "plan-001";
     medication_ids := []; test_ids := []; med_cycles := 0 |}.

(** * Proofs *)

(** ** Scanning the object collection *)

Lemma scan_app oid l1 l2 :
  scan oid (l1 ++ l2) =
  match scan oid l1 with Some o => Some o | None => scan oid l2 end.
Proof.
  induction l1 as [|o l1 IH]; simpl; [done|].
  destruct (String.eqb (obj_id o) oid); done.
Qed.

Lemma scan_update_app oid f l1 l2 :
  scan_update oid f (l1 ++ l2) =
  match scan_update oid f l1 with
  | Some l1' => Some (l1' ++ l2)
  | None => (fun l => l1 ++ l) <$> scan_update oid f l2
  end.
Proof.
  induction l1 as [|o l1 IH]; simpl.
  - destruct (scan_update oid f l2); done.
  - destruct (String.eqb (obj_id o) oid); [done|].
    rewrite IH. destruct (scan_update oid f l1); [done|].
    destruct (scan_update oid f l2); done.
Qed.

Lemma scan_None oid l : scan oid l = None <-> oid ∉ ids l.
Proof.
  induction l as [|o l IH]; simpl.
  - split; [intros _; apply not_elem_of_nil|done].
  - destruct (String.eqb (obj_id o) oid) eqn:E.
    + apply String.eqb_eq in E. subst oid. split; [done|]. intros H. destruct H. left.
    + apply String.eqb_neq in E. rewrite IH, not_elem_of_cons. split; [done|]. by intros [_ ?].
Qed.

Lemma scan_Some oid l o : scan oid l = Some o -> obj_id o = oid /\ o ∈ l.
Proof.
  induction l as [|o' l IH]; simpl; [done|].
  destruct (String.eqb (obj_id o') oid) eqn:E.
  - intros [= <-]. apply String.eqb_eq in E. split; [done|left].
  - intros H. destruct (IH H). split; [done|by right].
Qed.

Lemma scan_update_scan oid f l :
  scan_update oid f l = None <-> scan oid l = None.
Proof.
  induction l as [|o l IH]; simpl; [done|].
  destruct (String.eqb (obj_id o) oid); [done|].
  destruct (scan_update oid f l); [|done].
  split; [done|]. intros H. apply IH in H. done.
Qed.

Lemma find_obj_None oid l : find_obj oid l = None <-> oid ∉ ids l.
Proof.
  unfold find_obj. rewrite scan_None. unfold ids. rewrite map_rev.
  rewrite !list_elem_of_In, <- in_rev. done.
Qed.

Lemma find_obj_app oid l1 l2 :
  find_obj oid (l1 ++ l2) =
  match find_obj oid l2 with Some o => Some o | None => find_obj oid l1 end.
Proof. unfold find_obj. rewrite rev_app_distr. apply scan_app. Qed.

Lemma find_obj_cons oid o l :
  find_obj oid (o :: l) =
  match find_obj oid l with
  | Some x => Some x
  | None => if String.eqb (obj_id o) oid then Some o else None
  end.
Proof. apply (find_obj_app oid [o] l). Qed.

Lemma find_obj_Some oid l o : find_obj oid l = Some o -> obj_id o = oid /\ o ∈ l.
Proof.
  unfold find_obj. intros H. apply scan_Some in H as [? H]. split; [done|].
  apply list_elem_of_In. apply in_rev. by apply list_elem_of_In.
Qed.

Lemma find_obj_is_Some oid l : oid ∈ ids l -> exists o, find_obj oid l = Some o.
Proof.
  intros H. destruct (find_obj oid l) as [o|] eqn:E; [by exists o|].
  apply find_obj_None in E. done.
Qed.

Lemma scan_update_shape oid f r r' :
  scan_update oid f r = Some r' ->
  exists r1 o r2, r = r1 ++ o :: r2 /\ r' = r1 ++ f o :: r2 /\
                  obj_id o = oid /\ oid ∉ ids r1.
Proof.
  revert r'. induction r as [|x r IH]; simpl; intros r'; [done|].
  destruct (String.eqb (obj_id x) oid) eqn:E.
  - intros [= <-]. apply String.eqb_eq in E.
    exists [], x, r. repeat split; try done. apply not_elem_of_nil.
  - destruct (scan_update oid f r) as [r0|]; [|done]. intros [= <-].
    destruct (IH r0 eq_refl) as (r1 & o & r2 & -> & -> & Hid & Hn).
    exists (x :: r1), o, r2. repeat split; try done.
    simpl. apply not_elem_of_cons. apply String.eqb_neq in E. done.
Qed.

Lemma upd_obj_shape oid f l l' :
  upd_obj oid f l = Some l' ->
  exists l1 o l2, l = l1 ++ o :: l2 /\ l' = l1 ++ f o :: l2 /\
                  obj_id o = oid /\ oid ∉ ids l2.
Proof.
  unfold upd_obj. destruct (scan_update oid f (rev l)) as [r'|] eqn:E; [|done].
  simpl. intros [= <-].
  apply scan_update_shape in E as (r1 & o & r2 & Hr & -> & Hid & Hn).
  exists (rev r2), o, (rev r1). repeat split; try done.
  - rewrite <- (rev_involutive l), Hr, rev_app_distr. simpl. by rewrite <- app_assoc.
  - rewrite rev_app_distr. simpl. by rewrite <- app_assoc.
  - unfold ids in *. rewrite map_rev, list_elem_of_In, <- in_rev, <- list_elem_of_In. done.
Qed.

Lemma upd_obj_is_Some oid f l : oid ∈ ids l -> exists l', upd_obj oid f l = Some l'.
Proof.
  intros H. unfold upd_obj.
  destruct (scan_update oid f (rev l)) as [r|] eqn:E; [by eexists|].
  apply scan_update_scan in E. apply find_obj_None in E. done.
Qed.

Lemma upd_obj_app oid f old cur cur' :
  upd_obj oid f cur = Some cur' -> upd_obj oid f (old ++ cur) = Some (old ++ cur').
Proof.
  unfold upd_obj. rewrite rev_app_distr, scan_update_app.
  destruct (scan_update oid f (rev cur)) as [r|]; [|done]. simpl.
  intros [= <-]. by rewrite rev_app_distr, rev_involutive.
Qed.

Lemma find_obj_upd oid f l l' o :
  (forall x, obj_id (f x) = obj_id x) ->
  upd_obj oid f l = Some l' -> find_obj oid l = Some o ->
  find_obj oid l' = Some (f o).
Proof.
  intros Hf Hu. apply upd_obj_shape in Hu as (l1 & x & l2 & -> & -> & Hid & Hn).
  apply find_obj_None in Hn.
  rewrite !find_obj_app, !find_obj_cons, Hn, Hf, Hid, String.eqb_refl.
  by intros [= ->].
Qed.

Lemma find_obj_upd_ne oid oid' f l l' :
  (forall x, obj_id (f x) = obj_id x) ->
  upd_obj oid f l = Some l' -> oid' <> oid ->
  find_obj oid' l' = find_obj oid' l.
Proof.
  intros Hf Hu Hne. apply upd_obj_shape in Hu as (l1 & x & l2 & -> & -> & Hid & Hn).
  rewrite !find_obj_app, !find_obj_cons, Hf.
  destruct (find_obj oid' l2); [done|].
  rewrite Hid. apply String.eqb_neq in Hne. rewrite String.eqb_sym in Hne.
  by rewrite Hne.
Qed.

Lemma upd_obj_Forall2 (R : Obj -> Obj -> Prop) oid f l l' :
  (forall o, R o o) -> (forall o, obj_id o = oid -> R o (f o)) ->
  upd_obj oid f l = Some l' -> Forall2 R l l'.
Proof.
  intros Hr Hf Hu. apply upd_obj_shape in Hu as (l1 & x & l2 & -> & -> & Hid & Hn).
  apply Forall2_app; [by apply Forall_Forall2_diag, Forall_forall|].
  constructor; [by apply Hf|]. by apply Forall_Forall2_diag, Forall_forall.
Qed.

(** ** Rules of the weakest-precondition calculus *)

Section Rules.

Variable G : Generators.
Implicit Types p : Process G.

Lemma wp_ret {A} (a : A) (Q : A -> Process G -> Prop) p :
  Q a p -> wp (ret G a) Q p.
Proof. done. Qed.

Lemma wp_bind {A B} (m : M G A) (k : A -> M G B) (Q : B -> Process G -> Prop) p :
  wp m (fun a p' => wp (k a) Q p') p -> wp (bind G m k) Q p.
Proof.
  unfold wp, bind. destruct (m p) as [[a|e] p']; done.
Qed.

Lemma wp_mono {A} (m : M G A) (Q Q' : A -> Process G -> Prop) p :
  wp m Q p -> (forall a p', Q a p' -> Q' a p') -> wp m Q' p.
Proof.
  unfold wp. destruct (m p) as [[a|e] p']; [|done]. intros H HQ. by apply HQ.
Qed.

Lemma wp_elim {A} (m : M G A) (Q : A -> Process G -> Prop) p :
  wp m Q p -> exists a p', m p = (Ok a, p') /\ Q a p'.
Proof.
  unfold wp. destruct (m p) as [[a|e] p']; [|done]. intros H. by exists a, p'.
Qed.

Lemma wp_intro {A} (m : M G A) (Q : A -> Process G -> Prop) p a p' :
  m p = (Ok a, p') -> Q a p' -> wp m Q p.
Proof. unfold wp. by intros ->. Qed.

Lemma wp_get_self (Q : OCELBuilder -> Process G -> Prop) p :
  Q (self G p) p -> wp (get_self G) Q p.
Proof. done. Qed.

Lemma wp_random_choice {A} (x : A) xs (Q : A -> Process G -> Prop) p c evs objs rels :
  log_is p c evs objs rels ->
  (forall v p', log_is p' c evs objs rels -> Q v p') ->
  wp (random_choice G x xs) Q p.
Proof.
  intros Hl HQ. unfold wp, random_choice.
  destruct (randbelow G _ _) as [k r]. by apply HQ.
Qed.

Lemma wp_random_randint a b (Q : Z -> Process G -> Prop) p c evs objs rels :
  log_is p c evs objs rels ->
  (forall v p', log_is p' c evs objs rels -> Q v p') ->
  wp (random_randint G a b) Q p.
Proof.
  intros Hl HQ. unfold wp, random_randint.
  destruct (randbelow G _ _) as [k r]. by apply HQ.
Qed.

Lemma wp_random_random (Q : Q -> Process G -> Prop) p c evs objs rels :
  log_is p c evs objs rels ->
  (forall v p', log_is p' c evs objs rels -> Q v p') ->
  wp (random_random G) Q p.
Proof.
  intros Hl HQ. unfold wp, random_random.
  destruct (random_float G _) as [k r]. by apply HQ.
Qed.

Lemma wp_np_random_normal mean std (Q : Q -> Process G -> Prop) p c evs objs rels :
  log_is p c evs objs rels ->
  (forall v p', log_is p' c evs objs rels -> Q v p') ->
  wp (np_random_normal G mean std) Q p.
Proof.
  intros Hl HQ. unfold wp, np_random_normal.
  destruct (np_normal G _ _ _) as [k r]. by apply HQ.
Qed.

Lemma wp_new_event_id (Q : string -> Process G -> Prop) p c evs objs rels :
  log_is p c evs objs rels ->
  (forall v p', log_is p' c evs objs rels -> Q v p') ->
  wp (_new_event_id G) Q p.
Proof. intros Hl HQ. by apply HQ. Qed.

Lemma append_nonempty (s1 s2 : string) : s2 <> EmptyString -> (s1 ++ s2)%string <> EmptyString.
Proof. destruct s1; [done|]. simpl. discriminate. Qed.

Lemma wp_new_object_id ty (Q : string -> Process G -> Prop) p c evs objs rels :
  log_is p c evs objs rels ->
  (forall v p',
      v <> EmptyString ->
      (exists pad, v = default "obj" (_type_prefix c !! ty) +:+ "-" +:+ pad) ->
      log_is p' c evs objs rels -> Q v p') ->
  wp (_new_object_id G ty) Q p.
Proof.
  intros Hl HQ. apply HQ; [by apply append_nonempty| |done].
  destruct Hl as (<- & _). by eexists.
Qed.

Lemma wp_append_event e (Q : unit -> Process G -> Prop) p c evs objs rels :
  log_is p c evs objs rels ->
  (forall p', log_is p' c (evs ++ [e]) objs rels -> Q tt p') ->
  wp (append_event G e) Q p.
Proof.
  intros (<- & <- & <- & <-) HQ. by apply HQ.
Qed.

Lemma wp_append_object o (Q : unit -> Process G -> Prop) p c evs objs rels :
  log_is p c evs objs rels ->
  (forall p', log_is p' c evs (objs ++ [o]) rels -> Q tt p') ->
  wp (append_object G o) Q p.
Proof.
  intros (<- & <- & <- & <-) HQ. by apply HQ.
Qed.

Lemma get_obj_attr_eq oid name p :
  _get_obj_attr G oid name p =
  (Ok (match find_obj oid (objects (self G p)) with
       | Some o => current_value o name
       | None => VNone
       end), p).
Proof.
  unfold _get_obj_attr, bind, get_self, find_obj. simpl.
  destruct (scan oid (rev (objects (self G p)))); done.
Qed.

Lemma wp_get_obj_attr oid name (Q : Value -> Process G -> Prop) p :
  (forall v, Q v p) -> wp (_get_obj_attr G oid name) Q p.
Proof. intros HQ. unfold wp. rewrite get_obj_attr_eq. apply HQ. Qed.

Lemma wp_append_attr oid name time value (Q : unit -> Process G -> Prop)
      p c evs old cur rels :
  log_is p c evs (old ++ cur) rels ->
  oid ∈ ids cur ->
  (forall p' cur',
      upd_obj oid (add_attribute (attr name time value)) cur = Some cur' ->
      log_is p' c evs (old ++ cur') rels -> Q tt p') ->
  wp (_append_attr G oid name time value) Q p.
Proof.
  intros (<- & <- & Ho & <-) Hin HQ.
  destruct (upd_obj_is_Some oid (add_attribute (attr name time value)) cur Hin)
    as [cur' Hu].
  pose proof (upd_obj_app _ _ old _ _ Hu) as Hu'. rewrite <- Ho in Hu'.
  unfold upd_obj in Hu'. unfold wp, _append_attr, bind, get_self. simpl.
  fold (attr name time value).
  destruct (scan_update oid _ (rev (objects (self G p)))) as [l|]; [|done].
  simpl in Hu'. injection Hu' as Hl. apply (HQ _ cur' Hu).
  unfold update_self, log_is. simpl. by rewrite Hl.
Qed.

End Rules.

(** ** Objects that only gain attribute entries *)

Lemma ids_app l1 l2 : ids (l1 ++ l2) = ids l1 ++ ids l2.
Proof. apply map_app. Qed.

Lemma of_type_app ty l1 l2 : of_type ty (l1 ++ l2) = of_type ty l1 ++ of_type ty l2.
Proof. apply List.filter_app. Qed.

Lemma touched_refl tau o : touched tau o o.
Proof.
  repeat split. exists []. split; [by rewrite app_nil_r|constructor].
Qed.

Lemma touched_add tau name v o :
  future_name name = false -> touched tau o (add_attribute (attr name tau v) o).
Proof.
  intros H. repeat split. exists [attr name tau v]. split; [done|].
  by repeat constructor.
Qed.

Lemma touched_trans tau o1 o2 o3 :
  touched tau o1 o2 -> touched tau o2 o3 -> touched tau o1 o3.
Proof.
  intros (Hi1 & Ht1 & ex1 & He1 & Hf1) (Hi2 & Ht2 & ex2 & He2 & Hf2).
  split; [congruence|]. split; [congruence|].
  exists (ex1 ++ ex2). split; [by rewrite He2, He1, app_assoc|].
  by apply Forall_app.
Qed.

Lemma touched_all_refl tau l : Forall2 (touched tau) l l.
Proof. apply Forall_Forall2_diag, Forall_forall. intros. apply touched_refl. Qed.

Lemma touched_all_trans tau l1 l2 l3 :
  Forall2 (touched tau) l1 l2 -> Forall2 (touched tau) l2 l3 ->
  Forall2 (touched tau) l1 l3.
Proof.
  intros H. revert l3. induction H; intros l3 H3; inversion H3; subst; constructor.
  - by eapply touched_trans.
  - by apply IHForall2.
Qed.

Lemma touched_ids tau l l' : Forall2 (touched tau) l l' -> ids l' = ids l.
Proof.
  induction 1 as [|o o' l l' (Hi & _) _ IH]; simpl; [done|]. by rewrite Hi, IH.
Qed.

Lemma touched_of_type tau ty l l' :
  Forall2 (touched tau) l l' -> ids (of_type ty l') = ids (of_type ty l).
Proof.
  induction 1 as [|o o' l l' (Hi & Ht & _) _ IH]; simpl; [done|].
  rewrite Ht. destruct (String.eqb (obj_type o) ty); simpl; by rewrite ?Hi, IH.
Qed.

Lemma touched_upd tau oid name v l l' :
  future_name name = false ->
  upd_obj oid (add_attribute (attr name tau v)) l = Some l' ->
  Forall2 (touched tau) l l'.
Proof.
  intros Hn. apply upd_obj_Forall2.
  - apply touched_refl.
  - intros o _. by apply touched_add.
Qed.

Lemma stamps_app name l1 l2 : stamps name (l1 ++ l2) = stamps name l1 ++ stamps name l2.
Proof. unfold stamps. by rewrite List.filter_app, map_app. Qed.

Lemma stamped_mono tau tau' l : tau <= tau' -> stamped tau l -> stamped tau' l.
Proof.
  intros Hle Hs. eapply Forall_impl; [exact Hs|].
  simpl. intros a H Hn. specialize (H Hn). lia.
Qed.

Lemma stamped_stamps tau name l :
  future_name name = false -> stamped tau l -> Forall (fun z => z <= tau) (stamps name l).
Proof.
  intros Hn. unfold stamped, stamps. induction 1 as [|a l Ha _ IH]; simpl; [constructor|].
  destruct (String.eqb (at_name a) name) eqn:E; [|done].
  apply String.eqb_eq in E. subst name. simpl. constructor; auto.
Qed.

Lemma constant_sorted tau (l : list Z) :
  Forall (fun z => z = tau) l -> StronglySorted Z.le l.
Proof.
  induction 1 as [|z l -> Hl IH]; constructor; [done|].
  eapply Forall_impl; [exact Hl|]. simpl. lia.
Qed.

Lemma sorted_app_bound tau (l1 l2 : list Z) :
  StronglySorted Z.le l1 -> Forall (fun z => z <= tau) l1 ->
  Forall (fun z => z = tau) l2 -> StronglySorted Z.le (l1 ++ l2).
Proof.
  intros Hs Hb H2. induction Hs as [|z l1 Hs IH Hz]; simpl.
  - by eapply constant_sorted.
  - inversion Hb; subst. constructor; [by apply IH|].
    apply Forall_app. split; [done|]. eapply Forall_impl; [exact H2|]. simpl. lia.
Qed.

Lemma touched_sorted tau o o' :
  touched tau o o' ->
  name_sorted (obj_attributes o) -> stamped tau (obj_attributes o) ->
  name_sorted (obj_attributes o') /\ stamped tau (obj_attributes o').
Proof.
  intros (_ & _ & ex & -> & Hex) Hs Hst. split.
  - intros name. rewrite stamps_app.
    destruct (future_name name) eqn:Hn.
    + assert (stamps name ex = []) as ->; [|by rewrite app_nil_r].
      unfold stamps. induction Hex as [|a ex [_ Ha] _ IH]; simpl; [done|].
      destruct (String.eqb (at_name a) name) eqn:E; [|done].
      apply String.eqb_eq in E. congruence.
    + apply (sorted_app_bound tau); [done|by apply stamped_stamps|].
      unfold stamps. induction Hex as [|a ex [Ha _] _ IH]; simpl; [constructor|].
      destruct (String.eqb (at_name a) name); [constructor|]; done.
  - apply Forall_app. split; [done|].
    eapply Forall_impl; [exact Hex|]. simpl. intros a [-> _] _. lia.
Qed.

(** ** Creators *)

Lemma iso_mono t t' : t <= t' -> iso t <= iso t'.
Proof. intros H. unfold iso. by apply Z.div_le_mono. Qed.

Lemma stamps_sorted l : StronglySorted Z.le (map at_time l) -> name_sorted l.
Proof.
  intros H name. unfold stamps.
  induction l as [|a l IH]; simpl in *; [constructor|].
  inversion H as [|? ? Hs Hall]; subst.
  destruct (String.eqb (at_name a) name); simpl; [|by apply IH].
  constructor; [by apply IH|].
  clear -Hall. induction l as [|b l IH]; simpl; [constructor|].
  inversion Hall; subst.
  destruct (String.eqb (at_name b) name); simpl; [constructor|]; auto.
Qed.

Lemma wp_append_object' G o (Q : unit -> Process G -> Prop) p c evs old cur rels :
  log_is p c evs (old ++ cur) rels ->
  (forall p', log_is p' c evs (old ++ cur ++ [o]) rels -> Q tt p') ->
  wp (append_object G o) Q p.
Proof.
  intros Hl HQ. eapply wp_append_object; [exact Hl|]. intros p'.
  rewrite <- app_assoc. apply HQ.
Qed.

Ltac solve_created :=
  split; [done|]; split;
  [ apply stamps_sorted; simpl;
    repeat (constructor; [|repeat (constructor; try first [lia | apply iso_mono; unfold minutes; lia])]);
    constructor
  | repeat (constructor; [simpl; intros; first [lia|discriminate]|]); constructor ].

Ltac wp_prim lem :=
  match goal with
  | H : log_is _ _ _ _ _ |- _ => eapply lem; [exact H | clear H; intros]
  end.

Ltac wp_step :=
  cbv beta iota;
  lazymatch goal with
  | |- wp (bind _ _ _) _ _ => apply wp_bind
  | |- wp (ret _ _) _ _ => apply wp_ret
  | |- wp (get_self _) _ _ => apply wp_get_self
  | |- wp (_get_obj_attr _ _ _) _ _ => apply wp_get_obj_attr; intros
  | |- wp (random_choice _ _ _) _ _ => wp_prim wp_random_choice
  | |- wp (random_randint _ _ _) _ _ => wp_prim wp_random_randint
  | |- wp (random_random _) _ _ => wp_prim wp_random_random
  | |- wp (np_random_normal _ _ _) _ _ => wp_prim wp_np_random_normal
  | |- wp (_new_event_id _) _ _ => wp_prim wp_new_event_id
  | |- wp (_new_object_id _ _) _ _ => wp_prim wp_new_object_id
  | |- wp (append_event _ _) _ _ => wp_prim wp_append_event
  | |- wp (append_object _ _) _ _ => wp_prim wp_append_object'
  end.

Section Creators.

Variable G : Generators.
Implicit Types p : Process G.

Ltac solve_shaped :=
  first
    [ left; split; reflexivity
    | right; left; split; reflexivity
    | right; right; split;
      [ apply (bool_decide_unpack _); reflexivity | simpl; assumption ] ].

Ltac creator_proof HQ :=
  repeat wp_step;
  match goal with
  | H : log_is _ _ _ (_ ++ _ ++ [?o]) _ |- _ =>
      apply (HQ o); [done|solve_created|solve_shaped|done]
  end.

Lemma create_patient_spec i t ctx : creates (_create_patient G i t) "Patient" t ctx.
Proof. intros Q p c evs old cur rels Hl HQ. unfold _create_patient. creator_proof HQ. Qed.

Lemma create_visit_spec i t ctx : creates (_create_visit G i t) "Encounter" t ctx.
Proof. intros Q p c evs old cur rels Hl HQ. unfold _create_visit. creator_proof HQ. Qed.

Lemma create_test_spec ctx t modality :
  creates (_create_test G ctx t modality) "Test" t ctx.
Proof. intros Q p c evs old cur rels Hl HQ. unfold _create_test. creator_proof HQ. Qed.

Lemma create_diagnosis_spec ctx t :
  creates (_create_diagnosis G ctx t) "Diagnosis" t ctx.
Proof. intros Q p c evs old cur rels Hl HQ. unfold _create_diagnosis. creator_proof HQ. Qed.

Lemma create_plan_spec ctx t dx :
  creates (_create_plan G ctx t dx) "TreatmentPlan" t ctx.
Proof. intros Q p c evs old cur rels Hl HQ. unfold _create_plan. creator_proof HQ. Qed.

Lemma create_medication_spec ctx t plan :
  creates (_create_medication G ctx t plan) "Dose" t ctx.
Proof. intros Q p c evs old cur rels Hl HQ. unfold _create_medication. creator_proof HQ. Qed.

End Creators.

(** ** Keeping track of a trace's objects *)

Lemma grown_refl S t cur : grown S t cur cur [].
Proof.
  exists cur, []. rewrite app_nil_r.
  split; [done|]. split; [apply touched_all_refl|]. by repeat split.
Qed.

Lemma grown_append (S : Obj -> Prop) t cur X tys o :
  grown S t cur X tys -> created t o -> S o ->
  grown S t cur (X ++ [o]) (tys ++ [obj_type o]).
Proof.
  intros (cur1 & news & -> & H1 & H2 & <- & H3) Ho Hs.
  exists cur1, (news ++ [o]). rewrite app_assoc, map_app.
  split; [done|]. split; [done|].
  split; [apply Forall_app; split; [done|by constructor]|].
  split; [done|]. apply Forall_app. split; [done|by constructor].
Qed.

Lemma shaped_touched tau c ctx o o' : touched tau o o' -> shaped c ctx o -> shaped c ctx o'.
Proof. intros (Hi & Ht & _). unfold shaped. by rewrite Hi, Ht. Qed.

Lemma created_touched t o o' : created t o -> touched (iso t) o o' -> created t o'.
Proof.
  intros (Hi & Hs & Hst) Ht. pose proof (touched_sorted _ _ _ Ht Hs Hst) as [? ?].
  destruct Ht as (Hi' & _). split; [congruence|done].
Qed.

Lemma grown_touch c ctx t cur X X' tys :
  Forall2 (touched (iso t)) X X' ->
  grown (shaped c ctx) t cur X tys -> grown (shaped c ctx) t cur X' tys.
Proof.
  intros HX (cur1 & news & -> & H1 & H2 & <- & H3).
  apply Forall2_app_inv_l in HX as (cur1' & news' & Hc & Hn & ->).
  exists cur1', news'. split; [done|]. split; [by eapply touched_all_trans|].
  split; [|split].
  - clear -H2 Hn. induction Hn; inversion H2; subst; constructor; eauto using created_touched.
  - clear -Hn. induction Hn as [|o o' l l' (_ & Ht & _) _ IH]; simpl; [done|]. by rewrite Ht, IH.
  - clear -H3 Hn. induction Hn; inversion H3; subst; constructor; eauto using shaped_touched.
Qed.

Lemma ids_of_type_subseteq ty l i : i ∈ ids (of_type ty l) -> i ∈ ids l.
Proof.
  unfold ids, of_type. rewrite !list_elem_of_fmap.
  intros (o & -> & Ho). exists o. split; [done|].
  apply list_elem_of_In in Ho. apply List.filter_In in Ho as [Ho _].
  by apply list_elem_of_In.
Qed.

Lemma tracks_visit_in ctx X : ctx_tracks ctx X -> visit_id ctx ∈ ids X.
Proof.
  intros H. apply (ids_of_type_subseteq "Encounter"). rewrite (tracks_visit _ _ H). left.
Qed.

Lemma tracks_patient_in ctx X : ctx_tracks ctx X -> patient_id ctx ∈ ids X.
Proof.
  intros H. apply (ids_of_type_subseteq "Patient"). rewrite (tracks_patient _ _ H). left.
Qed.

Lemma tracks_test_in ctx X i : ctx_tracks ctx X -> i ∈ test_ids ctx -> i ∈ ids X.
Proof.
  intros H Hi. apply (ids_of_type_subseteq "Test"). by rewrite (tracks_tests _ _ H).
Qed.

Lemma tracks_plan_in ctx X pl : ctx_tracks ctx X -> plan_id ctx = Some pl -> pl ∈ ids X.
Proof.
  intros H Hp. apply (ids_of_type_subseteq "TreatmentPlan").
  rewrite (tracks_plan _ _ H), Hp. left.
Qed.

Lemma tracks_touch tau ctx X X' :
  Forall2 (touched tau) X X' -> ctx_tracks ctx X -> ctx_tracks ctx X'.
Proof.
  intros HX [H1 H2 H3 H4 H5 H6 H7 H8].
  split; rewrite ?(touched_of_type _ _ _ _ HX), ?(touched_ids _ _ _ HX); done.
Qed.

Lemma tracks_add ctx ctx' X o :
  ctx_tracks ctx X -> obj_id o <> EmptyString ->
  patient_id ctx' = patient_id ctx -> visit_id ctx' = visit_id ctx ->
  ids (of_type "Patient" [o]) = [] -> ids (of_type "Encounter" [o]) = [] ->
  test_ids ctx' = test_ids ctx ++ ids (of_type "Test" [o]) ->
  medication_ids ctx' = medication_ids ctx ++ ids (of_type "Dose" [o]) ->
  option_list (diagnosis_id ctx') =
    option_list (diagnosis_id ctx) ++ ids (of_type "Diagnosis" [o]) ->
  option_list (plan_id ctx') =
    option_list (plan_id ctx) ++ ids (of_type "TreatmentPlan" [o]) ->
  (medication_ids ctx' <> [] -> plan_id ctx' <> None) ->
  ctx_tracks ctx' (X ++ [o]).
Proof.
  intros [H1 H2 H3 H4 H5 H6 H7 H8] Ho E1 E2 E3 E4 E5 E6 E7 E8 E9.
  split; rewrite ?of_type_app, ?ids_app, ?E1, ?E2, ?E3, ?E4, ?E5, ?E6, ?E7, ?E8,
           ?app_nil_r; try congruence.
  - apply Forall_app. split; [done|]. by repeat constructor.
  - by rewrite <- E6.
Qed.

(** ** The handlers *)

Lemma current_value_add name tau v o :
  current_value (add_attribute (attr name tau v) o) name = v.
Proof.
  unfold current_value, add_attribute. simpl.
  rewrite List.filter_app. simpl. rewrite String.eqb_refl. by rewrite last_snoc.
Qed.

Ltac wp_touch :=
  cbv beta;
  lazymatch goal with
  | |- wp (_append_attr _ ?oid _ _ _) _ _ =>
      match goal with
      | Hl : log_is _ _ _ (_ ++ ?X) _, Htr : ctx_tracks _ ?X, Hg : grown _ _ _ ?X _ |- _ =>
          eapply wp_append_attr;
          [ exact Hl
          | first [ exact (tracks_visit_in _ _ Htr)
                  | eapply tracks_plan_in;
                    [exact Htr | simpl; first [eassumption | reflexivity]] ]
          | let Hu := fresh "Hu" in
            clear Hl; intros ? ? Hu Hl;
            apply touched_upd in Hu; [|reflexivity];
            apply (tracks_touch _ _ _ _ Hu) in Htr;
            apply (grown_touch _ _ _ _ _ _ _ Hu) in Hg; clear Hu ]
      end
  end.

Ltac wp_create lem :=
  match goal with
  | Hl : log_is _ _ _ (_ ++ ?X) _, Hg : grown _ _ _ ?X _ |- _ =>
      eapply lem;
      [ exact Hl
      | let o := fresh "o" in let Hty := fresh "Hty" in let Hcr := fresh "Hcr" in
        let Hsh := fresh "Hsh" in
        clear Hl; intros o ? Hty Hcr Hsh Hl;
        apply (fun H => grown_append _ _ _ _ _ o H Hcr Hsh) in Hg; rewrite Hty in Hg ]
  end.

Ltac wp_all :=
  repeat first
    [ wp_step | wp_touch
    | lazymatch goal with
      | |- wp (_create_test _ _ _ _) _ _ => wp_create create_test_spec
      | |- wp (_create_diagnosis _ _ _) _ _ => wp_create create_diagnosis_spec
      | |- wp (_create_plan _ _ _ _) _ _ => wp_create create_plan_spec
      | |- wp (_create_medication _ _ _ _) _ _ => wp_create create_medication_spec
      end ].

Section Handlers.

Variable G : Generators.
Implicit Types p : Process G.

Lemma handled_intro old t a ctx cur p ctx' X p' e :
  log_is p' (cfg (self G p)) (events (self G p) ++ [e]) (old ++ X)
         (object_relationships (self G p)) ->
  grown (shaped (cfg (self G p)) ctx) t cur X (created_types a ctx) ->
  ctx_tracks ctx' X ->
  ev_time e = iso t -> ev_type e = emitted_type a ->
  ev_relationships e = expected_relationships a ctx ctx' ->
  trace_index ctx' = trace_index ctx -> start_time ctx' = start_time ctx ->
  patient_id ctx' = patient_id ctx -> visit_id ctx' = visit_id ctx ->
  (a = FollowUpVisit -> Forall (reviewed (old ++ X)) (test_ids ctx)) ->
  (a = FollowUpVisit -> NoDup (ids cur) -> X = map (review (iso t) (test_ids ctx)) cur) ->
  handled old t a ctx cur p ctx' X p'.
Proof.
  intros (Hc & He & Ho & Hr) Hg Htr. intros.
  split; try done. by exists e.
Qed.

Ltac start :=
  intros old cur ctx t p Hobj Htr;
  assert (Hl : log_is p (cfg (self G p)) (events (self G p)) (old ++ cur)
                      (object_relationships (self G p))) by done;
  pose proof (grown_refl (shaped (cfg (self G p)) ctx) t cur) as Hg;
  clear Hobj; simpl.

Ltac finish :=
  match goal with
  | Hl : log_is _ _ _ (_ ++ ?X) _ |- _ =>
      exists X; eapply handled_intro; [exact Hl| | | | | | | | | | |]; try done
  end.

Lemma registration_ok : handler_ok G OutpatientRegistration.
Proof. start. unfold _emit_event_registration. wp_all. finish. Qed.

Lemma initial_consult_ok : handler_ok G InitialVisit.
Proof. start. unfold _emit_event_initial_consult. wp_all. finish. Qed.

Lemma discharge_ok : handler_ok G Discharge.
Proof.
  start. unfold _emit_event_discharge, _append_obj_attrs. simpl. wp_all. finish.
Qed.

Lemma payment_ok : handler_ok G Payment.
Proof.
  start. unfold _emit_event_payment, _append_obj_attrs. simpl. wp_all. finish.
Qed.

Ltac track_new o ctx' :=
  match goal with
  | Htr : ctx_tracks _ ?X, Hty : obj_type o = _, Hcr : created _ o |- _ =>
      let Hdp := fresh "Hdp" in
      pose proof (tracks_dose_plan _ _ Htr) as Hdp;
      apply (tracks_add _ ctx' X o) in Htr;
      [ | by destruct Hcr | .. ];
      try (unfold of_type, ids; simpl; rewrite ?Hty; simpl; rewrite ?app_nil_r);
      try done
  end.

Lemma imaging_ok : handler_ok G ImagingTest.
Proof.
  start. unfold _emit_event_imaging. wp_all.
  track_new o (with_test_ids (test_ids ctx ++ [obj_id o]) ctx).
  finish. simpl. by rewrite drop_app_length.
Qed.

Lemma lab_ok : handler_ok G LabTest.
Proof.
  start. unfold _emit_event_lab. wp_all.
  track_new o (with_test_ids (test_ids ctx ++ [obj_id o]) ctx).
  finish. simpl. by rewrite drop_app_length.
Qed.

Ltac finish_with Ed Ep :=
  finish; unfold created_types, expected_relationships; simpl;
  rewrite ?Ed, ?Ep; simpl; rewrite ?drop_app_length; try done.

Lemma mdt_ok : handler_ok G JointConsult.
Proof.
  start. unfold _emit_event_mdt, ensure_diagnosis, ensure_plan.
  destruct (diagnosis_id ctx) as [d|] eqn:Ed.
  - wp_all. destruct (plan_id ctx) as [pl|] eqn:Ep; wp_all.
    + finish_with Ed Ep.
    + track_new o (with_plan_id (obj_id o) ctx); rewrite ?Ep, ?Ed; try done.
      finish_with Ed Ep.
  - wp_all. simpl.
    track_new o (with_diagnosis_id (obj_id o) ctx); rewrite ?Ed; try done.
    destruct (plan_id ctx) as [pl|] eqn:Ep; wp_all.
    + finish_with Ed Ep.
    + track_new o0 (with_plan_id (obj_id o0) (with_diagnosis_id (obj_id o) ctx));
        simpl; rewrite ?Ep, ?Ed; try done.
      finish_with Ed Ep.
Qed.

Lemma medication_ok : handler_ok G MedicationTreatment.
Proof.
  start. unfold _emit_event_medication, ensure_diagnosis, ensure_plan.
  destruct (diagnosis_id ctx) as [d|] eqn:Ed.
  - wp_all. destruct (plan_id ctx) as [pl|] eqn:Ep; wp_all.
    + track_new o (with_medication (medication_ids ctx ++ [obj_id o])
                                   (S (med_cycles ctx)) ctx);
        rewrite ?Ep, ?Ed; try done.
      wp_all. finish_with Ed Ep.
    + track_new o (with_plan_id (obj_id o) ctx); rewrite ?Ep, ?Ed; try done.
      wp_all. simpl.
      track_new o0 (with_medication (medication_ids ctx ++ [obj_id o0])
                                    (S (med_cycles ctx)) (with_plan_id (obj_id o) ctx));
        rewrite ?Ep, ?Ed; try done.
      wp_all. finish_with Ed Ep.
  - wp_all. simpl.
    track_new o (with_diagnosis_id (obj_id o) ctx); rewrite ?Ed; try done.
    destruct (plan_id ctx) as [pl|] eqn:Ep; wp_all.
    + track_new o0 (with_medication (medication_ids ctx ++ [obj_id o0])
                                    (S (med_cycles ctx))
                                    (with_diagnosis_id (obj_id o) ctx));
        simpl; rewrite ?Ep, ?Ed; try done.
      wp_all. finish_with Ed Ep.
    + track_new o0 (with_plan_id (obj_id o0) (with_diagnosis_id (obj_id o) ctx));
        simpl; rewrite ?Ep, ?Ed; try done.
      wp_all. simpl.
      track_new o1 (with_medication (medication_ids ctx ++ [obj_id o1])
                                    (S (med_cycles ctx))
                                    (with_plan_id (obj_id o0)
                                       (with_diagnosis_id (obj_id o) ctx)));
        simpl; rewrite ?Ep, ?Ed; try done.
      wp_all. finish_with Ed Ep.
Qed.

Lemma reviewed_upd objs objs' i j tau :
  upd_obj j (add_attribute (attr "result_state" tau (VStr "Reviewed"))) objs = Some objs' ->
  (i = j \/ reviewed objs i) -> reviewed objs' i.
Proof.
  intros Hu Hi. destruct (decide (i = j)) as [->|Hne].
  - destruct (find_obj j objs) as [o|] eqn:Ef.
    + exists (add_attribute (attr "result_state" tau (VStr "Reviewed")) o). split.
      * eapply find_obj_upd; [|exact Hu|exact Ef]. done.
      * apply current_value_add.
    + apply upd_obj_shape in Hu as (l1 & x & l2 & -> & _ & Hid & _).
      apply find_obj_None in Ef. destruct Ef. rewrite ids_app. simpl.
      apply elem_of_app. right. rewrite Hid. left.
  - destruct Hi as [?|(o & Hf & Hv)]; [done|].
    exists o. split; [|done]. rewrite <- Hf.
    eapply find_obj_upd_ne; [|exact Hu|exact Hne]. done.
Qed.

Lemma map_unchanged (g : Obj -> Obj) l : (forall o, o ∈ l -> g o = o) -> map g l = l.
Proof.
  induction l as [|o l IH]; intros H; simpl; [done|].
  rewrite (H o) by left. rewrite IH; [done|]. intros o' Ho'. apply H. by right.
Qed.

(** With unique identifiers the scan changes the one object that has the
    identifier. *)
Lemma upd_obj_unique oid f l l' :
  NoDup (ids l) -> upd_obj oid f l = Some l' ->
  l' = map (fun o => if bool_decide (obj_id o = oid) then f o else o) l.
Proof.
  intros Hnd Hu. apply upd_obj_shape in Hu as (l1 & x & l2 & -> & -> & Hid & Hn2).
  rewrite ids_app in Hnd. simpl in Hnd.
  apply NoDup_app in Hnd as (_ & Hn1 & Hnd). apply NoDup_cons in Hnd as [_ _].
  rewrite map_app. simpl. rewrite bool_decide_true by done.
  rewrite !map_unchanged; [done| |].
  - intros o Ho. rewrite bool_decide_false; [done|]. intros Heq. apply Hn2.
    rewrite <- Heq. unfold ids. apply list_elem_of_fmap. by exists o.
  - intros o Ho. rewrite bool_decide_false; [done|]. intros Heq.
    apply (Hn1 oid); [|rewrite <- Hid; left].
    rewrite <- Heq. unfold ids. apply list_elem_of_fmap. by exists o.
Qed.

Lemma NoDup_ids_of_type ty l : NoDup (ids l) -> NoDup (ids (of_type ty l)).
Proof.
  induction l as [|o l IH]; simpl; [done|]. intros Hnd.
  apply NoDup_cons in Hnd as [Hn Hnd].
  destruct (String.eqb (obj_type o) ty); simpl; [|by apply IH].
  apply NoDup_cons. split; [|by apply IH].
  intros Hin. apply Hn. by eapply ids_of_type_subseteq.
Qed.

Lemma wp_review_all tau tids : forall (Q : unit -> Process G -> Prop) p c evs old X rels seen,
  log_is p c evs (old ++ X) rels ->
  Forall (fun i => i ∈ ids X) tids ->
  Forall (reviewed (old ++ X)) seen ->
  (forall p' X', log_is p' c evs (old ++ X') rels ->
                 Forall2 (touched tau) X X' ->
                 Forall (reviewed (old ++ X')) (seen ++ tids) ->
                 (NoDup (ids X) -> NoDup tids -> X' = map (review tau tids) X) ->
                 Q tt p') ->
  wp (for_each G (fun i => _append_attr G i "result_state" tau (VStr "Reviewed")) tids) Q p.
Proof.
  induction tids as [|i tids IH]; intros Q p c evs old X rels seen Hl Hin Hseen HQ; simpl.
  - apply wp_ret. apply (HQ p X); [done|apply touched_all_refl|by rewrite app_nil_r|].
    intros _ _. symmetry. apply map_unchanged. intros o _. unfold review.
    rewrite bool_decide_false; [done|apply not_elem_of_nil].
  - inversion Hin as [|? ? Hi Hin']; subst.
    apply wp_bind. eapply wp_append_attr; [exact Hl|exact Hi|].
    intros p1 X1 Hu Hl1.
    assert (Forall2 (touched tau) X X1) as Ht by (by eapply touched_upd; [|exact Hu]).
    pose proof (upd_obj_app _ _ old _ _ Hu) as Hu'.
    apply (IH _ _ _ _ _ _ _ (seen ++ [i]) Hl1).
    + rewrite (touched_ids _ _ _ Ht). done.
    + apply Forall_app. split.
      * eapply Forall_impl; [exact Hseen|]. intros j Hj. eapply reviewed_upd; eauto.
      * repeat constructor. eapply reviewed_upd; eauto.
    + intros p' X' Hl' Ht' Hr Huniq.
      apply (HQ p' X'); [done| |by rewrite <- app_assoc in Hr|].
      { by eapply touched_all_trans. }
      intros HndX Hnd. apply NoDup_cons in Hnd as [Hni Hnd].
      rewrite Huniq; [|by rewrite (touched_ids _ _ _ Ht)|done].
      rewrite (upd_obj_unique _ _ _ _ HndX Hu), map_map.
      apply map_ext. intros o. unfold review.
      destruct (decide (obj_id o = i)) as [Heq|Hne].
      * rewrite (bool_decide_true (obj_id o = i)) by done. simpl.
        rewrite bool_decide_false by (by rewrite Heq).
        rewrite bool_decide_true; [done|]. rewrite Heq. left.
      * rewrite (bool_decide_false (obj_id o = i)) by done.
        destruct (decide (obj_id o ∈ tids)) as [Hin2|Hnin].
        -- rewrite !bool_decide_true; [done|by right|done].
        -- rewrite !bool_decide_false; [done| |done].
           intros H. apply elem_of_cons in H as [?|?]; done.
Qed.

Lemma followup_ok : handler_ok G FollowUpVisit.
Proof.
  start. unfold _emit_event_followup. apply wp_bind.
  eapply (wp_review_all _ _ _ _ _ _ _ _ _ []); [exact Hl| |constructor|].
  - apply Forall_forall. intros i Hi. by eapply tracks_test_in.
  - clear Hl. intros p' X' Hl Ht Hr Huniq.
    pose proof (tracks_tests _ _ Htr) as Htests.
    apply (tracks_touch _ _ _ _ Ht) in Htr. apply (grown_touch _ _ _ _ _ _ _ Ht) in Hg.
    wp_all. finish. intros _ Hnd. apply Huniq; [done|].
    rewrite <- Htests. by apply NoDup_ids_of_type.
Qed.

Lemma handler_spec a : handler_ok G a.
Proof.
  destruct a; auto using registration_ok, initial_consult_ok, imaging_ok, lab_ok,
    followup_ok, mdt_ok, medication_ok, payment_ok, discharge_ok.
Qed.

End Handlers.

(** ** Dispatch and replay *)

Section Replay.

Variable G : Generators.
Implicit Types p : Process G.

Lemma dispatch_label a ctx t : dispatch G ctx t (label a) = handler G a ctx t.
Proof. by destruct a. Qed.

Lemma known_label act : known act = true -> exists a, act = label a.
Proof.
  unfold known. intros H. apply bool_decide_eq_true in H.
  unfold vocabulary in H. repeat (apply elem_of_cons in H as [->|H]).
  - by exists OutpatientRegistration.
  - by exists InitialVisit.
  - by exists ImagingTest.
  - by exists LabTest.
  - by exists FollowUpVisit.
  - by exists JointConsult.
  - by exists MedicationTreatment.
  - by exists Payment.
  - by exists Discharge.
  - by apply elem_of_nil in H.
Qed.

Lemma label_known a : known (label a) = true.
Proof. by destruct a. Qed.

Lemma all_known acts :
  Forall (fun act => known act = true) acts -> exists l, acts = map label l.
Proof.
  induction 1 as [|act acts Ha _ [l ->]]; [by exists []|].
  apply known_label in Ha as [a ->]. by exists (a :: l).
Qed.

Lemma dispatch_unknown act ctx t p :
  known act = false ->
  dispatch G ctx t act p = (Raise (ValueError ("Unknown activity label: " +:+ act)), p).
Proof.
  unfold known. intros H. apply bool_decide_eq_false in H.
  unfold dispatch.
  repeat match goal with
  | |- context [String.eqb act ?s] =>
      destruct (String.eqb_spec act s) as [->|_];
      [destruct H; unfold vocabulary; set_solver|]
  end.
  done.
Qed.

Lemma replay_app l1 : forall l2 ctx t step p,
  replay G ctx t step (l1 ++ l2) p =
  bind G (replay G ctx t step l1)
       (fun ctx' => replay G ctx' (t + Z.of_nat (length l1) * step) step l2) p.
Proof.
  induction l1 as [|a l1 IH]; intros l2 ctx t step p; simpl.
  - unfold bind, ret. replace (t + Z.of_nat 0 * step) with t by lia. reflexivity.
  - unfold bind. destruct (dispatch G ctx t a p) as [[ctx1|e] p1]; [|done].
    rewrite IH. unfold bind.
    destruct (replay G ctx1 (t + step) step l1 p1) as [[ctx2|e] p2]; [|done].
    f_equal. lia.
Qed.

Lemma replay_steps acts : forall old step t ctx cur p,
  objects (self G p) = old ++ cur -> ctx_tracks ctx cur ->
  wp (replay G ctx t step (map label acts))
     (fun ctx' p' => exists cur', steps old step t ctx cur p acts ctx' cur' p') p.
Proof.
  induction acts as [|a acts IH]; intros old step t ctx cur p Hobj Htr; simpl.
  - apply wp_ret. exists cur. constructor.
  - apply wp_bind. rewrite dispatch_label.
    eapply wp_mono; [by apply handler_spec|].
    intros ctx1 p1 [cur1 H1]. simpl.
    eapply wp_mono; [apply (IH old step (t + step) ctx1 cur1 p1)|].
    + apply (h_objects _ _ _ _ _ _ _ _ _ H1).
    + apply (h_tracks _ _ _ _ _ _ _ _ _ H1).
    + intros ctx2 p2 [cur2 H2]. exists cur2. by econstructor.
Qed.

End Replay.

(** ** One trace *)

Section Trace.

Variable G : Generators.
Implicit Types p : Process G.

Lemma init_spec i p :
  wp (_init_trace_objects G i (trace_start (self G p) i))
     (fun ctx p' => exists cur, opened i p ctx cur p') p.
Proof.
  set (t := trace_start (self G p) i).
  assert (Hl : log_is p (cfg (self G p)) (events (self G p)) (objects (self G p) ++ [])
                      (object_relationships (self G p))).
  { unfold log_is. by rewrite app_nil_r. }
  unfold _init_trace_objects. apply wp_bind.
  eapply (create_patient_spec G i t
            {| trace_index := i; start_time := t; patient_id := EmptyString;
               visit_id := EmptyString; diagnosis_id := None; plan_id := None;
               medication_ids := []; test_ids := []; med_cycles := 0 |}); [exact Hl|].
  clear Hl. intros o1 p1 Hty1 Hcr1 Hsh1 Hl.
  apply wp_bind.
  eapply (create_visit_spec G i t
            {| trace_index := i; start_time := t; patient_id := EmptyString;
               visit_id := EmptyString; diagnosis_id := None; plan_id := None;
               medication_ids := []; test_ids := []; med_cycles := 0 |}); [exact Hl|].
  clear Hl. intros o2 p2 Hty2 Hcr2 Hsh2 Hl.
  apply wp_ret. exists [o1; o2]. split; [exact Hl|].
  split; [|split; [repeat (constructor; [assumption|]); constructor
                  |split; [simpl; by rewrite Hty1, Hty2
                          |split; [repeat (constructor; [assumption|]); constructor|done]]]].
  destruct Hcr1 as (? & _), Hcr2 as (? & _).
  split; unfold of_type, ids; simpl; rewrite ?Hty1, ?Hty2; simpl; try done.
  repeat (constructor; [assumption|]); constructor.
Qed.

Lemma replay_trace_eq i acts p :
  replay_trace G i acts p =
  (let '(m, r) := np_normal G (event_step_mean_minutes (cfg (self G p)))
                            (event_step_std_minutes (cfg (self G p)))
                            (np_random_st G p) in
   bind G (_init_trace_objects G i (trace_start (self G p) i))
        (fun ctx => replay G ctx (trace_start (self G p) i)
                                 (timedelta_minutes (max_10 m)) acts)
        {| self := self G p; random_st := random_st G p; np_random_st := r |}).
Proof.
  unfold replay_trace, bind at 1 2, get_self, np_random_normal. simpl.
  by destruct (np_normal G _ _ _).
Qed.

Lemma add_single_trace_eq i acts p :
  _add_single_trace G i acts p = bind G (replay_trace G i acts) (_emit_o2o G) p.
Proof.
  unfold _add_single_trace, replay_trace, bind, get_self, np_random_normal. simpl.
  destruct (np_normal G _ _ _) as [m r].
  destruct (_init_trace_objects G _ _ _) as [[ctx|e] p0]; [|done].
  by destruct (replay G _ _ _ _ _) as [[ctx'|e] p'].
Qed.

(** A trace of known activities replays as a chain of steps from its opened
    state, with the step it sampled. *)
Lemma replay_trace_spec i acts p :
  exists ctx0 cur0 p0 ctx' cur' p',
    replay_trace G i (map label acts) p = (Ok ctx', p') /\
    opened i p ctx0 cur0 p0 /\
    steps (objects (self G p)) (sampled_step G p) (trace_start (self G p) i)
          ctx0 cur0 p0 acts ctx' cur' p'.
Proof.
  rewrite replay_trace_eq. unfold sampled_step.
  destruct (np_normal G _ _ _) as [m r]. simpl.
  set (q := {| self := self G p; random_st := random_st G p; np_random_st := r |}).
  pose proof (init_spec i q) as Hi. apply wp_elim in Hi as (ctx0 & p0 & Hi & cur0 & Ho).
  change (self G q) with (self G p) in *.
  unfold bind. rewrite Hi.
  pose proof Ho as (Hl & Htr & _).
  pose proof (replay_steps G acts (objects (self G p)) (timedelta_minutes (max_10 m))
                (trace_start (self G p) i) ctx0 cur0 p0) as Hr.
  apply wp_elim in Hr as (ctx' & p' & Hr & cur' & Hs); [|apply Hl|done].
  exists ctx0, cur0, p0, ctx', cur', p'. done.
Qed.

End Trace.

(** ** The step of a trace *)

Lemma round_half_even_floor x : (Qfloor x <= round_half_even x)%Z.
Proof.
  unfold round_half_even. destruct (Qcompare _ _); [destruct (Z.even _)| |]; lia.
Qed.

Lemma max_10_floor m : (inject_Z 10 <= max_10 m)%Q.
Proof.
  unfold max_10. destruct (Qle_bool m (inject_Z 10)) eqn:E.
  - apply Qle_refl.
  - destruct (Qlt_le_dec (inject_Z 10) m) as [H|H].
    + by apply Qlt_le_weak.
    + apply Qle_bool_iff in H. congruence.
Qed.

Lemma step_floor m : minutes 10 <= timedelta_minutes (max_10 m).
Proof.
  unfold timedelta_minutes.
  etransitivity; [|apply round_half_even_floor].
  change (minutes 10) with (Qfloor (inject_Z 10 * inject_Z 60000000)).
  apply Qfloor_resp_le. apply Qmult_le_compat_r; [apply max_10_floor|done].
Qed.

Lemma sampled_step_floor G (p : Process G) : minutes 10 <= sampled_step G p.
Proof. apply step_floor. Qed.

Lemma cursor_times_length t step n : length (cursor_times t step n) = n.
Proof. revert t. induction n as [|n IH]; intros t; simpl; [done|]. by rewrite IH. Qed.

Lemma cursor_times_lookup t step n k :
  (k < n)%nat -> cursor_times t step n !! k = Some (iso (t + Z.of_nat k * step)).
Proof.
  revert t k. induction n as [|n IH]; intros t k Hk; [lia|].
  destruct k as [|k]; simpl.
  - do 2 f_equal. lia.
  - rewrite IH by lia. do 2 f_equal. lia.
Qed.

Lemma iso_add_seconds t step : 0 <= step -> iso t + iso step <= iso (t + step) <= iso t + iso step + 1.
Proof.
  intros Hs. unfold iso.
  pose proof (Z.div_mod t 1000000 ltac:(done)).
  pose proof (Z.div_mod step 1000000 ltac:(done)).
  pose proof (Z.div_mod (t + step) 1000000 ltac:(done)).
  pose proof (Z.mod_pos_bound t 1000000 ltac:(done)).
  pose proof (Z.mod_pos_bound step 1000000 ltac:(done)).
  pose proof (Z.mod_pos_bound (t + step) 1000000 ltac:(done)).
  lia.
Qed.

Lemma cursor_times_increasing t step n :
  minutes 10 <= step -> StronglySorted Z.lt (cursor_times t step n).
Proof.
  intros Hs. revert t. induction n as [|n IH]; intros t; simpl; constructor; [apply IH|].
  apply Forall_forall. intros z Hz.
  apply list_elem_of_lookup in Hz as [k Hk].
  assert (k < n)%nat as Hlt.
  { apply lookup_lt_Some in Hk. by rewrite cursor_times_length in Hk. }
  rewrite cursor_times_lookup in Hk by done. injection Hk as <-.
  assert (600 <= iso step).
  { unfold iso. apply Z.div_le_lower_bound; [done|]. unfold minutes in Hs. lia. }
  pose proof (iso_add_seconds t (step + Z.of_nat k * step)) as H1.
  assert (0 <= iso (Z.of_nat k * step)).
  { unfold iso. apply Z.div_pos; [|done]. unfold minutes in Hs. nia. }
  pose proof (iso_add_seconds step (Z.of_nat k * step)) as H2.
  unfold minutes in Hs.
  replace (t + step + Z.of_nat k * step) with (t + (step + Z.of_nat k * step)) by lia.
  assert (0 <= Z.of_nat k * step) by nia.
  lia.
Qed.

(** ** Facts about a chain of steps *)

Section Chain.

Variable G : Generators.
Implicit Types p : Process G.

Lemma expected_subject a ctx ctx' :
  rel (patient_id ctx) "subject" ∈ expected_relationships a ctx ctx'.
Proof. destruct a; simpl; left. Qed.

(** The events of a chain: one per activity, stamped with the cursor, typed
    by the handler, each with the patient as subject. *)
Lemma steps_events old step t ctx cur p acts ctx' cur' p' :
  steps old step t ctx cur p acts ctx' cur' p' ->
  cfg (self G p') = cfg (self G p) /\
  object_relationships (self G p') = object_relationships (self G p) /\
  trace_index ctx' = trace_index ctx /\ start_time ctx' = start_time ctx /\
  patient_id ctx' = patient_id ctx /\ visit_id ctx' = visit_id ctx /\
  exists evs,
    events (self G p') = events (self G p) ++ evs /\
    map ev_time evs = cursor_times t step (length acts) /\
    map ev_type evs = map emitted_type acts /\
    Forall (fun e => rel (patient_id ctx) "subject" ∈ ev_relationships e) evs.
Proof.
  induction 1 as [t ctx cur p|t a acts ctx cur p ctx1 cur1 p1 ctx2 cur2 p2 H1 _ IH].
  - repeat split; try done. exists []. by rewrite app_nil_r.
  - destruct IH as (Hc & Hr & Hi & Hs & Hp & Hv & evs & He & Ht & Hty & Hsub).
    destruct H1 as [Hc1 Hr1 (e & He1 & Ht1 & Hty1 & Hrel1) _ _ Hi1 Hs1 Hp1 Hv1 _ _].
    repeat split; try congruence.
    exists (e :: evs). repeat split.
    + by rewrite He, He1, <- app_assoc.
    + simpl. by rewrite Ht, Ht1.
    + simpl. by rewrite Hty, Hty1.
    + constructor.
      * rewrite Hrel1. apply expected_subject.
      * by rewrite <- Hp1.
Qed.

(** The objects of a chain. *)
Lemma steps_objects old step t ctx cur p acts ctx' cur' p' :
  steps old step t ctx cur p acts ctx' cur' p' ->
  objects (self G p) = old ++ cur -> ctx_tracks ctx cur ->
  objects (self G p') = old ++ cur' /\ ctx_tracks ctx' cur'.
Proof.
  induction 1 as [|t a acts ctx cur p ctx1 cur1 p1 ctx2 cur2 p2 H1 _ IH]; [done|].
  intros _ _. apply IH; apply H1.
Qed.

Lemma grown_of_type S t cur X tys ty :
  grown S t cur X tys ->
  exists news, ids (of_type ty X) = ids (of_type ty cur) ++ ids (of_type ty news) /\
               map obj_type news = tys /\ Forall (created t) news.
Proof.
  intros (cur1 & news & -> & Ht & Hc & Hty & _). exists news.
  by rewrite of_type_app, ids_app, (touched_of_type _ _ _ _ Ht).
Qed.

Lemma of_type_length ty news :
  length (of_type ty news) =
  length (List.filter (fun s => String.eqb s ty) (map obj_type news)).
Proof.
  induction news as [|o news IH]; simpl; [done|].
  destruct (String.eqb (obj_type o) ty); simpl; by rewrite IH.
Qed.

Lemma grown_count S t cur X tys ty :
  grown S t cur X tys ->
  length (of_type ty X) =
  (length (of_type ty cur) + length (List.filter (fun s => String.eqb s ty) tys))%nat.
Proof.
  intros H. destruct (grown_of_type _ _ _ _ _ ty H) as (news & Hi & <- & _).
  apply (f_equal length) in Hi. unfold ids in Hi.
  rewrite length_app, !length_map in Hi. by rewrite Hi, (of_type_length ty news).
Qed.

(** The objects of each type a chain leaves, counted. *)
Lemma steps_counts old step t ctx cur p acts ctx' cur' p' :
  steps old step t ctx cur p acts ctx' cur' p' ->
  ctx_tracks ctx cur ->
  length (of_type "Patient" cur') = length (of_type "Patient" cur) /\
  length (of_type "Encounter" cur') = length (of_type "Encounter" cur) /\
  length (of_type "Test" cur') =
    (length (of_type "Test" cur) + length (List.filter orders_test acts))%nat /\
  length (of_type "Dose" cur') =
    (length (of_type "Dose" cur) + length (List.filter medicates acts))%nat /\
  length (of_type "Diagnosis" cur') =
    (if diagnosis_id ctx is Some _ then 1
     else if existsb consults acts then 1 else 0)%nat /\
  length (of_type "TreatmentPlan" cur') =
    (if plan_id ctx is Some _ then 1
     else if existsb consults acts then 1 else 0)%nat.
Proof.
  induction 1 as [t ctx cur p|t a acts ctx cur p ctx1 cur1 p1 ctx2 cur2 p2 H1 _ IH];
    intros Htr.
  - rewrite !Nat.add_0_r. repeat split; try done.
    + pose proof (tracks_diagnosis _ _ Htr) as H. apply (f_equal length) in H.
      unfold ids in H. rewrite length_map in H. rewrite H.
      by destruct (diagnosis_id ctx).
    + pose proof (tracks_plan _ _ Htr) as H. apply (f_equal length) in H.
      unfold ids in H. rewrite length_map in H. rewrite H.
      by destruct (plan_id ctx).
  - destruct (IH (h_tracks _ _ _ _ _ _ _ _ _ H1)) as (I1 & I2 & I3 & I4 & I5 & I6).
    pose proof (h_cur _ _ _ _ _ _ _ _ _ H1) as Hg.
    pose proof (h_tracks _ _ _ _ _ _ _ _ _ H1) as Htr1.
    pose proof (fun ty => grown_count _ _ _ _ _ ty Hg) as Hn.
    assert (forall {A} (o : option A), length (option_list o) = if o is Some _ then 1%nat else 0%nat)
      as Hol by (by intros ? []).
    assert (length (of_type "Diagnosis" cur) = if diagnosis_id ctx is Some _ then 1 else 0)%nat as D0.
    { rewrite <- Hol, <- (tracks_diagnosis _ _ Htr). unfold ids. by rewrite length_map. }
    assert (length (of_type "Diagnosis" cur1) = if diagnosis_id ctx1 is Some _ then 1 else 0)%nat as D1.
    { rewrite <- Hol, <- (tracks_diagnosis _ _ Htr1). unfold ids. by rewrite length_map. }
    assert (length (of_type "TreatmentPlan" cur) = if plan_id ctx is Some _ then 1 else 0)%nat as P0.
    { rewrite <- Hol, <- (tracks_plan _ _ Htr). unfold ids. by rewrite length_map. }
    assert (length (of_type "TreatmentPlan" cur1) = if plan_id ctx1 is Some _ then 1 else 0)%nat as P1.
    { rewrite <- Hol, <- (tracks_plan _ _ Htr1). unfold ids. by rewrite length_map. }
    pose proof (Hn "Patient") as N1. pose proof (Hn "Encounter") as N2.
    pose proof (Hn "Test") as N3. pose proof (Hn "Dose") as N4.
    pose proof (Hn "Diagnosis") as N5. pose proof (Hn "TreatmentPlan") as N6.
    rewrite I1, I2, I3, I4, I5, I6. clear I1 I2 I3 I4 I5 I6 IH Hn.
    rewrite D1 in N5. rewrite D0 in N5. rewrite P1 in N6. rewrite P0 in N6.
    clear D0 D1 P0 P1 H1 Hg Htr Htr1 Hol. revert N1 N2 N3 N4 N5 N6.
    unfold created_types.
    destruct a, (diagnosis_id ctx), (plan_id ctx), (diagnosis_id ctx1), (plan_id ctx1);
      simpl; intros; repeat split; try lia;
      destruct (existsb consults acts); lia.
Qed.

End Chain.

Section Chain2.

Variable G : Generators.
Implicit Types p : Process G.

(** *** Timestamps of the histories *)

Lemma handled_sorted old t a ctx cur p ctx1 cur1 p1 :
  handled old t a ctx cur p ctx1 cur1 p1 ->
  Forall (fun o => name_sorted (obj_attributes o) /\ stamped (iso t) (obj_attributes o)) cur ->
  Forall (fun o => name_sorted (obj_attributes o) /\ stamped (iso t) (obj_attributes o)) cur1.
Proof.
  intros H Hcur. destruct (h_cur _ _ _ _ _ _ _ _ _ H) as (c1 & news & -> & Ht & Hn & _).
  apply Forall_app. split.
  - clear -Ht Hcur. induction Ht as [|o o' l l' Ho _ IH]; [constructor|].
    inversion Hcur as [|? ? [Hs Hst] Hcur']; subst. constructor; [|by apply IH].
    by eapply touched_sorted.
  - eapply Forall_impl; [exact Hn|]. by intros o (_ & ? & ?).
Qed.

Lemma steps_sorted old step t ctx cur p acts ctx' cur' p' :
  steps old step t ctx cur p acts ctx' cur' p' ->
  0 <= step ->
  Forall (fun o => name_sorted (obj_attributes o) /\ stamped (iso t) (obj_attributes o)) cur ->
  Forall (fun o => name_sorted (obj_attributes o)) cur'.
Proof.
  induction 1 as [|t a acts ctx cur p ctx1 cur1 p1 ctx2 cur2 p2 H1 _ IH]; intros Hs Hcur.
  - eapply Forall_impl; [exact Hcur|]. by intros o [? _].
  - apply IH; [done|]. apply (handled_sorted _ _ _ _ _ _ _ _ _ H1) in Hcur.
    eapply Forall_impl; [exact Hcur|]. intros o [? Hst]. split; [done|].
    eapply stamped_mono; [|exact Hst]. apply iso_mono. lia.
Qed.

(** *** Identifiers of the Diagnosis and the TreatmentPlan *)

Lemma option_list_prefix {A} (x : A) (o : option A) l :
  option_list o = [x] ++ l -> o = Some x.
Proof. destruct o; simpl; [|done]. by intros [= ->]. Qed.

Lemma handled_keeps_ids old t a ctx cur p ctx1 cur1 p1 :
  handled old t a ctx cur p ctx1 cur1 p1 -> ctx_tracks ctx cur ->
  (forall x, diagnosis_id ctx = Some x -> diagnosis_id ctx1 = Some x) /\
  (forall x, plan_id ctx = Some x -> plan_id ctx1 = Some x).
Proof.
  intros H Htr. pose proof (h_tracks _ _ _ _ _ _ _ _ _ H) as Htr1.
  pose proof (h_cur _ _ _ _ _ _ _ _ _ H) as Hg.
  split; intros x Hx.
  - destruct (grown_of_type _ _ _ _ _ "Diagnosis" Hg) as (news & Hi & _).
    rewrite (tracks_diagnosis _ _ Htr), (tracks_diagnosis _ _ Htr1), Hx in Hi.
    by eapply option_list_prefix.
  - destruct (grown_of_type _ _ _ _ _ "TreatmentPlan" Hg) as (news & Hi & _).
    rewrite (tracks_plan _ _ Htr), (tracks_plan _ _ Htr1), Hx in Hi.
    by eapply option_list_prefix.
Qed.

(** Whoever an event names as its diagnosis or its plan is the one of the
    context the handler returned. *)
Lemma expected_ids a ctx ctx' r :
  r ∈ expected_relationships a ctx ctx' ->
  (qualifier r = "diagnosis" -> diagnosis_id ctx' = Some (objectId r)) /\
  (qualifier r = "plan" -> plan_id ctx' = Some (objectId r)).
Proof.
  unfold expected_relationships.
  destruct a, (diagnosis_id ctx'), (plan_id ctx'); simpl;
    rewrite ?elem_of_cons, ?elem_of_app, ?list_elem_of_fmap, ?elem_of_nil;
    intros H; repeat (destruct H as [H|H]); try done;
    try (destruct H as (i & -> & _)); try (subst r); simpl; split; try done.
Qed.

Lemma steps_ids old step t ctx cur p acts ctx' cur' p' :
  steps old step t ctx cur p acts ctx' cur' p' -> ctx_tracks ctx cur ->
  (forall x, diagnosis_id ctx = Some x -> diagnosis_id ctx' = Some x) /\
  (forall x, plan_id ctx = Some x -> plan_id ctx' = Some x) /\
  exists evs,
    events (self G p') = events (self G p) ++ evs /\
    Forall (fun e => forall r, r ∈ ev_relationships e ->
              (qualifier r = "diagnosis" -> diagnosis_id ctx' = Some (objectId r)) /\
              (qualifier r = "plan" -> plan_id ctx' = Some (objectId r))) evs.
Proof.
  induction 1 as [|t a acts ctx cur p ctx1 cur1 p1 ctx2 cur2 p2 H1 _ IH]; intros Htr.
  - repeat split; try done. exists []. by rewrite app_nil_r.
  - destruct (IH (h_tracks _ _ _ _ _ _ _ _ _ H1)) as (Id & Ip & evs & He & Hall).
    destruct (handled_keeps_ids _ _ _ _ _ _ _ _ _ H1 Htr) as [Kd Kp].
    split; [auto|]. split; [auto|].
    destruct (h_event _ _ _ _ _ _ _ _ _ H1) as (e & He1 & _ & _ & Hrel).
    exists (e :: evs). split; [by rewrite He, He1, <- app_assoc|].
    constructor; [|done]. intros r Hr. rewrite Hrel in Hr.
    apply expected_ids in Hr as [Hd Hp]. split; auto.
Qed.

End Chain2.

(** ** The relationship emitter *)

Section Emitter.

Variable G : Generators.
Implicit Types p : Process G.

Lemma wp_new_rel rtype time src tgt (Q : unit -> Process G -> Prop) p c evs objs rels :
  log_is p c evs objs rels ->
  (forall p' r, o2o_view r = (rtype, iso time, src, tgt) -> rel_attributes r = [] ->
                log_is p' c evs objs (rels ++ [r]) -> Q tt p') ->
  wp (new_rel G rtype time src tgt) Q p.
Proof.
  intros (<- & <- & <- & <-) HQ. unfold wp, new_rel, bind, get_self, update_self. simpl.
  eapply HQ; last first.
  - unfold log_is. simpl. done.
  - done.
  - done.
Qed.

Lemma wp_new_rels rtype time src tgts :
  forall (Q : unit -> Process G -> Prop) p c evs objs rels,
  log_is p c evs objs rels ->
  (forall p' rs, map o2o_view rs = map (fun tgt => (rtype, iso time, src, tgt)) tgts ->
                 Forall (fun r => rel_attributes r = []) rs ->
                 log_is p' c evs objs (rels ++ rs) -> Q tt p') ->
  wp (for_each G (fun tgt => new_rel G rtype time src tgt) tgts) Q p.
Proof.
  induction tgts as [|tgt tgts IH]; intros Q p c evs objs rels Hl HQ; simpl.
  - apply wp_ret. apply (HQ p []); [done|constructor|by rewrite app_nil_r].
  - apply wp_bind. eapply wp_new_rel; [exact Hl|]. intros p1 r Hv Ha Hl1.
    eapply IH; [exact Hl1|]. intros p' rs Hvs Has Hl'.
    apply (HQ p' (r :: rs)).
    + simpl. by rewrite Hv, Hvs.
    + by constructor.
    + by rewrite <- app_assoc in Hl'.
Qed.

Lemma emit_o2o_spec ctx p :
  wp (_emit_o2o G ctx)
     (fun _ p' => exists rs,
        log_is p' (cfg (self G p)) (events (self G p)) (objects (self G p))
               (object_relationships (self G p) ++ rs) /\
        map o2o_view rs = emitted_o2o ctx /\
        Forall (fun r => rel_attributes r = []) rs) p.
Proof.
  assert (Hl : log_is p (cfg (self G p)) (events (self G p)) (objects (self G p))
                      (object_relationships (self G p))) by done.
  unfold _emit_o2o, emitted_o2o. apply wp_bind.
  eapply wp_new_rel; [exact Hl|]. clear Hl. intros p1 r Hv Ha Hl.
  destruct (plan_id ctx) as [plan|].
  - destruct (truthy plan && nonempty (medication_ids ctx)).
    + eapply wp_new_rels; [exact Hl|]. intros p' rs Hvs Has Hl'.
      exists (r :: rs). rewrite <- app_assoc in Hl'. split; [done|].
      split; [simpl; by rewrite Hv, Hvs|by constructor].
    + apply wp_ret. exists [r]. split; [done|]. split; [simpl; by rewrite Hv|by repeat constructor].
  - apply wp_ret. exists [r]. split; [done|]. split; [simpl; by rewrite Hv|by repeat constructor].
Qed.

(** With a context that tracks the trace's objects, the emitter writes one
    record for the encounter and one for every dose. *)
Lemma emitted_o2o_tracked ctx cur :
  ctx_tracks ctx cur ->
  emitted_o2o ctx =
    ("Encounter-Patient", iso (start_time ctx), visit_id ctx, patient_id ctx)
    :: map (fun med => ("TreatmentPlan-Dose", iso (start_time ctx),
                        default EmptyString (plan_id ctx), med))
           (medication_ids ctx).
Proof.
  intros Htr. unfold emitted_o2o. f_equal.
  destruct (medication_ids ctx) as [|m ms] eqn:Em.
  - destruct (plan_id ctx) as [pl|]; [|done]. by rewrite andb_false_r.
  - pose proof (tracks_dose_plan _ _ Htr) as Hp. rewrite Em in Hp.
    destruct (plan_id ctx) as [pl|] eqn:Ep; [|by destruct Hp].
    assert (truthy pl = true) as ->; [|done].
    pose proof (tracks_plan_in _ _ _ Htr Ep) as Hin.
    pose proof (tracks_nonempty _ _ Htr) as Hne.
    rewrite Forall_forall in Hne. specialize (Hne _ Hin).
    unfold truthy. apply negb_true_iff, String.eqb_neq. done.
Qed.

End Emitter.

(** ** Identifiers tell the objects of a trace apart *)

Lemma append_inj_l (s a b : string) : s +:+ a = s +:+ b -> a = b.
Proof. induction s as [|c s IH]; simpl; [done|]. intros [= H]. by apply IH. Qed.















Section Unique.

Variable G : Generators.
Implicit Types p : Process G.




End Unique.


(** ** Whole traces *)

Section WholeTrace.

Variable G : Generators.
Implicit Types p : Process G.

(** A trace of known activities runs to its end: it opens, takes one step
    per activity and emits its relationships. *)
Lemma add_single_trace_spec i acts p :
  exists ctx0 cur0 p0 ctx' cur' p1 p' rs,
    replay_trace G i (map label acts) p = (Ok ctx', p1) /\
    _add_single_trace G i (map label acts) p = (Ok tt, p') /\
    opened i p ctx0 cur0 p0 /\
    steps (objects (self G p)) (sampled_step G p) (trace_start (self G p) i)
          ctx0 cur0 p0 acts ctx' cur' p1 /\
    log_is p' (cfg (self G p1)) (events (self G p1)) (objects (self G p1))
           (object_relationships (self G p1) ++ rs) /\
    map o2o_view rs = emitted_o2o ctx' /\
    Forall (fun r => rel_attributes r = []) rs.
Proof.
  destruct (replay_trace_spec G i acts p) as (ctx0 & cur0 & p0 & ctx' & cur' & p1 & Hr & Ho & Hs).
  pose proof (emit_o2o_spec G ctx' p1) as He.
  apply wp_elim in He as ([] & p' & He & rs & Hl & Hv & Ha).
  exists ctx0, cur0, p0, ctx', cur', p1, p', rs.
  rewrite add_single_trace_eq. unfold bind. rewrite Hr, He. done.
Qed.

End WholeTrace.

Section Timing.

Variable G : Generators.
Implicit Types p : Process G.

Lemma opened_drop i p ctx0 cur0 p0 old step t acts ctx' cur' p1 :
  opened i p ctx0 cur0 p0 ->
  steps old step t ctx0 cur0 p0 acts ctx' cur' p1 ->
  old = objects (self G p) ->
  objects (self G p1) = objects (self G p) ++ cur' /\ ctx_tracks ctx' cur' /\
  drop (length (objects (self G p))) (objects (self G p1)) = cur'.
Proof.
  intros (Hl & Htr & _) Hs ->. destruct Hl as (_ & _ & Ho & _).
  destruct (steps_objects _ _ _ _ _ _ _ _ _ _ _ Hs Ho Htr) as [Ho1 Htr1].
  split; [done|]. split; [done|]. by rewrite Ho1, drop_app_length.
Qed.

(** A trace of known activities runs to its end and appends one event per
    activity. *)
Lemma trace_events i acts p :
  exists p' evs,
    _add_single_trace G i (map label acts) p = (Ok tt, p') /\
    events (self G p') = events (self G p) ++ evs /\
    length evs = length acts.
Proof.
  destruct (add_single_trace_spec G i acts p)
    as (ctx0 & cur0 & p0 & ctx' & cur' & p1 & p' & rs & _ & Hrun & Ho & Hs & Hl & _).
  destruct (steps_events _ _ _ _ _ _ _ _ _ _ _ Hs)
    as (_ & _ & _ & _ & _ & _ & evs & He & Ht & _).
  destruct Ho as ((_ & He0 & _) & _). destruct Hl as (_ & He' & _).
  exists p', evs. split; [done|]. split; [by rewrite He', He, He0|].
  rewrite <- (length_map ev_time), Ht. apply cursor_times_length.
Qed.

(** C5, amended.  A trace of known activities appends one event per activity.
    The cursor starts at [base_time + (i-1) hours] and advances by one step,
    computed once as [max(10, sample)] minutes; the [k]-th event carries the
    cursor rendered by [iso], that is cut to whole seconds.  The timestamps are
    strictly increasing; two consecutive ones differ by the step cut to whole
    seconds or by one second more, and by exactly the step when it is a whole
    number of seconds. *)
Theorem trace_timestamps i acts p :
  let start := base_time (cfg (self G p)) + hours (Z.of_nat i - 1) in
  let step := sampled_step G p in
  exists p' evs,
    _add_single_trace G i (map label acts) p = (Ok tt, p') /\
    events (self G p') = events (self G p) ++ evs /\
    length evs = length acts /\
    minutes 10 <= step /\
    (forall k e, evs !! k = Some e -> ev_time e = iso (start + Z.of_nat k * step)) /\
    StronglySorted Z.lt (map ev_time evs) /\
    (forall k e1 e2, evs !! k = Some e1 -> evs !! S k = Some e2 ->
       iso step <= ev_time e2 - ev_time e1 <= iso step + 1 /\
       (step mod 1000000 = 0 -> ev_time e2 - ev_time e1 = iso step)).
Proof.
  intros start step.
  destruct (add_single_trace_spec G i acts p)
    as (ctx0 & cur0 & p0 & ctx' & cur' & p1 & p' & rs & _ & Hrun & Ho & Hs & Hl & _).
  destruct (steps_events _ _ _ _ _ _ _ _ _ _ _ Hs)
    as (_ & _ & _ & _ & _ & _ & evs & He & Ht & _).
  destruct Ho as ((_ & He0 & _) & _). destruct Hl as (_ & He' & _).
  pose proof (sampled_step_floor G p) as Hfloor. fold step in Hfloor, Ht.
  assert (length evs = length acts) as Hlen.
  { rewrite <- (length_map ev_time), Ht. apply cursor_times_length. }
  assert (forall k e, evs !! k = Some e -> ev_time e = iso (start + Z.of_nat k * step)) as Hk.
  { intros k e Hke. pose proof (lookup_lt_Some _ _ _ Hke) as Hlt. rewrite Hlen in Hlt.
    pose proof (cursor_times_lookup start step _ _ Hlt) as Hc.
    fold start in Ht. unfold trace_start in Ht. fold start in Ht.
    rewrite <- Ht, list_lookup_fmap, Hke in Hc. by injection Hc. }
  exists p', evs.
  split; [done|]. split; [by rewrite He', He, He0|]. split; [done|]. split; [done|].
  split; [done|]. split; [rewrite Ht; by apply cursor_times_increasing|].
  intros k e1 e2 H1 H2. rewrite (Hk _ _ H1), (Hk _ _ H2).
  replace (start + Z.of_nat (S k) * step) with (start + Z.of_nat k * step + step) by lia.
  split.
  - pose proof (iso_add_seconds (start + Z.of_nat k * step) step) as Hi.
    unfold minutes in Hfloor. lia.
  - intros Hmod. unfold iso. apply Z.mod_divide in Hmod as [q Hq]; [|done]. rewrite Hq.
    rewrite Z.div_add, Z.div_mul by done. lia.
Qed.

End Timing.

Section Relations.

Variable G : Generators.
Implicit Types p : Process G.

Lemma singleton_of_ids ty l i :
  ids (of_type ty l) = [i] -> exists o, of_type ty l = [o] /\ obj_id o = i.
Proof.
  unfold ids. destruct (of_type ty l) as [|o [|o' l']]; try done.
  intros [= <-]. by exists o.
Qed.

Lemma steps_length old step t ctx cur p acts ctx' cur' p' evs :
  steps (G:=G) old step t ctx cur p acts ctx' cur' p' ->
  map ev_time evs = cursor_times t step (length acts) -> length evs = length acts.
Proof.
  intros _ Ht. rewrite <- (length_map ev_time), Ht. apply cursor_times_length.
Qed.

(** C9.  A trace of known activities creates exactly one Patient object, and
    every event it appends, whichever handler made it, has among its
    relationships one whose [objectId] is the identifier of that object and
    whose [qualifier] is "subject". *)
Theorem events_have_subject i acts p :
  exists p' evs patient,
    _add_single_trace G i (map label acts) p = (Ok tt, p') /\
    events (self G p') = events (self G p) ++ evs /\
    length evs = length acts /\
    of_type "Patient" (drop (length (objects (self G p))) (objects (self G p'))) = [patient] /\
    Forall (fun e => exists r, r ∈ ev_relationships e /\
                               objectId r = obj_id patient /\ qualifier r = "subject")
           evs.
Proof.
  destruct (add_single_trace_spec G i acts p)
    as (ctx0 & cur0 & p0 & ctx' & cur' & p1 & p' & rs & _ & Hrun & Ho & Hs & Hl & _).
  destruct (steps_events _ _ _ _ _ _ _ _ _ _ _ Hs)
    as (_ & _ & _ & _ & Hpat & _ & evs & He & Ht & _ & Hsub).
  destruct (opened_drop _ _ _ _ _ _ _ _ _ _ _ _ _ Ho Hs eq_refl) as (Hobj & Htr & Hdrop).
  destruct Ho as ((_ & He0 & _) & _). destruct Hl as (_ & He' & Ho' & _).
  destruct (singleton_of_ids _ _ _ (tracks_patient _ _ Htr)) as (o & Hof & Hid).
  exists p', evs, o. split; [done|]. split; [by rewrite He', He, He0|].
  split; [by eapply steps_length|]. split; [by rewrite Ho', Hdrop|].
  rewrite Hid, Hpat. eapply Forall_impl; [exact Hsub|].
  intros e Hin. eexists. split; [exact Hin|]. split; reflexivity.
Qed.

(** C8.  After a trace of known activities the emitter has appended one
    Encounter-Patient record and one TreatmentPlan-Dose record for every Dose
    the trace created, [1 + doses] records in all, each stamped with the
    start time of the trace; a Dose never exists without the TreatmentPlan. *)
Theorem relationships_emitted i acts p :
  exists p' rs encounter patient,
    let new := drop (length (objects (self G p))) (objects (self G p')) in
    let doses := of_type "Dose" new in
    let plans := of_type "TreatmentPlan" new in
    _add_single_trace G i (map label acts) p = (Ok tt, p') /\
    object_relationships (self G p') = object_relationships (self G p) ++ rs /\
    of_type "Encounter" new = [encounter] /\ of_type "Patient" new = [patient] /\
    length doses = length (List.filter medicates acts) /\
    length rs = S (if plans is [] then 0%nat else length doses) /\
    (doses <> [] -> exists plan, plans = [plan]) /\
    map o2o_view rs =
      ("Encounter-Patient", iso (trace_start (self G p) i), obj_id encounter, obj_id patient)
      :: map (fun d => ("TreatmentPlan-Dose", iso (trace_start (self G p) i),
                        default EmptyString (head (ids plans)), obj_id d)) doses /\
    Forall (fun r => rel_attributes r = []) rs.
Proof.
  destruct (add_single_trace_spec G i acts p)
    as (ctx0 & cur0 & p0 & ctx' & cur' & p1 & p' & rs & _ & Hrun & Ho & Hs & Hl & Hv & Ha).
  destruct (steps_events _ _ _ _ _ _ _ _ _ _ _ Hs)
    as (_ & Hr1 & _ & Hst & _ & _ & _).
  destruct (opened_drop _ _ _ _ _ _ _ _ _ _ _ _ _ Ho Hs eq_refl) as (Hobj & Htr & Hdrop).
  pose proof Ho as ((_ & _ & _ & Hr0) & Htr0 & _ & Hty0 & _ & _ & Hst0 & _ & Hp0).
  destruct (steps_counts _ _ _ _ _ _ _ _ _ _ _ Hs Htr0) as (_ & _ & _ & Hd & _ & _).
  destruct Hl as (_ & _ & Ho' & Hr').
  destruct (singleton_of_ids _ _ _ (tracks_patient _ _ Htr)) as (pat & Hpat & Hpid).
  destruct (singleton_of_ids _ _ _ (tracks_visit _ _ Htr)) as (enc & Henc & Heid).
  exists p', rs, enc, pat. cbv zeta. rewrite Ho', Hdrop.
  rewrite (emitted_o2o_tracked _ _ Htr), Hst, Hst0 in Hv.
  assert (length (of_type "Dose" cur0) = 0%nat) as Hd0.
  { rewrite of_type_length, Hty0. done. }
  pose proof (tracks_doses _ _ Htr) as Hdoses.
  pose proof (tracks_plan _ _ Htr) as Hplans.
  pose proof (tracks_dose_plan _ _ Htr) as Hdp.
  split; [done|]. split; [by rewrite Hr', Hr1, Hr0|]. split; [done|]. split; [done|].
  split; [by rewrite Hd, Hd0|].
  assert (map o2o_view rs =
      ("Encounter-Patient", iso (trace_start (self G p) i), obj_id enc, obj_id pat)
      :: map (fun d => ("TreatmentPlan-Dose", iso (trace_start (self G p) i),
                        default EmptyString (head (ids (of_type "TreatmentPlan" cur'))),
                        obj_id d)) (of_type "Dose" cur')) as Hview.
  { rewrite Hv, Heid, Hpid, <- Hdoses. unfold ids. rewrite map_map. do 2 f_equal.
    fold (ids (of_type "TreatmentPlan" cur')). rewrite Hplans.
    by destruct (plan_id ctx'). }
  split; [|split; [|done]].
  - apply (f_equal length) in Hview. rewrite length_map in Hview. rewrite Hview. simpl.
    rewrite length_map. f_equal.
    destruct (of_type "TreatmentPlan" cur') as [|pl pls] eqn:Epl; [|done].
    destruct (of_type "Dose" cur') as [|d ds] eqn:Eds; [done|].
    simpl in Hdoses, Hplans. destruct Hdp; [by rewrite <- Hdoses|].
    by destruct (plan_id ctx').
  - intros Hne. destruct (plan_id ctx') as [pl|] eqn:Ep.
    + apply singleton_of_ids in Hplans as (o & -> & _). by exists o.
    + destruct Hdp; [|done]. rewrite <- Hdoses.
      destruct (of_type "Dose" cur'); done.
Qed.

End Relations.

Section Cuts.

Variable G : Generators.
Implicit Types p : Process G.

(** A trace cut after [pre]: the state there, and the rest of the chain. *)
Lemma replay_trace_split i pre post p :
  exists ctx0 cur0 p0 ctx1 cur1 p1 ctx2 cur2 p2,
    replay_trace G i (map label pre) p = (Ok ctx1, p1) /\
    replay_trace G i (map label (pre ++ post)) p = (Ok ctx2, p2) /\
    opened i p ctx0 cur0 p0 /\
    steps (objects (self G p)) (sampled_step G p) (trace_start (self G p) i)
          ctx0 cur0 p0 pre ctx1 cur1 p1 /\
    steps (objects (self G p)) (sampled_step G p)
          (trace_start (self G p) i + Z.of_nat (length pre) * sampled_step G p)
          ctx1 cur1 p1 post ctx2 cur2 p2 /\
    objects (self G p1) = objects (self G p) ++ cur1 /\ ctx_tracks ctx1 cur1.
Proof.
  destruct (replay_trace_spec G i pre p) as (ctx0 & cur0 & p0 & ctx1 & cur1 & p1 & Hr & Ho & Hs).
  destruct (opened_drop _ _ _ _ _ _ _ _ _ _ _ _ _ Ho Hs eq_refl) as (Hobj & Htr & _).
  pose proof (replay_steps G post (objects (self G p)) (sampled_step G p)
                (trace_start (self G p) i + Z.of_nat (length pre) * sampled_step G p)
                ctx1 cur1 p1 Hobj Htr) as Hp.
  apply wp_elim in Hp as (ctx2 & p2 & Hp & cur2 & Hs2).
  exists ctx0, cur0, p0, ctx1, cur1, p1, ctx2, cur2, p2.
  split; [done|]. split; [|done].
  rewrite map_app. rewrite replay_trace_eq in Hr |- *. unfold sampled_step in Hp.
  destruct (np_normal G _ _ _) as [m r]. simpl in Hp.
  unfold bind in Hr |- *.
  destruct (_init_trace_objects G _ _ _) as [[c|e] q]; [|done].
  rewrite replay_app. unfold bind. rewrite Hr, length_map. exact Hp.
Qed.

Lemma steps_frame old step t ctx cur p acts ctx' cur' p' :
  steps (G:=G) old step t ctx cur p acts ctx' cur' p' ->
  exists evs, events (self G p') = events (self G p) ++ evs /\ length evs = length acts.
Proof.
  intros Hs. destruct (steps_events _ _ _ _ _ _ _ _ _ _ _ Hs)
    as (_ & _ & _ & _ & _ & _ & evs & He & Ht & _).
  exists evs. split; [done|]. by eapply steps_length.
Qed.


(** C7.  Cut a trace of known activities anywhere, [pre] before the cut and
    [post] after it.  At the cut the trace has created one Diagnosis and one
    TreatmentPlan if a JointConsult or MedicationTreatment was replayed, and
    none otherwise; at the end likewise, and with the same identifiers: an
    object that exists at the cut is the one at the end.  Every event of the
    trace that names a diagnosis or a plan names that object. *)
Theorem diagnosis_and_plan_once i pre post p :
  exists ctx1 p1 p' evs,
    let mid := drop (length (objects (self G p))) (objects (self G p1)) in
    let new := drop (length (objects (self G p))) (objects (self G p')) in
    replay_trace G i (map label pre) p = (Ok ctx1, p1) /\
    _add_single_trace G i (map label (pre ++ post)) p = (Ok tt, p') /\
    events (self G p') = events (self G p) ++ evs /\
    length evs = length (pre ++ post) /\
    length (of_type "Diagnosis" mid) = (if existsb consults pre then 1 else 0)%nat /\
    length (of_type "TreatmentPlan" mid) = (if existsb consults pre then 1 else 0)%nat /\
    length (of_type "Diagnosis" new) = (if existsb consults (pre ++ post) then 1 else 0)%nat /\
    length (of_type "TreatmentPlan" new) = (if existsb consults (pre ++ post) then 1 else 0)%nat /\
    ids (of_type "Diagnosis" mid) `prefix_of` ids (of_type "Diagnosis" new) /\
    ids (of_type "TreatmentPlan" mid) `prefix_of` ids (of_type "TreatmentPlan" new) /\
    Forall (fun e => forall r, r ∈ ev_relationships e ->
              (qualifier r = "diagnosis" -> ids (of_type "Diagnosis" new) = [objectId r]) /\
              (qualifier r = "plan" -> ids (of_type "TreatmentPlan" new) = [objectId r]))
           evs.
Proof.
  destruct (replay_trace_split i pre post p)
    as (ctx0 & cur0 & p0 & ctx1 & cur1 & p1 & ctx2 & cur2 & p2 & Hr1 & Hr2 & Ho & Hs1 & Hs2 & Hobj & Htr).
  destruct (add_single_trace_spec G i (pre ++ post) p)
    as (c0 & k0 & q0 & ctx' & cur' & q1 & p' & rs & Hr & Hrun & Ho' & Hs & Hl & _).
  rewrite Hr2 in Hr. injection Hr as <- <-.
  destruct (opened_drop _ _ _ _ _ _ _ _ _ _ _ _ _ Ho' Hs eq_refl) as (Hobj' & Htr' & _).
  destruct (steps_objects _ _ _ _ _ _ _ _ _ _ _ Hs2 Hobj Htr) as [Hobj2 Htr2].
  rewrite Hobj' in Hobj2. apply app_inv_head in Hobj2. subst cur2.
  destruct (steps_ids _ _ _ _ _ _ _ _ _ _ _ Hs (proj1 (proj2 Ho')))
    as (_ & _ & evs & He & Hall).
  destruct (steps_frame _ _ _ _ _ _ _ _ _ _ Hs) as (evs' & He' & Hlen).
  rewrite He in He'. apply app_inv_head in He'. subst evs'.
  destruct (steps_ids _ _ _ _ _ _ _ _ _ _ _ Hs2 Htr) as (Kd & Kp & _).
  pose proof Ho as (_ & Htr0 & _ & _ & _ & _ & _ & Hd0 & Hp0).
  pose proof Ho' as ((_ & He0 & _) & Htr0' & _ & _ & _ & _ & _ & Hd0' & Hp0').
  destruct (steps_counts _ _ _ _ _ _ _ _ _ _ _ Hs1 Htr0) as (_ & _ & _ & _ & Cd & Cp).
  destruct (steps_counts _ _ _ _ _ _ _ _ _ _ _ Hs Htr0') as (_ & _ & _ & _ & Cd' & Cp').
  rewrite Hd0 in Cd. rewrite Hp0 in Cp. rewrite Hd0' in Cd'. rewrite Hp0' in Cp'.
  destruct Hl as (_ & Hev & Hob & _).
  exists ctx1, p1, p', evs. cbv zeta.
  rewrite Hob, Hobj, Hobj', !drop_app_length.
  split; [done|]. split; [done|]. split; [by rewrite Hev, He, He0|].
  split; [done|]. split; [done|]. split; [done|]. split; [done|]. split; [done|].
  rewrite (tracks_diagnosis _ _ Htr), (tracks_diagnosis _ _ Htr'),
          (tracks_plan _ _ Htr), (tracks_plan _ _ Htr').
  split; [|split].
  - destruct (diagnosis_id ctx1) as [x|]; [by rewrite (Kd x)|apply prefix_nil].
  - destruct (plan_id ctx1) as [x|]; [by rewrite (Kp x)|apply prefix_nil].
  - eapply Forall_impl; [exact Hall|]. intros e Hrs r Hin.
    destruct (Hrs r Hin) as [Hd Hp]. split; intros Hq.
    + by rewrite (Hd Hq).
    + by rewrite (Hp Hq).
Qed.

End Cuts.

Section Runs.

Variable G : Generators.
Implicit Types p : Process G.

(** *** Traces with unknown labels *)

Lemma split_known (acts : list string) :
  exists pre rest,
    acts = map label pre ++ rest /\
    (rest = [] \/ exists bad post, rest = bad :: post /\ known bad = false).
Proof.
  induction acts as [|a acts (pre & rest & -> & Hrest)].
  - exists [], []. split; [done|by left].
  - destruct (known a) eqn:Ka.
    + apply known_label in Ka as [x ->]. exists (x :: pre), rest. done.
    + exists [], (a :: map label pre ++ rest). split; [done|]. right. by eexists _, _.
Qed.

Lemma replay_trace_unknown i pre bad post p :
  known bad = false ->
  exists ctx1 p1,
    replay_trace G i (map label pre) p = (Ok ctx1, p1) /\
    replay_trace G i (map label pre ++ bad :: post) p =
      (Raise (ValueError ("Unknown activity label: " +:+ bad)), p1).
Proof.
  intros Hbad.
  destruct (replay_trace_spec G i pre p) as (ctx0 & cur0 & p0 & ctx1 & cur1 & p1 & Hr & _).
  exists ctx1, p1. split; [done|].
  rewrite replay_trace_eq in Hr |- *.
  destruct (np_normal G _ _ _) as [m r]. unfold bind in Hr |- *.
  destruct (_init_trace_objects G _ _ _) as [[c|e] q]; [|done].
  rewrite replay_app. unfold bind. rewrite Hr. simpl. unfold bind.
  by rewrite dispatch_unknown.
Qed.

Lemma add_single_trace_unknown i pre bad post p :
  known bad = false ->
  exists ctx1 p1,
    replay_trace G i (map label pre) p = (Ok ctx1, p1) /\
    _add_single_trace G i (map label pre ++ bad :: post) p =
      (Raise (ValueError ("Unknown activity label: " +:+ bad)), p1).
Proof.
  intros Hbad. destruct (replay_trace_unknown i pre bad post p Hbad) as (ctx1 & p1 & H1 & H2).
  exists ctx1, p1. split; [done|]. rewrite add_single_trace_eq. unfold bind. by rewrite H2.
Qed.

(** Where a trace stops, normally or not, is where the replay of its known
    prefix stopped as far as events and objects go. *)
Lemma add_single_trace_any i acts p :
  exists pre ctx1 p1,
    map label pre `prefix_of` acts /\
    replay_trace G i (map label pre) p = (Ok ctx1, p1) /\
    cfg (self G (_add_single_trace G i acts p).2) = cfg (self G p1) /\
    events (self G (_add_single_trace G i acts p).2) = events (self G p1) /\
    objects (self G (_add_single_trace G i acts p).2) = objects (self G p1).
Proof.
  destruct (split_known acts) as (pre & rest & -> & [->|(bad & post & -> & Hbad)]).
  - rewrite app_nil_r.
    destruct (add_single_trace_spec G i pre p)
      as (_ & _ & _ & ctx1 & _ & p1 & p' & rs & Hr & Hrun & _ & _ & Hl & _).
    exists pre, ctx1, p1. rewrite Hrun. simpl. destruct Hl as (? & ? & ? & _). done.
  - destruct (add_single_trace_unknown i pre bad post p Hbad) as (ctx1 & p1 & H1 & H2).
    exists pre, ctx1, p1. rewrite H2. simpl. split; [by eexists|done].
Qed.

(** *** Histories stay sorted name by name *)

Lemma trace_keeps_sorted i acts p :
  Forall (fun o => name_sorted (obj_attributes o)) (objects (self G p)) ->
  Forall (fun o => name_sorted (obj_attributes o))
         (objects (self G (_add_single_trace G i acts p).2)).
Proof.
  intros Hold.
  destruct (add_single_trace_any i acts p) as (pre & ctx1 & p1 & _ & Hr & _ & _ & ->).
  destruct (replay_trace_spec G i pre p) as (ctx0 & cur0 & p0 & c1 & cur1 & q1 & Hr' & Ho & Hs).
  rewrite Hr in Hr'. injection Hr' as <- <-.
  destruct (opened_drop _ _ _ _ _ _ _ _ _ _ _ _ _ Ho Hs eq_refl) as (-> & _ & _).
  apply Forall_app. split; [done|].
  eapply steps_sorted; [exact Hs| |].
  - pose proof (sampled_step_floor G p). unfold minutes in *. lia.
  - destruct Ho as (_ & _ & Hc & _). eapply Forall_impl; [exact Hc|]. by intros o (_ & ? & ?).
Qed.

Lemma add_traces_keeps_sorted traces : forall idx p,
  Forall (fun o => name_sorted (obj_attributes o)) (objects (self G p)) ->
  Forall (fun o => name_sorted (obj_attributes o))
         (objects (self G (add_traces_from G idx traces p).2)).
Proof.
  induction traces as [|tr traces IH]; intros idx p Hp; simpl; [done|].
  unfold bind. pose proof (trace_keeps_sorted idx tr p Hp) as H1.
  destruct (_add_single_trace G idx tr p) as [[[]|e] p1]; simpl in *; [|done].
  by apply IH.
Qed.

Lemma sorted_last_max (l : list Z) z x :
  StronglySorted Z.le l -> last l = Some z -> x ∈ l -> x <= z.
Proof.
  induction 1 as [|y l Hs IH Hall]; [done|]. intros Hlast Hx.
  destruct l as [|y' l'].
  - simpl in Hlast. injection Hlast as <-. apply list_elem_of_singleton in Hx. lia.
  - change (last (y :: y' :: l')) with (last (y' :: l')) in Hlast.
    apply elem_of_cons in Hx as [->|Hx]; [|by apply IH].
    rewrite Forall_forall in Hall. apply Hall. by eapply last_Some_elem_of.
Qed.

End Runs.

Section Runs2.

Variable G : Generators.
Implicit Types p : Process G.

(** C2, amended.  After any run from a fresh builder, finished or aborted,
    the entries of each attribute name of every object are in non-decreasing
    timestamp order, so the last entry of a name (its current value) carries
    the latest timestamp of that name.  Any point between two activities is
    the end of the run on the input cut there. *)
Theorem histories_sorted_by_name c traces r n :
  Forall (fun o => forall name,
            StronglySorted Z.le (stamps name (obj_attributes o)) /\
            match last (List.filter (fun a => String.eqb (at_name a) name) (obj_attributes o)) with
            | Some a => Forall (fun z => z <= at_time a) (stamps name (obj_attributes o))
            | None => stamps name (obj_attributes o) = []
            end)
         (objects (self G (add_traces G traces (new_builder G c r n)).2)).
Proof.
  pose proof (add_traces_keeps_sorted G traces 1 (new_builder G c r n)) as H.
  eapply Forall_impl; [apply H; constructor|].
  intros o Ho name. split; [apply Ho|].
  specialize (Ho name). unfold stamps in *.
  destruct (last _) as [a|] eqn:El.
  - apply Forall_forall. intros z Hz. eapply sorted_last_max; [exact Ho| |exact Hz].
    pose proof (fmap_last at_time (List.filter (fun a => String.eqb (at_name a) name)
                                     (obj_attributes o))) as Hl.
    rewrite El in Hl. exact Hl.
  - apply last_None in El. by rewrite El.
Qed.

(** *** Runs that abort *)

Lemma add_traces_from_known done : forall idx p,
  exists p',
    add_traces_from G idx (map (map label) done) p = (Ok tt, p') /\
    length (events (self G p')) = (length (events (self G p)) + length (concat done))%nat.
Proof.
  induction done as [|tr done IH]; intros idx p; simpl.
  - exists p. split; [done|lia].
  - destruct (trace_events G idx tr p) as (p1 & evs & Hrun & He & Hlen).
    destruct (IH (S idx) p1) as (p' & Hrest & Hn).
    exists p'. unfold bind. rewrite Hrun. split; [done|].
    rewrite Hn, He, !length_app, Hlen. lia.
Qed.

Lemma add_traces_from_app l1 : forall l2 idx p,
  add_traces_from G idx (l1 ++ l2) p =
  bind G (add_traces_from G idx l1) (fun _ => add_traces_from G (idx + length l1) l2) p.
Proof.
  induction l1 as [|tr l1 IH]; intros l2 idx p; simpl.
  - unfold bind, ret. by rewrite Nat.add_0_r.
  - unfold bind. destruct (_add_single_trace G idx tr p) as [[[]|e] p1]; [|done].
    rewrite IH. unfold bind. by rewrite Nat.add_succ_r.
Qed.

Lemma first_unknown (traces : list (list string)) :
  Exists (Exists (fun act => known act = false)) traces ->
  exists done pre bad post rest,
    traces = map (map label) done ++ (map label pre ++ bad :: post) :: rest /\
    known bad = false.
Proof.
  induction traces as [|tr traces IH]; intros Hex; [by apply Exists_nil in Hex|].
  destruct (split_known tr) as (pre & rest & -> & [->|(bad & post & -> & Hbad)]).
  - rewrite app_nil_r in *. apply Exists_cons in Hex as [Hex|Hex].
    + apply Exists_exists in Hex as (act & Hin & Hk).
      apply list_elem_of_fmap in Hin as (a & -> & _). by rewrite label_known in Hk.
    + destruct (IH Hex) as (done & pre' & bad & post & rest & -> & Hbad).
      by exists (pre :: done), pre', bad, post, rest.
  - by exists [], pre, bad, post, traces.
Qed.

(** C3.  An input with a label outside the vocabulary makes [add_traces]
    raise [ValueError] at the first such label, and the run produces no
    document.  The builder is left with the events and objects of the input
    cut just before that label: nothing is appended for it or for what
    follows it. *)
Theorem unknown_label_aborts c traces r n :
  Exists (Exists (fun act => known act = false)) traces ->
  exists done pre bad post rest,
    let p0 := new_builder G c r n in
    let error := ValueError ("Unknown activity label: " +:+ bad) in
    let cut := map (map label) (done ++ [pre]) in
    traces = map (map label) done ++ (map label pre ++ bad :: post) :: rest /\
    known bad = false /\
    (add_traces G traces p0).1 = Raise error /\
    generate G c traces r n = Raise error /\
    (add_traces G cut p0).1 = Ok tt /\
    events (self G (add_traces G traces p0).2) = events (self G (add_traces G cut p0).2) /\
    objects (self G (add_traces G traces p0).2) = objects (self G (add_traces G cut p0).2) /\
    length (events (self G (add_traces G traces p0).2))
      = (length (concat done) + length pre)%nat.
Proof.
  intros Hex.
  destruct (first_unknown traces Hex) as (done & pre & bad & post & rest & -> & Hbad).
  exists done, pre, bad, post, rest. cbv zeta.
  set (p0 := new_builder G c r n).
  destruct (add_traces_from_known done 1 p0) as (p1 & Hdone & Hn).
  destruct (add_single_trace_unknown G (S (length (map (map label) done))) pre bad post p1 Hbad)
    as (ctx1 & pa & Hr & Hbadrun).
  destruct (add_single_trace_spec G (S (length (map (map label) done))) pre p1)
    as (_ & _ & _ & ctx1' & _ & pa' & p' & rs & Hr' & Hrun & _ & _ & Hl & _).
  rewrite Hr in Hr'. injection Hr' as <- <-.
  destruct (trace_events G (S (length (map (map label) done))) pre p1)
    as (p'' & evs & Hrun' & He & Hlen).
  rewrite Hrun in Hrun'. injection Hrun' as <-.
  destruct Hl as (_ & Hev & Hob & _).
  assert (add_traces G (map (map label) done ++ (map label pre ++ bad :: post) :: rest) p0
          = (Raise (ValueError ("Unknown activity label: " +:+ bad)), pa)) as Hfull.
  { unfold add_traces. rewrite add_traces_from_app. unfold bind. rewrite Hdone. simpl.
    unfold bind. by rewrite Hbadrun. }
  assert (add_traces G (map (map label) (done ++ [pre])) p0 = (Ok tt, p')) as Hcut.
  { unfold add_traces. rewrite map_app, add_traces_from_app. unfold bind. rewrite Hdone.
    simpl. unfold bind. by rewrite Hrun. }
  split; [done|]. split; [done|]. rewrite Hfull, Hcut. simpl.
  split; [done|]. split.
  { unfold generate, bind. fold p0. by rewrite Hfull. }
  split; [done|]. split; [done|]. split; [done|].
  rewrite <- Hev, He, length_app, Hn, Hlen. simpl. lia.
Qed.

(** C4, amended.  Against an identifier that no object of the collection
    has, [_append_attr] raises [KeyError] and changes nothing, while
    [_get_obj_attr] does not fail: it returns [None]. *)
Theorem dangling_reference p oid name time value :
  oid ∉ ids (objects (self G p)) ->
  _append_attr G oid name time value p
    = (Raise (KeyError ("Object " +:+ oid +:+ " not found")), p) /\
  _get_obj_attr G oid name p = (Ok VNone, p).
Proof.
  intros Hn. apply find_obj_None in Hn. split.
  - unfold _append_attr, bind, get_self. simpl.
    unfold find_obj in Hn. apply scan_update_scan with (f := add_attribute
      {| at_name := name; at_time := time; at_value := value |}) in Hn.
    by rewrite Hn.
  - by rewrite get_obj_attr_eq, Hn.
Qed.

(** C1, at the failing input.  The run on the single trace [JointConsult]
    produces a document with one event, and its type is "MDT": neither a
    label of the vocabulary nor a name the event-type schema declares. *)
Theorem joint_consult_event_type c r n :
  exists doc e,
    generate G c [["JointConsult"]] r n = Ok doc /\
    doc_events doc = [e] /\
    ev_type e = "MDT" /\
    ("MDT" ∉ vocabulary) /\
    ("MDT" ∉ map td_name DEFAULT_EVENT_TYPES) /\
    ("JointConsult" ∈ map td_name DEFAULT_EVENT_TYPES).
Proof.
  set (p0 := new_builder G c r n).
  destruct (add_single_trace_spec G 1 [JointConsult] p0)
    as (ctx0 & cur0 & p1 & ctx' & cur' & q1 & p' & rs & _ & Hrun & Ho & Hs & Hl & _).
  destruct (steps_events _ _ _ _ _ _ _ _ _ _ _ Hs)
    as (_ & _ & _ & _ & _ & _ & evs & He & Ht & Hty & _).
  destruct Ho as ((_ & He0 & _) & _). destruct Hl as (_ & Hev & _).
  destruct evs as [|e [|e' evs]]; try done. injection Hty as Hty.
  exists {| doc_eventTypes := event_types (cfg (self G p'));
            doc_objectTypes := object_types (cfg (self G p'));
            doc_events := events (self G p');
            doc_objects := objects (self G p');
            doc_objectRelationshipTypes := object_relationship_types (self G p');
            doc_objectRelationships := object_relationships (self G p') |}, e.
  split.
  { unfold generate, add_traces. simpl. fold p0. simpl in Hrun.
    unfold bind at 1 2. by rewrite Hrun. }
  split; [simpl; by rewrite Hev, He, He0|]. split; [done|].
  split; [|split]; apply (bool_decide_unpack _); reflexivity.
Qed.

(** Apart from that handler, the type of an event is the label replayed. *)
Lemma event_types_of_trace i acts p :
  exists p' evs,
    _add_single_trace G i (map label acts) p = (Ok tt, p') /\
    events (self G p') = events (self G p) ++ evs /\
    map ev_type evs = map emitted_type acts /\
    (existsb (fun a => match a with JointConsult => true | _ => false end) acts = false ->
     map ev_type evs = map label acts).
Proof.
  destruct (add_single_trace_spec G i acts p)
    as (ctx0 & cur0 & p0 & ctx' & cur' & p1 & p' & rs & _ & Hrun & Ho & Hs & Hl & _).
  destruct (steps_events _ _ _ _ _ _ _ _ _ _ _ Hs)
    as (_ & _ & _ & _ & _ & _ & evs & He & _ & Hty & _).
  destruct Ho as ((_ & He0 & _) & _). destruct Hl as (_ & Hev & _).
  exists p', evs. split; [done|]. split; [by rewrite Hev, He, He0|]. split; [done|].
  intros Hno. rewrite Hty. clear -Hno. induction acts as [|a acts IH]; [done|].
  simpl in *. apply orb_false_iff in Hno as [Ha Hno]. rewrite IH by done.
  by destruct a.
Qed.

(** C10.  The document a run produces does not depend on the states the
    process-wide generators were in before the builder was constructed:
    construction reseeds both from the configuration. *)
Theorem runs_are_reproducible c traces r1 n1 r2 n2 :
  new_builder G c r1 n1 = new_builder G c r2 n2 /\
  generate G c traces r1 n1 = generate G c traces r2 n2.
Proof.
  assert (new_builder G c r1 n1 = new_builder G c r2 n2) as Hnew by reflexivity.
  split; [done|]. unfold generate. by rewrite Hnew.
Qed.

End Runs2.

(** ** Closed examples *)

(** C2, as stated, fails.  With a step of 10 minutes, a Test is created with
    its [findings] stamped 15 minutes ahead; the FollowUpVisit that comes one
    step later appends [result_state] with an earlier timestamp, and the
    history is no longer in timestamp order. *)
Lemma history_out_of_order :
  exists o,
    objects (self toy (toy_run short_step_config [["ImagingTest"; "FollowUpVisit"]])) !! 2%nat
      = Some o /\
    obj_type o = "Test" /\
    map (fun a => (at_name a, at_time a)) (drop 5 (obj_attributes o))
      = [("findings", 1754039700); ("result_state", 1754039400)] /\
    ~ StronglySorted Z.le (map at_time (obj_attributes o)).
Proof.
  eexists. split; [vm_compute; reflexivity|]. split; [reflexivity|].
  split; [reflexivity|]. simpl. intros H.
  do 5 (apply StronglySorted_inv in H as [H _]).
  apply StronglySorted_inv in H as [_ H]. apply Forall_inv in H. lia.
Qed.

(** C5, as stated, fails.  With a step of 10 minutes and half a second the
    rendered timestamps of three consecutive events are 600 and then 601
    seconds apart: no single step separates every consecutive pair. *)
Lemma timestamps_not_equidistant :
  sampled_step toy (toy_builder odd_step_config) = 600500000 /\
  exists e1 e2 e3,
    events (self toy (toy_run odd_step_config
                        [["OutpatientRegistration"; "InitialVisit"; "Discharge"]]))
      = [e1; e2; e3] /\
    ev_time e2 - ev_time e1 = 600 /\
    ev_time e3 - ev_time e2 = 601.
Proof.
  split; [reflexivity|]. eexists _, _, _. split; [vm_compute; reflexivity|].
  split; reflexivity.
Qed.

(** C4, as stated, fails for the lookup: on a builder with no objects,
    [_get_obj_attr] returns [None] for an unknown identifier and raises
    nothing. *)
Lemma lookup_of_unknown_id_returns_none :
  ("pat-999" ∉ ids (objects (self toy (toy_builder default_config)))) /\
  _get_obj_attr toy "pat-999" "sex" (toy_builder default_config)
    = (Ok VNone, toy_builder default_config) /\
  forall e, (_get_obj_attr toy "pat-999" "sex" (toy_builder default_config)).1 <> Raise e.
Proof.
  split; [apply not_elem_of_nil|]. split; [reflexivity|]. intros e. discriminate.
Qed.

Lemma dangling_reference_witness :
  ("pat-999" ∉ ids (objects (self toy (toy_builder default_config)))) /\
  (_append_attr toy "pat-999" "sex" 0 (VStr "F") (toy_builder default_config)
     = (Raise (KeyError ("Object " +:+ "pat-999" +:+ " not found")),
        toy_builder default_config) /\
   _get_obj_attr toy "pat-999" "sex" (toy_builder default_config)
     = (Ok VNone, toy_builder default_config)).
Proof.
  split; [apply not_elem_of_nil|].
  apply (dangling_reference toy (toy_builder default_config) "pat-999" "sex" 0 (VStr "F")).
  apply not_elem_of_nil.
Defined.

Lemma unknown_label_aborts_witness :
  Exists (Exists (fun act => known act = false))
         [["OutpatientRegistration"; "XRay"; "Discharge"]] /\
  exists done pre bad post rest,
    let p0 := new_builder toy default_config 0%nat tt in
    let traces := [["OutpatientRegistration"; "XRay"; "Discharge"]] in
    let error := ValueError ("Unknown activity label: " +:+ bad) in
    let cut := map (map label) (done ++ [pre]) in
    traces = map (map label) done ++ (map label pre ++ bad :: post) :: rest /\
    known bad = false /\
    (add_traces toy traces p0).1 = Raise error /\
    generate toy default_config traces 0%nat tt = Raise error /\
    (add_traces toy cut p0).1 = Ok tt /\
    events (self toy (add_traces toy traces p0).2) = events (self toy (add_traces toy cut p0).2) /\
    objects (self toy (add_traces toy traces p0).2) = objects (self toy (add_traces toy cut p0).2) /\
    length (events (self toy (add_traces toy traces p0).2))
      = (length (concat done) + length pre)%nat.
Proof.
  assert (Exists (Exists (fun act => known act = false))
                 [["OutpatientRegistration"; "XRay"; "Discharge"]]) as H.
  { apply Exists_cons_hd, Exists_cons_tl, Exists_cons_hd. reflexivity. }
  split; [exact H|].
  exact (unknown_label_aborts toy default_config _ 0%nat tt H).
Defined.



(** The FollowUpVisit of that trace, evaluated: the two Tests end with the
    entry "Reviewed", the Patient and the Encounter do not. *)
Example followup_scenario :
  map (fun o => (obj_id o, current_value o "result_state"))
      (objects (self toy (toy_run default_config
                            [["InitialVisit"; "ImagingTest"; "LabTest"; "FollowUpVisit"]])))
  = [("pat-001", VNone); ("enc-001", VNone);
     ("test-001-1", VStr "Reviewed"); ("test-001-2", VStr "Reviewed")].
Proof. vm_compute. reflexivity. Qed.

(** The scenario of the unknown label, evaluated. *)
Example xray_scenario :
  generate toy default_config [["OutpatientRegistration"; "XRay"; "Discharge"]] 0%nat tt
    = Raise (ValueError "Unknown activity label: XRay") /\
  length (events (self toy (toy_run default_config
                              [["OutpatientRegistration"; "XRay"; "Discharge"]]))) = 1%nat.
Proof. split; vm_compute; reflexivity. Qed.

(** Reseeding is what makes runs reproducible: replaying on builders whose
    [random] state differs gives different logs. *)
Example ambient_state_shows_without_reseeding :
  let replayed r :=
    map ev_attributes
        (events (self toy (add_traces toy [["InitialVisit"]]
                   {| self := initial_fields default_config;
                      random_st := r : rng_state toy; np_random_st := tt |}).2)) in
  replayed 0%nat <> replayed 1%nat.
Proof. vm_compute. discriminate. Qed.

(** * The utility functions on their own *)

Section Utilities.

Variable G : Generators.
Implicit Types p : Process G.

(** The last object carrying an identifier splits the collection. *)
Lemma split_last_id oid l :
  oid ∈ ids l -> exists l1 o l2, l = l1 ++ o :: l2 /\ obj_id o = oid /\ oid ∉ ids l2.
Proof.
  intros H. destruct (upd_obj_is_Some oid (fun o => o) l H) as [l' Hu].
  apply upd_obj_shape in Hu as (l1 & o & l2 & -> & _ & Hid & Hn). by exists l1, o, l2.
Qed.

Lemma find_obj_last oid l1 o l2 :
  obj_id o = oid -> oid ∉ ids l2 -> find_obj oid (l1 ++ o :: l2) = Some o.
Proof.
  intros Hid Hn. apply find_obj_None in Hn.
  by rewrite find_obj_app, find_obj_cons, Hn, Hid, String.eqb_refl.
Qed.

Lemma upd_obj_last oid f l1 o l2 :
  obj_id o = oid -> oid ∉ ids l2 ->
  upd_obj oid f (l1 ++ o :: l2) = Some (l1 ++ f o :: l2).
Proof.
  intros Hid Hn. unfold upd_obj.
  rewrite rev_app_distr. simpl. rewrite <- app_assoc, scan_update_app.
  assert (scan_update oid f (rev l2) = None) as ->.
  { apply scan_update_scan, scan_None. unfold ids. rewrite map_rev.
    rewrite list_elem_of_In, <- in_rev, <- list_elem_of_In. exact Hn. }
  simpl. rewrite Hid, String.eqb_refl. simpl.
  rewrite rev_app_distr. simpl. rewrite !rev_involutive.
  by rewrite <- app_assoc.
Qed.

Lemma append_attr_eq oid name time value p :
  _append_attr G oid name time value p =
  match upd_obj oid (add_attribute (attr name time value)) (objects (self G p)) with
  | Some l => (Ok tt, with_self (with_objects l (self G p)) p)
  | None => (Raise (not_found oid), p)
  end.
Proof.
  unfold _append_attr, upd_obj, bind, get_self. simpl. fold (attr name time value).
  destruct (scan_update oid _ (rev (objects (self G p)))); done.
Qed.

Lemma append_attr_last oid name time value p l1 o l2 :
  objects (self G p) = l1 ++ o :: l2 -> obj_id o = oid -> oid ∉ ids l2 ->
  _append_attr G oid name time value p =
  (Ok tt, with_self (with_objects (l1 ++ add_attribute (attr name time value) o :: l2)
                                  (self G p)) p).
Proof.
  intros Ho Hid Hn. rewrite append_attr_eq, Ho. by rewrite (upd_obj_last _ _ _ _ _ Hid Hn).
Qed.

Lemma append_attr_missing oid name time value p :
  oid ∉ ids (objects (self G p)) ->
  _append_attr G oid name time value p = (Raise (not_found oid), p).
Proof.
  intros Hn. rewrite append_attr_eq. unfold upd_obj.
  assert (scan_update oid (add_attribute (attr name time value)) (rev (objects (self G p)))
          = None) as ->; [|done].
  apply scan_update_scan. by apply find_obj_None.
Qed.

Lemma current_value_last o name h1 a h2 :
  obj_attributes o = h1 ++ a :: h2 -> at_name a = name -> name ∉ map at_name h2 ->
  current_value o name = at_value a.
Proof.
  intros Ho Ha Hn. unfold current_value. rewrite Ho.
  rewrite List.filter_app. simpl. rewrite Ha, String.eqb_refl.
  assert (List.filter (fun a0 => String.eqb (at_name a0) name) h2 = []) as ->.
  { clear -Hn. induction h2 as [|x h2 IH]; simpl; [done|].
    simpl in Hn. apply not_elem_of_cons in Hn as [Hx Hn].
    apply not_eq_sym, String.eqb_neq in Hx. rewrite Hx. by apply IH. }
  by rewrite last_snoc.
Qed.

Lemma current_value_absent o name :
  name ∉ map at_name (obj_attributes o) -> current_value o name = VNone.
Proof.
  intros Hn. unfold current_value.
  assert (List.filter (fun a0 => String.eqb (at_name a0) name) (obj_attributes o) = []) as ->;
    [|done].
  induction (obj_attributes o) as [|x h IH]; simpl; [done|].
  simpl in Hn. apply not_elem_of_cons in Hn as [Hx Hn].
  apply not_eq_sym, String.eqb_neq in Hx. rewrite Hx. by apply IH.
Qed.

Lemma current_value_other o name name' t v :
  name' <> name ->
  current_value (add_attribute (attr name t v) o) name' = current_value o name'.
Proof.
  intros Hne. unfold current_value. simpl. rewrite List.filter_app. simpl.
  apply String.eqb_neq in Hne. rewrite String.eqb_sym in Hne. rewrite Hne.
  by rewrite app_nil_r.
Qed.





End Utilities.

(** * Properties of the utility functions *)

Section UtilityTheorems.

Variable G : Generators.
Implicit Types p : Process G.

(** X1.  [_append_attr] writes to the object its reversed scan stops at: the
    last object of the collection that carries the identifier, also when
    earlier objects carry it too.  That object keeps its identifier and type
    and gains, at the end of its attribute history, the one entry with the
    given name, time and value; the objects before and after it, every other
    field of the builder and both random generators are as they were. *)
Theorem append_attr_changes_latest oid name time value p l1 o l2 :
  objects (self G p) = l1 ++ o :: l2 -> obj_id o = oid -> oid ∉ ids l2 ->
  exists p' o',
    _append_attr G oid name time value p = (Ok tt, p') /\
    objects (self G p') = l1 ++ o' :: l2 /\
    obj_id o' = obj_id o /\ obj_type o' = obj_type o /\
    obj_attributes o'
      = obj_attributes o ++ [ {| at_name := name; at_time := time; at_value := value |} ] /\
    cfg (self G p') = cfg (self G p) /\
    events (self G p') = events (self G p) /\
    object_relationships (self G p') = object_relationships (self G p) /\
    object_relationship_types (self G p') = object_relationship_types (self G p) /\
    _event_seq (self G p') = _event_seq (self G p) /\
    _obj_seq_by_type (self G p') = _obj_seq_by_type (self G p) /\
    _o2o_seq (self G p') = _o2o_seq (self G p) /\
    random_st G p' = random_st G p /\ np_random_st G p' = np_random_st G p.
Proof.
  intros Ho Hid Hn. eexists _, _.
  split; [exact (append_attr_last G _ _ _ _ _ _ _ _ Ho Hid Hn)|].
  simpl. by repeat split.
Qed.

(** X2.  Write, then read.  After [_append_attr] on an identifier the
    collection holds, [_get_obj_attr] returns the written value for that
    identifier and name; every other name of that identifier and every other
    identifier read as they did before the write. *)
Theorem get_after_append oid name time value p :
  oid ∈ ids (objects (self G p)) ->
  exists p',
    _append_attr G oid name time value p = (Ok tt, p') /\
    _get_obj_attr G oid name p' = (Ok value, p') /\
    (forall name', name' <> name ->
       (_get_obj_attr G oid name' p').1 = (_get_obj_attr G oid name' p).1) /\
    (forall oid' name', oid' <> oid ->
       (_get_obj_attr G oid' name' p').1 = (_get_obj_attr G oid' name' p).1).
Proof.
  intros Hin. destruct (split_last_id oid _ Hin) as (l1 & o & l2 & Ho & Hid & Hn).
  eexists. split; [by apply (append_attr_last G _ _ _ _ _ _ _ _ Ho Hid Hn)|].
  split; [|split].
  - rewrite get_obj_attr_eq. simpl.
    by rewrite (find_obj_last _ l1 _ l2), current_value_add.
  - intros name' Hne. rewrite !get_obj_attr_eq. simpl. rewrite Ho.
    rewrite (find_obj_last _ l1 _ l2), (find_obj_last _ l1 o l2) by done.
    by rewrite current_value_other.
  - intros oid' name' Hne. rewrite !get_obj_attr_eq. simpl. rewrite Ho.
    rewrite !find_obj_app, !find_obj_cons. simpl.
    destruct (find_obj oid' l2); [done|].
    rewrite Hid. apply not_eq_sym, String.eqb_neq in Hne. by rewrite Hne.
Qed.

(** X3.  [_get_obj_attr] reads the last object that carries the identifier
    and, of that object, the last entry of the name; when the object has no
    entry of that name the result is [None].  The call changes nothing. *)
Theorem get_obj_attr_reads_latest oid name p l1 o l2 :
  objects (self G p) = l1 ++ o :: l2 -> obj_id o = oid -> oid ∉ ids l2 ->
  (forall h1 a h2,
     obj_attributes o = h1 ++ a :: h2 -> at_name a = name -> name ∉ map at_name h2 ->
     _get_obj_attr G oid name p = (Ok (at_value a), p)) /\
  (name ∉ map at_name (obj_attributes o) ->
     _get_obj_attr G oid name p = (Ok VNone, p)).
Proof.
  intros Ho Hid Hn. rewrite get_obj_attr_eq, Ho, (find_obj_last _ l1 o l2) by done.
  split.
  - intros h1 a h2 Ha Hna Hnh. by rewrite (current_value_last _ _ _ _ _ Ha Hna Hnh).
  - intros Hna. by rewrite current_value_absent.
Qed.


(** X5.  [_append_obj_attrs] on an identifier the collection does not hold:
    with no triple it returns normally, the missing object unnoticed; with at
    least one it raises the [KeyError] of [_append_attr] at the first.  In
    both cases the process is left as it was. *)
Theorem append_obj_attrs_unknown oid triples p :
  oid ∉ ids (objects (self G p)) ->
  _append_obj_attrs G oid triples p =
  match triples with
  | [] => (Ok tt, p)
  | _ :: _ => (Raise (KeyError ("Object " +:+ oid +:+ " not found")), p)
  end.
Proof.
  intros Hn. destruct triples as [|[[n t] v] rest]; [done|].
  unfold _append_obj_attrs. simpl. unfold bind.
  by rewrite (append_attr_missing G _ _ _ _ _ Hn).
Qed.

End UtilityTheorems.

Lemma append_attr_changes_latest_witness :
  let o1 := {| obj_id := "a"; obj_type := "Test";
               obj_attributes := [attr "k" 1 (VInt 1)] |} in
  let o2 := {| obj_id := "a"; obj_type := "Dose";
               obj_attributes := [attr "k" 2 (VInt 2); attr "k" 3 (VInt 3)] |} in
  objects (self toy twins) = [o1] ++ o2 :: [] /\ obj_id o2 = "a" /\ ("a" ∉ ids []) /\
  exists p' o',
    _append_attr toy "a" "k" 4 (VInt 4) twins = (Ok tt, p') /\
    objects (self toy p') = [o1] ++ o' :: [] /\
    obj_attributes o'
      = obj_attributes o2 ++ [ {| at_name := "k"; at_time := 4; at_value := VInt 4 |} ].
Proof.
  intros o1 o2. split; [reflexivity|]. split; [reflexivity|].
  split; [apply not_elem_of_nil|].
  destruct (append_attr_changes_latest toy "a" "k" 4 (VInt 4) twins [o1] o2 []
              eq_refl eq_refl (not_elem_of_nil _))
    as (p' & o' & Hrun & Hobj & _ & _ & Hat & _).
  exists p', o'. split; [exact Hrun|]. split; [exact Hobj|exact Hat].
Defined.

Lemma get_after_append_witness :
  ("a" ∈ ids (objects (self toy twins))) /\
  exists p',
    _append_attr toy "a" "k" 4 (VInt 4) twins = (Ok tt, p') /\
    _get_obj_attr toy "a" "k" p' = (Ok (VInt 4), p') /\
    (forall name', name' <> "k" ->
       (_get_obj_attr toy "a" name' p').1 = (_get_obj_attr toy "a" name' twins).1) /\
    (forall oid' name', oid' <> "a" ->
       (_get_obj_attr toy oid' name' p').1 = (_get_obj_attr toy oid' name' twins).1).
Proof.
  assert ("a" ∈ ids (objects (self toy twins))) as H by (simpl; left).
  split; [exact H|]. exact (get_after_append toy "a" "k" 4 (VInt 4) twins H).
Defined.

Lemma get_obj_attr_reads_latest_witness :
  let o1 := {| obj_id := "a"; obj_type := "Test";
               obj_attributes := [attr "k" 1 (VInt 1)] |} in
  let o2 := {| obj_id := "a"; obj_type := "Dose";
               obj_attributes := [attr "k" 2 (VInt 2); attr "k" 3 (VInt 3)] |} in
  objects (self toy twins) = [o1] ++ o2 :: [] /\ obj_id o2 = "a" /\ ("a" ∉ ids []) /\
  (forall h1 a h2,
     obj_attributes o2 = h1 ++ a :: h2 -> at_name a = "k" -> "k" ∉ map at_name h2 ->
     _get_obj_attr toy "a" "k" twins = (Ok (at_value a), twins)) /\
  ("k" ∉ map at_name (obj_attributes o2) ->
     _get_obj_attr toy "a" "k" twins = (Ok VNone, twins)).
Proof.
  intros o1 o2. split; [reflexivity|]. split; [reflexivity|].
  split; [apply not_elem_of_nil|].
  apply (get_obj_attr_reads_latest toy "a" "k" twins [o1] o2 []);
    [reflexivity|reflexivity|apply not_elem_of_nil].
Defined.


Lemma append_obj_attrs_unknown_witness :
  ("b" ∉ ids (objects (self toy (toy_builder default_config)))) /\
  _append_obj_attrs toy "b" [("status", 5, VStr "closed")] (toy_builder default_config)
  = (Raise (KeyError ("Object " +:+ "b" +:+ " not found")), toy_builder default_config).
Proof.
  split; [apply not_elem_of_nil|].
  apply (append_obj_attrs_unknown toy "b" [("status", 5, VStr "closed")]
           (toy_builder default_config)).
  apply not_elem_of_nil.
Defined.

(** * Outcomes with exceptions: the rules *)

Section Outcomes.

Variable G : Generators.
Implicit Types p : Process G.

Lemma run_ret {A} (a : A) Q E p : Q a p -> run (ret G a) Q E p.
Proof. done. Qed.

Lemma run_raise {A} e (Q : A -> Process G -> Prop) E p : E e p -> run (raise G e) Q E p.
Proof. done. Qed.

Lemma run_bind {A B} (m : M G A) (k : A -> M G B) Q E p :
  run m (fun a p' => run (k a) Q E p') E p -> run (bind G m k) Q E p.
Proof. unfold run, bind. destruct (m p) as [[a|e] p']; done. Qed.

Lemma run_mono {A} (m : M G A) (Q Q' : A -> Process G -> Prop) (E E' : Exn -> Process G -> Prop) p :
  run m Q E p -> (forall a p', Q a p' -> Q' a p') -> (forall e p', E e p' -> E' e p') ->
  run m Q' E' p.
Proof. unfold run. destruct (m p) as [[a|e] p']; auto. Qed.

Lemma run_outcome {A} (m : M G A) (Q : A -> Process G -> Prop) E p :
  run m Q E p ->
  match (m p).1 with
  | Ok a => Q a (m p).2
  | Raise e => E e (m p).2
  end.
Proof. unfold run. destruct (m p) as [[a|e] p']; done. Qed.

Lemma run_get_self Q E p : Q (self G p) p -> run (get_self G) Q E p.
Proof. done. Qed.

Lemma run_random_choice {A} (x : A) xs Q E p b :
  self G p = b ->
  (forall v p', self G p' = b -> v ∈ x :: xs -> Q v p') ->
  run (random_choice G x xs) Q E p.
Proof.
  intros Hb HQ. unfold run, random_choice.
  destruct (randbelow G _ _) as [k r]. apply HQ; [done|].
  apply list_elem_of_In, nth_In.
  change (length (x :: xs)) with (S (length xs)). apply Nat.mod_upper_bound. lia.
Qed.

Lemma run_random_randint lo hi Q E p b :
  self G p = b -> lo <= hi ->
  (forall v p', self G p' = b -> lo <= v <= hi -> Q v p') ->
  run (random_randint G lo hi) Q E p.
Proof.
  intros Hb Hle HQ. unfold run, random_randint.
  destruct (randbelow G _ _) as [k r]. apply HQ; [done|].
  pose proof (Nat.mod_upper_bound k (Z.to_nat (hi - lo + 1))). lia.
Qed.

Lemma run_random_random Q E p b :
  self G p = b -> (forall v p', self G p' = b -> Q v p') -> run (random_random G) Q E p.
Proof.
  intros Hb HQ. unfold run, random_random. destruct (random_float G _) as [k r]. by apply HQ.
Qed.

Lemma run_np_random_normal mean std Q E p b :
  self G p = b -> (forall v p', self G p' = b -> Q v p') ->
  run (np_random_normal G mean std) Q E p.
Proof.
  intros Hb HQ. unfold run, np_random_normal. destruct (np_normal G _ _ _) as [k r].
  by apply HQ.
Qed.

Lemma run_new_event_id Q E p b :
  self G p = b ->
  (forall p', self G p' = with_event_seq (S (_event_seq b)) b ->
              Q (event_id (_event_seq b)) p') ->
  run (_new_event_id G) Q E p.
Proof. intros <- HQ. by apply HQ. Qed.

Lemma run_new_object_id ty Q E p b :
  self G p = b ->
  (forall p',
      self G p' = with_obj_seq (<[ty := S (next_number b ty)]> (_obj_seq_by_type b)) b ->
      Q (object_id (cfg b) ty (next_number b ty)) p') ->
  run (_new_object_id G ty) Q E p.
Proof. intros <- HQ. by apply HQ. Qed.

Lemma run_append_event e Q E p b :
  self G p = b ->
  (forall p', self G p' = with_events (events b ++ [e]) b -> Q tt p') ->
  run (append_event G e) Q E p.
Proof. intros <- HQ. by apply HQ. Qed.

Lemma run_append_object o Q E p b :
  self G p = b ->
  (forall p', self G p' = with_objects (objects b ++ [o]) b -> Q tt p') ->
  run (append_object G o) Q E p.
Proof. intros <- HQ. by apply HQ. Qed.

Lemma run_get_obj_attr oid name Q E p b :
  self G p = b ->
  Q (match find_obj oid (objects b) with
     | Some o => current_value o name
     | None => VNone
     end) p ->
  run (_get_obj_attr G oid name) Q E p.
Proof. intros <- HQ. unfold run. by rewrite get_obj_attr_eq. Qed.

Lemma run_append_attr oid name time value Q E p b :
  self G p = b ->
  (forall p' l, upd_obj oid (add_attribute (attr name time value)) (objects b) = Some l ->
                oid ∈ ids (objects b) ->
                self G p' = with_objects l b -> Q tt p') ->
  (oid ∉ ids (objects b) -> E (not_found oid) p) ->
  run (_append_attr G oid name time value) Q E p.
Proof.
  intros <- HQ HE. unfold run. rewrite append_attr_eq.
  destruct (upd_obj oid _ (objects (self G p))) as [l|] eqn:Hu.
  - apply (HQ _ l); [done| |done].
    apply upd_obj_shape in Hu as (l1 & o & l2 & -> & _ & <- & _).
    rewrite ids_app. apply elem_of_app. right. simpl. left.
  - apply HE. unfold upd_obj in Hu.
    destruct (scan_update oid _ (rev (objects (self G p)))) eqn:Hs; [done|].
    apply scan_update_scan in Hs. by apply find_obj_None.
Qed.

Lemma run_new_rel rtype time src tgt Q E p b :
  self G p = b ->
  (forall p',
      self G p' = with_relationships
                    (object_relationships b ++
                       [ {| rel_id := o2o_id (_o2o_seq b); rel_type := rtype;
                            rel_time := iso time; sourceObject := src;
                            targetObject := tgt; rel_attributes := [] |} ])
                    (with_o2o_seq (S (_o2o_seq b)) b) ->
      Q tt p') ->
  run (new_rel G rtype time src tgt) Q E p.
Proof. intros <- HQ. by apply HQ. Qed.

(** A loop keeps what each of its rounds keeps. *)
Lemma run_for_each {A} (f : A -> M G unit) (l : list A) (I : Process G -> Prop)
      (Q : unit -> Process G -> Prop) E p :
  I p ->
  (forall x p0, x ∈ l -> I p0 -> run (f x) (fun _ p1 => I p1) E p0) ->
  (forall p', I p' -> Q tt p') ->
  run (for_each G f l) Q E p.
Proof.
  intros HI Hf HQ. revert p HI. induction l as [|x l IH]; intros p HI; simpl.
  - by apply HQ.
  - apply run_bind. eapply run_mono; [apply (Hf x p); [left|done]| |done].
    intros u p1 HI1. apply IH; [|done]. intros y p0 Hy. apply Hf. by right.
Qed.

End Outcomes.

Ltac run_prim lem :=
  match goal with
  | H : self _ ?p = _ |- run _ _ _ ?p =>
      eapply lem; [exact H | clear H; intros ? H]
  end.

Ltac run_sample lem :=
  match goal with
  | H : self _ ?p = _ |- run _ _ _ ?p =>
      eapply lem; [exact H | clear H; intros ? ? H]
  end.

Ltac run_draw lem :=
  match goal with
  | H : self _ ?p = _ |- run _ _ _ ?p =>
      eapply lem; [exact H | clear H; intros ? ? H ?]
  end.

Ltac run_step :=
  cbv beta iota;
  lazymatch goal with
  | |- run (bind _ _ _) _ _ _ => apply run_bind
  | |- run (ret _ _) _ _ _ => apply run_ret
  | |- run (get_self _) _ _ _ => apply run_get_self
  | |- run (_get_obj_attr _ _ _) _ _ _ =>
      match goal with
      | H : self _ ?p = _ |- run _ _ _ ?p => eapply run_get_obj_attr; [exact H|]
      end
  | |- run (random_choice _ _ _) _ _ _ => run_draw run_random_choice
  | |- run (random_randint _ _ _) _ _ _ =>
      match goal with
      | H : self _ ?p = _ |- run _ _ _ ?p =>
          eapply run_random_randint; [exact H | lia | clear H; intros ? ? H ?]
      end
  | |- run (random_random _) _ _ _ => run_sample run_random_random
  | |- run (np_random_normal _ _ _) _ _ _ => run_sample run_np_random_normal
  | |- run (_new_event_id _) _ _ _ => run_prim run_new_event_id
  | |- run (_new_object_id _ _) _ _ _ => run_prim run_new_object_id
  | |- run (append_event _ _) _ _ _ => run_prim run_append_event
  | |- run (append_object _ _) _ _ _ => run_prim run_append_object
  | |- run (new_rel _ _ _ _ _) _ _ _ => run_prim run_new_rel
  end.

(** * What every call keeps *)

Section Loops.

Variable G : Generators.
Implicit Types p : Process G.

(** The loop of a FollowUpVisit: one [_append_attr] per identifier. *)
Lemma run_mark_all name time value oids Q E p b :
  self G p = b ->
  (forall p' l, marks (add_attribute (attr name time value)) oids (objects b) l ->
                Forall (fun i => i ∈ ids (objects b)) oids ->
                self G p' = with_objects l b -> Q tt p') ->
  (forall p' l oid, oid ∈ oids -> oid ∉ ids l -> ids l = ids (objects b) ->
                    Forall2 extended (objects b) l ->
                    self G p' = with_objects l b -> E (not_found oid) p') ->
  run (for_each G (fun i => _append_attr G i name time value) oids) Q E p.
Proof.
  revert p b Q. induction oids as [|oid oids IH]; intros p b Q Hb HQ HE; simpl.
  - apply (HQ p (objects b)); [constructor|constructor|]. rewrite Hb. by destruct b.
  - apply run_bind. eapply run_append_attr; [exact Hb| |].
    + intros p1 l1 Hu Hin H1.
      assert (ids l1 = ids (objects b)) as Hids.
      { apply upd_obj_shape in Hu as (x1 & o & x2 & -> & -> & _).
        by rewrite !ids_app. }
      assert (Forall2 extended (objects b) l1) as Hext.
      { eapply upd_obj_Forall2; [| |exact Hu].
        - intros o. repeat split. reflexivity.
        - intros o _. repeat split. simpl. by apply prefix_app_r. }
      eapply (IH p1 (with_objects l1 b)); [done| |].
      * intros p' l Hm Hall H'. apply (HQ p' l).
        -- by econstructor.
        -- constructor; [done|]. simpl in Hall. by rewrite Hids in Hall.
        -- exact H'.
      * intros p' l oid' Hin' Hn Hids' Hext' H'. apply (HE p' l oid').
        -- by right.
        -- done.
        -- simpl in Hids'. by rewrite Hids'.
        -- simpl in Hext'. clear -Hext Hext'.
           revert l Hext'. induction Hext as [|o o1 l0 l1 H01 _ IH]; intros l H12.
           ++ done.
           ++ inversion H12 as [|? o2 ? l2 H12' Hrest]; subst. constructor; [|by apply IH].
              destruct H01 as (? & ? & ?), H12' as (? & ? & ?).
              repeat split; [congruence|congruence|by etrans].
        -- exact H'.
    + intros Hn. apply (HE p (objects b) oid); [left|done|done| |].
      * apply Forall_Forall2_diag, Forall_forall. intros o _. repeat split. reflexivity.
      * rewrite Hb. by destruct b.
Qed.

End Loops.

(** ** Continuation of the collections *)

Lemma extended_refl o : extended o o.
Proof. by repeat split. Qed.

Lemma extended_trans o1 o2 o3 : extended o1 o2 -> extended o2 o3 -> extended o1 o3.
Proof.
  intros (? & ? & ?) (? & ? & ?). repeat split; [congruence|congruence|by etrans].
Qed.

Lemma extended_all_refl l : Forall2 extended l l.
Proof. apply Forall_Forall2_diag, Forall_forall. intros o _. apply extended_refl. Qed.

Lemma extended_all_trans l1 l2 l3 :
  Forall2 extended l1 l2 -> Forall2 extended l2 l3 -> Forall2 extended l1 l3.
Proof.
  intros H12. revert l3. induction H12 as [|o1 o2 l1 l2 H _ IH]; intros l3 H23.
  - by inversion H23.
  - inversion H23; subst. constructor; [by eapply extended_trans|by apply IH].
Qed.

Lemma obj_cont_refl l : obj_cont l l.
Proof. exists l, []. split; [by rewrite app_nil_r|apply extended_all_refl]. Qed.

Lemma obj_cont_trans l1 l2 l3 : obj_cont l1 l2 -> obj_cont l2 l3 -> obj_cont l1 l3.
Proof.
  intros (k1 & n1 & -> & H1) (k2 & n2 & -> & H2).
  apply Forall2_app_inv_l in H2 as (k2a & k2b & Ha & Hb & ->).
  exists k2a, (k2b ++ n2). split; [by rewrite <- app_assoc|].
  by eapply extended_all_trans.
Qed.

Lemma obj_cont_snoc l o : obj_cont l (l ++ [o]).
Proof. exists l, [o]. split; [done|apply extended_all_refl]. Qed.

Lemma obj_cont_extended l l' : Forall2 extended l l' -> obj_cont l l'.
Proof. intros H. exists l', []. split; [by rewrite app_nil_r|done]. Qed.

Lemma upd_obj_extended oid a l l' :
  upd_obj oid (add_attribute a) l = Some l' -> Forall2 extended l l'.
Proof.
  apply upd_obj_Forall2; [apply extended_refl|].
  intros o _. repeat split. simpl. by apply prefix_app_r.
Qed.

Lemma marks_extended a oids l l' :
  marks (add_attribute a) oids l l' -> Forall2 extended l l'.
Proof.
  induction 1 as [l|oid oids l l1 l2 Hu _ IH]; [apply extended_all_refl|].
  eapply extended_all_trans; [by eapply upd_obj_extended|done].
Qed.

Lemma upd_obj_ids oid a l l' : upd_obj oid (add_attribute a) l = Some l' -> ids l' = ids l.
Proof.
  intros Hu. apply upd_obj_shape in Hu as (x1 & o & x2 & -> & -> & _). by rewrite !ids_app.
Qed.

Lemma marks_ids a oids l l' : marks (add_attribute a) oids l l' -> ids l' = ids l.
Proof.
  induction 1 as [l|oid oids l l1 l2 Hu _ IH]; [done|].
  rewrite IH. by eapply upd_obj_ids.
Qed.

(** ** Numbering *)

Lemma numbering_snoc {A} (f : A -> string) (g : nat -> string) l x :
  map f l = map g (seq 1 (length l)) -> f x = g (S (length l)) ->
  map f (l ++ [x]) = map g (seq 1 (length (l ++ [x]))).
Proof.
  intros Hl Hx. rewrite length_app. simpl. rewrite Nat.add_1_r, seq_S, !map_app.
  simpl. by rewrite Hl, Hx.
Qed.

Lemma numbering_nodup (g : nat -> string) n :
  (forall j k, g j = g k -> j = k) -> NoDup (map g (seq 1 n)).
Proof.
  intros Hg. apply NoDup_fmap_2; [|apply NoDup_seq]. intros j k. apply Hg.
Qed.

Lemma event_id_inj j k : event_id j = event_id k -> j = k.
Proof. unfold event_id. intros H. apply append_inj_l in H. by apply pretty_nat_inj in H. Qed.

Lemma o2o_id_inj j k : o2o_id j = o2o_id k -> j = k.
Proof. unfold o2o_id. intros H. apply append_inj_l in H. by apply pretty_nat_inj in H. Qed.

Lemma keeps_refl b : keeps b b.
Proof.
  split; [|done]. split; try done.
  - exists []. by rewrite app_nil_r.
  - exists []. by rewrite app_nil_r.
  - apply obj_cont_refl.
Qed.

Lemma keeps_trans b1 b2 b3 : keeps b1 b2 -> keeps b2 b3 -> keeps b1 b3.
Proof.
  intros [[C1 T1 (e1 & E1 & F1) (r1 & R1 & G1) O1] N1] [[C2 T2 (e2 & E2 & F2) (r2 & R2 & G2) O2] N2].
  split; [|auto]. split.
  - congruence.
  - congruence.
  - exists (e1 ++ e2). rewrite E2, E1, <- app_assoc. split; [done|by apply Forall_app].
  - exists (r1 ++ r2). rewrite R2, R1, <- app_assoc. split; [done|by apply Forall_app].
  - by eapply obj_cont_trans.
Qed.

(** * The handlers keep the log *)

Ltac run_open :=
  cbv beta iota zeta;
  lazymatch goal with
  | |- run (_create_test _ _ _ _) _ _ _ => unfold _create_test
  | |- run (_create_diagnosis _ _ _) _ _ _ => unfold _create_diagnosis
  | |- run (_create_plan _ _ _ _) _ _ _ => unfold _create_plan
  | |- run (_create_medication _ _ _ _) _ _ _ => unfold _create_medication
  | |- run (_create_patient _ _ _) _ _ _ => unfold _create_patient
  | |- run (_create_visit _ _ _) _ _ _ => unfold _create_visit
  | |- run (ensure_diagnosis _ _ _) _ _ _ => unfold ensure_diagnosis
  | |- run (ensure_plan _ _ _ _) _ _ _ => unfold ensure_plan
  | |- run (_append_obj_attrs _ _ _) _ _ _ => unfold _append_obj_attrs; cbn [for_each]
  | |- run (match ?x with Some _ => _ | None => _ end) _ _ _ =>
      let Heq := fresh "Heq" in destruct x eqn:Heq; simpl in Heq
  end.

Ltac run_touch E :=
  cbv beta iota zeta;
  lazymatch goal with
  | |- run (_append_attr _ _ _ _ _) _ _ _ =>
      match goal with
      | H : self _ ?p = _ |- run _ _ _ ?p =>
          let Hu := fresh "Hu" in let Hin := fresh "Hin" in
          eapply run_append_attr;
          [ exact H | clear H; intros ? ? Hu Hin H; simpl in H, Hu, Hin | intros Hin; E ]
      end
  | |- run (for_each _ (fun i => _append_attr _ i _ _ _) _) _ _ _ =>
      match goal with
      | H : self _ ?p = _ |- run _ _ _ ?p =>
          let Hm := fresh "Hm" in let Hall := fresh "Hall" in
          eapply run_mark_all;
          [ exact H | clear H; intros ? ? Hm Hall H; simpl in H, Hm, Hall
          | let Hin := fresh "Hin" in let Hn := fresh "Hn" in
            let Hids := fresh "Hids" in let Hext := fresh "Hext" in
            intros ? ? ? Hin Hn Hids Hext ?; E ]
      end
  end.

Ltac run_all E := repeat first [ run_step | run_open | run_touch E ].

(** The object collection at the end of a call continues the one at its
    start. *)
Ltac solve_obj_cont :=
  repeat first
    [ apply obj_cont_refl
    | eapply obj_cont_trans; [|apply obj_cont_snoc]
    | match goal with
      | Hu : upd_obj _ _ ?l = Some ?l' |- obj_cont _ ?l' =>
          eapply obj_cont_trans;
          [|eapply obj_cont_extended, upd_obj_extended; exact Hu]
      | Hm : marks _ _ ?l ?l' |- obj_cont _ ?l' =>
          eapply obj_cont_trans;
          [|eapply obj_cont_extended, marks_extended; exact Hm]
      | Hx : Forall2 extended ?l ?l' |- obj_cont _ ?l' =>
          eapply obj_cont_trans; [|eapply obj_cont_extended; exact Hx]
      end ].

Ltac solve_conforms :=
  first
    [ left; reflexivity
    | right; eexists; split; [reflexivity|]; repeat constructor ].

Ltac solve_numbered :=
  let N := fresh "N" in
  intros N; destruct N as [N1 N2 N3 N4]; split; simpl;
  [ first [ exact N1 | rewrite N1, length_app; simpl; lia ]
  | first [ exact N2 | apply numbering_snoc; [exact N2 | simpl; by rewrite N1] ]
  | first [ exact N3 | rewrite N3, length_app; simpl; lia ]
  | first [ exact N4 | apply numbering_snoc; [exact N4 | simpl; by rewrite N3] ] ].

Ltac solve_keeps :=
  match goal with
  | H : self _ ?p = _ |- keeps _ (self _ ?p) =>
      rewrite H; split;
      [ split; simpl;
        [ reflexivity | reflexivity
        | first [ exists []; split; [by rewrite app_nil_r|constructor]
                | eexists [_]; split; [reflexivity|];
                  constructor; [solve_conforms|constructor] ]
        | first [ exists []; split; [by rewrite app_nil_r|constructor]
                | eexists [_]; split; [reflexivity|];
                  constructor; [|constructor];
                  split; [apply (bool_decide_unpack _); reflexivity|reflexivity] ]
        | solve_obj_cont ]
      | solve_numbered ]
  end.

Section Keeping.

Variable G : Generators.
Implicit Types p : Process G.

Ltac handler_proof :=
  intros p b Hb;
  run_all ltac:(split; [solve_keeps|by eexists]).

Lemma registration_keeps ctx t : handler_keeps G (_emit_event_registration G ctx t).
Proof. unfold _emit_event_registration. handler_proof. solve_keeps. Qed.

Lemma initial_consult_keeps ctx t : handler_keeps G (_emit_event_initial_consult G ctx t).
Proof. unfold _emit_event_initial_consult. handler_proof. solve_keeps. Qed.

Lemma imaging_keeps ctx t : handler_keeps G (_emit_event_imaging G ctx t).
Proof. unfold _emit_event_imaging. handler_proof. solve_keeps. Qed.

Lemma lab_keeps ctx t : handler_keeps G (_emit_event_lab G ctx t).
Proof. unfold _emit_event_lab. handler_proof. solve_keeps. Qed.

Lemma followup_keeps ctx t : handler_keeps G (_emit_event_followup G ctx t).
Proof. unfold _emit_event_followup. handler_proof. solve_keeps. Qed.

Lemma mdt_keeps ctx t : handler_keeps G (_emit_event_mdt G ctx t).
Proof. unfold _emit_event_mdt. handler_proof; solve_keeps. Qed.

Lemma medication_keeps ctx t : handler_keeps G (_emit_event_medication G ctx t).
Proof. unfold _emit_event_medication. handler_proof; solve_keeps. Qed.

Lemma payment_keeps ctx t : handler_keeps G (_emit_event_payment G ctx t).
Proof. unfold _emit_event_payment. handler_proof. solve_keeps. Qed.

Lemma discharge_keeps ctx t : handler_keeps G (_emit_event_discharge G ctx t).
Proof. unfold _emit_event_discharge. handler_proof. solve_keeps. Qed.

Lemma handlers_keep a ctx t : handler_keeps G (handler G a ctx t).
Proof.
  destruct a; simpl;
    [ apply registration_keeps | apply initial_consult_keeps | apply imaging_keeps
    | apply lab_keeps | apply followup_keeps | apply mdt_keeps | apply medication_keeps
    | apply payment_keeps | apply discharge_keeps ].
Qed.

Lemma dispatch_keeps ctx t act p b :
  self G p = b ->
  run (dispatch G ctx t act) (fun _ p' => keeps b (self G p'))
      (fun e p' => keeps b (self G p') /\ raised_ok e) p.
Proof.
  intros Hb. destruct (known act) eqn:Hk.
  - apply known_label in Hk as [a ->]. rewrite dispatch_label.
    eapply run_mono; [by apply handlers_keep|done|].
    intros e p' [? ?]. split; [done|by left].
  - unfold run. rewrite (dispatch_unknown G _ _ _ _ Hk). rewrite Hb.
    split; [apply keeps_refl|]. right. by exists act.
Qed.

Lemma replay_keeps step acts : forall ctx t p b,
  self G p = b ->
  run (replay G ctx t step acts) (fun _ p' => keeps b (self G p'))
      (fun e p' => keeps b (self G p') /\ raised_ok e) p.
Proof.
  induction acts as [|act acts IH]; intros ctx t p b Hb; simpl.
  - apply run_ret. rewrite Hb. apply keeps_refl.
  - apply run_bind. eapply run_mono; [by apply dispatch_keeps| |done].
    intros ctx' p' Hk. eapply run_mono; [by apply (IH ctx' _ p' (self G p'))| |].
    + intros u2 p2 Hk2. cbv beta in *; by eapply keeps_trans.
    + intros e p2 [Hk2 He]. split; [cbv beta in *; by eapply keeps_trans|done].
Qed.

Lemma init_keeps i t p b :
  self G p = b ->
  run (_init_trace_objects G i t) (fun _ p' => keeps b (self G p')) (fun _ _ => False) p.
Proof. intros Hb. unfold _init_trace_objects. run_all idtac. solve_keeps. Qed.

Lemma new_rel_keeps rtype time src tgt p b :
  rtype ∈ map o2o_name DEFAULT_O2O_TYPES ->
  self G p = b ->
  run (new_rel G rtype time src tgt) (fun _ p' => keeps b (self G p')) (fun _ _ => False) p.
Proof.
  intros Hty Hb. run_step. rewrite Hb. split.
  - split; simpl; [done|done| | |apply obj_cont_refl].
    + exists []. by rewrite app_nil_r.
    + eexists [_]. split; [done|]. constructor; [by split|constructor].
  - solve_numbered.
Qed.

Lemma emit_o2o_keeps ctx p b :
  self G p = b ->
  run (_emit_o2o G ctx) (fun _ p' => keeps b (self G p')) (fun _ _ => False) p.
Proof.
  intros Hb. unfold _emit_o2o. apply run_bind.
  eapply run_mono; [apply (new_rel_keeps _ _ _ _ p b); [|done]| |done].
  { apply (bool_decide_unpack _). reflexivity. }
  intros u1 p1 Hk. cbv beta.
  destruct (plan_id ctx) as [plan|]; [|by apply run_ret].
  destruct (truthy plan && nonempty (medication_ids ctx)); [|by apply run_ret].
  apply (run_for_each G _ _ (fun p' => keeps b (self G p'))); [done| |done].
  intros med p0 _ Hk0.
  eapply run_mono; [apply (new_rel_keeps _ _ _ _ p0 (self G p0)); [|done]| |done].
  { apply (bool_decide_unpack _). reflexivity. }
  intros u2 p2 Hk2. cbv beta in *; by eapply keeps_trans.
Qed.

Lemma add_single_trace_keeps i acts p b :
  self G p = b ->
  run (_add_single_trace G i acts) (fun _ p' => keeps b (self G p'))
      (fun e p' => keeps b (self G p') /\ raised_ok e) p.
Proof.
  intros Hb. unfold _add_single_trace. run_step. run_step. run_step. run_step.
  apply run_bind. eapply run_mono; [by apply init_keeps| |done].
  intros ctx p1 Hk1. cbv beta. apply run_bind.
  eapply run_mono; [by apply (replay_keeps _ _ _ _ p1 (self G p1))| |].
  - intros ctx' p2 Hk2. eapply run_mono; [by apply (emit_o2o_keeps _ p2 (self G p2))| |done].
    intros u3 p3 Hk3. cbv beta in *. rewrite <- Hb in *. eauto using keeps_trans.
  - intros e p2 [Hk2 He]. split; [|done]. cbv beta in *. rewrite <- Hb in *. eauto using keeps_trans.
Qed.

Lemma add_traces_from_keeps traces : forall idx p b,
  self G p = b ->
  run (add_traces_from G idx traces) (fun _ p' => keeps b (self G p'))
      (fun e p' => keeps b (self G p') /\ raised_ok e) p.
Proof.
  induction traces as [|tr traces IH]; intros idx p b Hb; simpl.
  - apply run_ret. rewrite Hb. apply keeps_refl.
  - apply run_bind. eapply run_mono; [by apply add_single_trace_keeps| |done].
    intros u1 p1 Hk1. eapply run_mono; [by apply (IH _ p1 (self G p1))| |].
    + intros u2 p2 Hk2. cbv beta in *; by eapply keeps_trans.
    + intros e p2 [Hk2 He]. split; [cbv beta in *; by eapply keeps_trans|done].
Qed.

(** Whatever way [add_traces] ends, its final state keeps the log. *)
Lemma add_traces_keeps traces p :
  keeps (self G p) (self G (add_traces G traces p).2).
Proof.
  pose proof (add_traces_from_keeps traces 1 p (self G p) eq_refl) as H.
  unfold run in H. unfold add_traces.
  destruct (add_traces_from G 1 traces p) as [[[]|e] p']; simpl; [done|by destruct H].
Qed.

Lemma fresh_builder_numbered c r n : numbered (self G (new_builder G c r n)).
Proof. by split. Qed.

End Keeping.

(** * The log as a whole *)

Section LogTheorems.

Variable G : Generators.
Implicit Types p : Process G.

(** X6.  [add_traces] only appends.  From any builder, for any traces, and
    whether the call returns or raises: the events and the relationships it
    started with are a prefix of those it ends with; every object it started
    with is still there, at its position, with the same identifier and type
    and its attribute history extended at the end; the configuration and the
    relationship types are unchanged. *)
Theorem add_traces_only_appends traces p :
  let p' := (add_traces G traces p).2 in
  cfg (self G p') = cfg (self G p) /\
  object_relationship_types (self G p') = object_relationship_types (self G p) /\
  events (self G p) `prefix_of` events (self G p') /\
  object_relationships (self G p) `prefix_of` object_relationships (self G p') /\
  exists kept new,
    objects (self G p') = kept ++ new /\
    Forall2 (fun o o' => obj_id o' = obj_id o /\ obj_type o' = obj_type o /\
                         obj_attributes o `prefix_of` obj_attributes o')
            (objects (self G p)) kept.
Proof.
  destruct (add_traces_keeps G traces p) as [[C T (e & He & _) (r & Hr & _) O] _].
  cbv zeta. split; [done|]. split; [done|].
  split; [rewrite He; by apply prefix_app_r|].
  split; [rewrite Hr; by apply prefix_app_r|]. exact O.
Qed.

(** X7.  In a run from a fresh builder the events are named "e1", "e2", ...
    in the order of the log, so no two events share an identifier; the
    counter stands one past the last.  This holds for any traces and also
    when the run ends in an exception. *)
Theorem event_ids_count_up c traces r n :
  let b := self G (add_traces G traces (new_builder G c r n)).2 in
  map ev_id (events b) = map (fun k => "e" +:+ str k) (seq 1 (length (events b))) /\
  NoDup (map ev_id (events b)) /\
  _event_seq b = S (length (events b)).
Proof.
  destruct (add_traces_keeps G traces (new_builder G c r n)) as [_ N].
  destruct (N (fresh_builder_numbered G c r n)) as [N1 N2 _ _]. cbv zeta.
  split; [exact N2|]. split; [|exact N1].
  rewrite N2. apply numbering_nodup, event_id_inj.
Qed.

(** X8.  In a run from a fresh builder the object-to-object relationships are
    named "or1", "or2", ... in the order of the collection, so no two share
    an identifier; each has one of the two declared relationship types and no
    attributes. *)
Theorem relationship_ids_count_up c traces r n :
  let b := self G (add_traces G traces (new_builder G c r n)).2 in
  map rel_id (object_relationships b)
    = map (fun k => "or" +:+ str k) (seq 1 (length (object_relationships b))) /\
  NoDup (map rel_id (object_relationships b)) /\
  Forall (fun x => rel_type x ∈ ["Encounter-Patient"; "TreatmentPlan-Dose"] /\
                   rel_attributes x = [])
         (object_relationships b).
Proof.
  destruct (add_traces_keeps G traces (new_builder G c r n))
    as [[_ _ _ (new & Hr & Hok) _] N].
  destruct (N (fresh_builder_numbered G c r n)) as [_ _ _ N4]. cbv zeta.
  split; [exact N4|]. split; [rewrite N4; apply numbering_nodup, o2o_id_inj|].
  rewrite Hr. simpl. exact Hok.
Qed.

(** X9.  Every event [add_traces] appends is of type "MDT" or follows the
    default event schema: its type is declared there and it carries exactly
    the attributes declared for that type, in the declared order, each with a
    value of the declared Python type. *)
Theorem events_follow_schema traces p :
  exists new,
    events (self G (add_traces G traces p).2) = events (self G p) ++ new /\
    Forall (fun e => ev_type e = "MDT" \/ conforms DEFAULT_EVENT_TYPES e) new.
Proof.
  destruct (add_traces_keeps G traces p) as [[_ _ (new & He & Hok) _ _] _].
  by exists new.
Qed.

(** X10.  The schema parts of the exported document are the constructor's
    arguments, whatever the traces: [eventTypes] and [objectTypes] as given,
    and [objectRelationshipTypes] the [o2o_types] argument that
    [__post_init__] copied. *)
Theorem export_passes_schema_through c traces r n :
  match generate G c traces r n with
  | Ok doc =>
      doc_eventTypes doc = event_types c /\
      doc_objectTypes doc = object_types c /\
      doc_objectRelationshipTypes doc = o2o_types c
  | Raise _ => True
  end.
Proof.
  destruct (add_traces_keeps G traces (new_builder G c r n)) as [[C T _ _ _] _].
  unfold generate, bind.
  destruct (add_traces G traces (new_builder G c r n)) as [[[]|e] p']; [|done].
  simpl in *. by rewrite C, T.
Qed.

End LogTheorems.

(** * References resolve *)

Lemma obj_cont_ids l l' : obj_cont l l' -> ids l `prefix_of` ids l'.
Proof.
  intros (kept & new & -> & H). rewrite ids_app. exists (ids new). f_equal.
  induction H as [|o o' l l' (Hi & _) _ IH]; simpl; [done|]. by rewrite Hi, IH.
Qed.

Lemma resolved_mono l l' refs : obj_cont l l' -> resolved l refs -> resolved l' refs.
Proof.
  intros Hc Hr. eapply Forall_impl; [exact Hr|]. intros i Hi. simpl in *.
  destruct (obj_cont_ids _ _ Hc) as [rest ->]. apply elem_of_app. by left.
Qed.

Lemma resolved_app l r1 r2 : resolved l (r1 ++ r2) <-> resolved l r1 /\ resolved l r2.
Proof. apply Forall_app. Qed.

Lemma resolved_ctx objs ctx :
  resolved objs (ctx_ids ctx) <->
  patient_id ctx ∈ ids objs /\ visit_id ctx ∈ ids objs /\
  resolved objs (option_list (diagnosis_id ctx)) /\
  resolved objs (option_list (plan_id ctx)) /\
  resolved objs (medication_ids ctx) /\ resolved objs (test_ids ctx).
Proof.
  unfold ctx_ids, resolved. rewrite !Forall_cons, !Forall_app. tauto.
Qed.

Lemma event_refs_reviewed l q : map objectId (map (fun i => rel i q) l) = l.
Proof. induction l as [|x l IH]; simpl; [done|]. by rewrite IH. Qed.

(** The step shared by the handlers: the objects continue, one event whose
    references the new context holds is appended, and the new context
    resolves. *)
Lemma linked_step n k b b' ctx' e :
  linked n k b ->
  obj_cont (objects b) (objects b') ->
  events b' = events b ++ [e] ->
  object_relationships b' = object_relationships b ->
  resolved (objects b') (ctx_ids ctx') ->
  Forall (fun i => i ∈ ctx_ids ctx') (event_refs e) ->
  linked n k b' /\ resolved (objects b') (ctx_ids ctx').
Proof.
  intros [Ln Lk Le Lr] Hc He Hr Hctx Hrefs. split; [|done]. split.
  - rewrite He, length_app. lia.
  - by rewrite Hr.
  - rewrite He, drop_app_le by done. apply Forall_app. split.
    + eapply Forall_impl; [exact Le|]. intros e0. by apply resolved_mono.
    + constructor; [|constructor]. unfold resolved.
      eapply Forall_impl; [exact Hrefs|]. intros i Hi. simpl in Hi.
      unfold resolved in Hctx. rewrite Forall_forall in Hctx. by apply Hctx.
  - rewrite Hr. eapply Forall_impl; [exact Lr|]. intros r0. by apply resolved_mono.
Qed.

Lemma in_ctx_patient ctx i : i = patient_id ctx -> i ∈ ctx_ids ctx.
Proof. intros ->. left. Qed.

Lemma in_ctx_visit ctx i : i = visit_id ctx -> i ∈ ctx_ids ctx.
Proof. intros ->. right. left. Qed.

Lemma in_ctx_test ctx i : i ∈ test_ids ctx -> i ∈ ctx_ids ctx.
Proof. intros H. unfold ctx_ids. do 2 right. rewrite !elem_of_app. auto. Qed.

Lemma in_ctx_dose ctx i : i ∈ medication_ids ctx -> i ∈ ctx_ids ctx.
Proof. intros H. unfold ctx_ids. do 2 right. rewrite !elem_of_app. auto. Qed.

Lemma in_ctx_diagnosis ctx i : diagnosis_id ctx = Some i -> i ∈ ctx_ids ctx.
Proof.
  intros H. unfold ctx_ids. rewrite H. do 2 right. rewrite !elem_of_app. left. left.
Qed.

Lemma in_ctx_plan ctx i : plan_id ctx = Some i -> i ∈ ctx_ids ctx.
Proof.
  intros H. unfold ctx_ids. rewrite H. do 2 right. rewrite !elem_of_app. right. left. left.
Qed.

Ltac solve_in_ids :=
  simpl;
  first
    [ assumption
    | match goal with
      | H : resolved ?l ?r, Hin : ?i ∈ ?r |- ?i ∈ ids ?l =>
          exact (proj1 (Forall_forall _ _) H i Hin)
      | Heq : ?x = Some ?i, H : resolved ?l (option_list ?x) |- ?i ∈ ids ?l =>
          rewrite Heq in H; exact (Forall_inv H)
      | H : resolved ?l (option_list (Some ?i)) |- ?i ∈ ids ?l => exact (Forall_inv H)
      | Hu : upd_obj _ _ ?l = Some ?l' |- _ ∈ ids ?l' =>
          rewrite (upd_obj_ids _ _ _ _ Hu); solve_in_ids
      | Hm : marks _ _ ?l ?l' |- _ ∈ ids ?l' =>
          rewrite (marks_ids _ _ _ _ Hm); solve_in_ids
      | Hi : ids ?l' = ids ?l |- _ ∈ ids ?l' => rewrite Hi; solve_in_ids
      end
    | rewrite ids_app; apply elem_of_app;
      first [ right; simpl; apply list_elem_of_here | left; solve_in_ids ] ].

(** The new context resolves: its identifiers are those of the old one, which
    resolve in the continued collection, and those of the objects the handler
    created. *)
Ltac solve_ctx :=
  apply resolved_ctx; simpl;
  repeat match goal with
  | Heq : ?x = _ |- context [option_list ?x] => rewrite Heq
  end;
  simpl;
  repeat match goal with
  | |- _ /\ _ => split
  | |- resolved _ (_ ++ [_]) => apply resolved_app; split
  | |- resolved _ [_] => constructor; [|constructor]
  | |- resolved _ [] => constructor
  end;
  first
    [ solve_in_ids
    | match goal with
      | H : resolved ?l ?r |- resolved _ ?r =>
          apply (resolved_mono l); [solve_obj_cont|exact H]
      end ].

Ltac solve_refs :=
  unfold event_refs; simpl; rewrite ?map_app, ?event_refs_reviewed;
  repeat match goal with
  | |- Forall _ (_ :: _) => constructor
  | |- Forall _ [] => constructor
  end;
  try first
    [ eapply in_ctx_patient; reflexivity | eapply in_ctx_visit; reflexivity
    | apply in_ctx_test; simpl; rewrite elem_of_app; right; left
    | apply in_ctx_dose; simpl; rewrite elem_of_app; right; left
    | apply in_ctx_diagnosis; simpl; first [reflexivity|eassumption]
    | apply in_ctx_plan; simpl; first [reflexivity|eassumption]
    | apply Forall_forall; intros ? ?; by apply in_ctx_test ].

Ltac solve_linked L :=
  match goal with
  | H : self _ ?p = _ |- linked _ _ (self _ ?p) /\ resolved (objects (self _ ?p)) _ =>
      rewrite H;
      eapply linked_step;
      [ exact L | simpl; solve_obj_cont | reflexivity | reflexivity | solve_ctx | solve_refs ]
  end.

Ltac link_open Hc :=
  let P := fresh "Hpat" in let V := fresh "Hvis" in let D := fresh "Hdx" in
  let Pl := fresh "Hplan" in let M := fresh "Hmeds" in let T := fresh "Htests" in
  apply resolved_ctx in Hc as (P & V & D & Pl & M & T).

Ltac never_missing :=
  exfalso;
  match goal with
  | Hn : _ ∉ ids _ |- _ => apply Hn; solve_in_ids
  end.

Section Linking.

Variable G : Generators.
Implicit Types p : Process G.

Lemma registration_links t : handler_links G (fun ctx => _emit_event_registration G ctx t).
Proof.
  intros p b n k ctx Hb L Hc. link_open Hc. unfold _emit_event_registration.
  run_all idtac. solve_linked L.
Qed.

Ltac links_proof :=
  let L := fresh "L" in let Hc := fresh "Hc" in
  intros p b n k ctx Hb L Hc; link_open Hc;
  run_all never_missing; solve_linked L.

Lemma initial_consult_links t :
  handler_links G (fun ctx => _emit_event_initial_consult G ctx t).
Proof. unfold _emit_event_initial_consult. links_proof. Qed.

Lemma imaging_links t : handler_links G (fun ctx => _emit_event_imaging G ctx t).
Proof. unfold _emit_event_imaging. links_proof. Qed.

Lemma lab_links t : handler_links G (fun ctx => _emit_event_lab G ctx t).
Proof. unfold _emit_event_lab. links_proof. Qed.

Lemma followup_links t : handler_links G (fun ctx => _emit_event_followup G ctx t).
Proof. unfold _emit_event_followup. links_proof. Qed.

Lemma mdt_links t : handler_links G (fun ctx => _emit_event_mdt G ctx t).
Proof. unfold _emit_event_mdt. links_proof. Qed.

Lemma medication_links t : handler_links G (fun ctx => _emit_event_medication G ctx t).
Proof. unfold _emit_event_medication. links_proof. Qed.

Lemma payment_links t : handler_links G (fun ctx => _emit_event_payment G ctx t).
Proof. unfold _emit_event_payment. links_proof. Qed.

Lemma discharge_links t : handler_links G (fun ctx => _emit_event_discharge G ctx t).
Proof. unfold _emit_event_discharge. links_proof. Qed.

Lemma handlers_link a t : handler_links G (fun ctx => handler G a ctx t).
Proof.
  destruct a; simpl;
    [ apply registration_links | apply initial_consult_links | apply imaging_links
    | apply lab_links | apply followup_links | apply mdt_links | apply medication_links
    | apply payment_links | apply discharge_links ].
Qed.

Lemma linked_refl_self p : linked (length (events (self G p)))
                                  (length (object_relationships (self G p))) (self G p).
Proof. split; [done|done| |]; rewrite drop_all; constructor. Qed.

Lemma linked_objects n k b b' :
  linked n k b -> obj_cont (objects b) (objects b') ->
  events b' = events b -> object_relationships b' = object_relationships b ->
  linked n k b'.
Proof.
  intros [Ln Lk Le Lr] Hc He Hr. split.
  - by rewrite He.
  - by rewrite Hr.
  - rewrite He. eapply Forall_impl; [exact Le|]. intros e0. by apply resolved_mono.
  - rewrite Hr. eapply Forall_impl; [exact Lr|]. intros r0. by apply resolved_mono.
Qed.

Lemma linked_rel n k b b' r :
  linked n k b -> objects b' = objects b -> events b' = events b ->
  object_relationships b' = object_relationships b ++ [r] ->
  resolved (objects b) (o2o_refs r) ->
  linked n k b'.
Proof.
  intros [Ln Lk Le Lr] Ho He Hr Hres. split.
  - by rewrite He.
  - rewrite Hr, length_app. lia.
  - by rewrite He, Ho.
  - rewrite Hr, Ho, drop_app_le by done. apply Forall_app. split; [done|].
    by constructor.
Qed.

Lemma dispatch_links ctx t act p b n k :
  self G p = b -> linked n k b -> resolved (objects b) (ctx_ids ctx) ->
  run (dispatch G ctx t act)
      (fun ctx' p' => linked n k (self G p') /\ resolved (objects (self G p')) (ctx_ids ctx'))
      (fun e p' => linked n k (self G p') /\ unknown_among [act] e) p.
Proof.
  intros Hb L Hc. destruct (known act) eqn:Hk.
  - apply known_label in Hk as [a ->]. rewrite dispatch_label.
    eapply run_mono; [by apply (handlers_link a t p b n k ctx)|done|done].
  - unfold run. rewrite (dispatch_unknown G _ _ _ _ Hk). rewrite Hb.
    split; [done|]. exists act. split; [left|done].
Qed.

Lemma replay_links step acts : forall ctx t p b n k,
  self G p = b -> linked n k b -> resolved (objects b) (ctx_ids ctx) ->
  run (replay G ctx t step acts)
      (fun ctx' p' => linked n k (self G p') /\ resolved (objects (self G p')) (ctx_ids ctx'))
      (fun e p' => linked n k (self G p') /\ unknown_among acts e) p.
Proof.
  induction acts as [|act acts IH]; intros ctx t p b n k Hb L Hc; simpl.
  - apply run_ret. by rewrite Hb.
  - apply run_bind. eapply run_mono; [by apply (dispatch_links _ _ _ p b n k)| |].
    + intros ctx' p' [L' Hc']. eapply run_mono; [by apply (IH ctx' _ p' (self G p') n k)|done|].
      intros e p2 [L2 (a & Ha & Hk & ->)]. split; [done|]. exists a. split; [by right|done].
    + intros e p2 [L2 (a & Ha & Hk & ->)]. split; [done|]. exists a.
      apply list_elem_of_singleton in Ha as ->. split; [left|done].
Qed.

Lemma init_links i t p b n k :
  self G p = b -> linked n k b ->
  run (_init_trace_objects G i t)
      (fun ctx p' => linked n k (self G p') /\ resolved (objects (self G p')) (ctx_ids ctx))
      (fun _ _ => False) p.
Proof.
  intros Hb L. unfold _init_trace_objects. run_all idtac. rewrite Hb. split.
  - eapply linked_objects; [exact L|simpl; solve_obj_cont|done|done].
  - apply resolved_ctx. simpl. repeat split; try constructor; solve_in_ids.
Qed.

Lemma new_rel_links rtype time src tgt p b n k :
  self G p = b -> linked n k b -> src ∈ ids (objects b) -> tgt ∈ ids (objects b) ->
  run (new_rel G rtype time src tgt)
      (fun _ p' => linked n k (self G p') /\ objects (self G p') = objects b)
      (fun _ _ => False) p.
Proof.
  intros Hb L Hs Ht. run_step. rewrite Hb. split; [|done].
  eapply linked_rel; [exact L|done|done|done|]. by repeat constructor.
Qed.

Lemma emit_o2o_links ctx p b n k :
  self G p = b -> linked n k b -> resolved (objects b) (ctx_ids ctx) ->
  run (_emit_o2o G ctx) (fun _ p' => linked n k (self G p')) (fun _ _ => False) p.
Proof.
  intros Hb L Hc. link_open Hc. unfold _emit_o2o. apply run_bind.
  eapply run_mono; [by apply (new_rel_links _ _ _ _ p b n k)| |done].
  intros u p1 [L1 Ho1]. cbv beta.
  destruct (plan_id ctx) as [plan|] eqn:Hp; [|by apply run_ret].
  destruct (truthy plan && nonempty (medication_ids ctx)); [|by apply run_ret].
  apply (run_for_each G _ _
           (fun p' => linked n k (self G p') /\ objects (self G p') = objects b));
    [done| |by intros p' [? ?]].
  intros med p0 Hmed [L0 Ho0].
  eapply run_mono; [apply (new_rel_links _ _ _ _ p0 (self G p0) n k); [done|done| |]| |done].
  - rewrite Ho0. simpl in Hplan. exact (Forall_inv Hplan).
  - rewrite Ho0. unfold resolved in Hmeds. rewrite Forall_forall in Hmeds. by apply Hmeds.
  - intros u2 p2 [L2 Ho2]. split; [done|]. cbv beta in Ho2. by rewrite Ho2.
Qed.

Lemma add_single_trace_links i acts p b n k :
  self G p = b -> linked n k b ->
  run (_add_single_trace G i acts) (fun _ p' => linked n k (self G p'))
      (fun e p' => linked n k (self G p') /\ unknown_among acts e) p.
Proof.
  intros Hb L. unfold _add_single_trace. run_step. run_step. run_step. run_step.
  apply run_bind. eapply run_mono; [by apply (init_links _ _ _ b n k)| |done].
  intros ctx p1 [L1 Hc1]. cbv beta. apply run_bind.
  eapply run_mono; [by apply (replay_links _ _ _ _ p1 (self G p1) n k)| |done].
  intros ctx' p2 [L2 Hc2].
  eapply run_mono; [by apply (emit_o2o_links _ p2 (self G p2) n k)|done|done].
Qed.

Lemma add_traces_from_links traces : forall idx p b n k,
  self G p = b -> linked n k b ->
  run (add_traces_from G idx traces) (fun _ p' => linked n k (self G p'))
      (fun e p' => linked n k (self G p') /\ unknown_among (concat traces) e) p.
Proof.
  induction traces as [|tr traces IH]; intros idx p b n k Hb L; simpl.
  - apply run_ret. by rewrite Hb.
  - apply run_bind. eapply run_mono; [by apply (add_single_trace_links _ _ p b n k)| |].
    + intros u p1 L1. eapply run_mono; [by apply (IH _ p1 (self G p1) n k)|done|].
      intros e p2 [L2 (a & Ha & Hk & ->)]. split; [done|]. exists a.
      split; [|done]. apply elem_of_app. by right.
    + intros e p2 [L2 (a & Ha & Hk & ->)]. split; [done|]. exists a.
      split; [|done]. apply elem_of_app. by left.
Qed.

End Linking.

Section LinkTheorems.

Variable G : Generators.
Implicit Types p : Process G.


(** X12.  No dangling reference.  After [add_traces], from any builder and
    however the call ends, every relationship of every event the call
    appended names an object of the collection, and so do the source and the
    target of every object-to-object relationship it appended. *)
Theorem references_resolve traces p :
  let b := self G p in
  let b' := self G (add_traces G traces p).2 in
  Forall (fun e => Forall (fun r => objectId r ∈ ids (objects b')) (ev_relationships e))
         (drop (length (events b)) (events b')) /\
  Forall (fun r => sourceObject r ∈ ids (objects b') /\ targetObject r ∈ ids (objects b'))
         (drop (length (object_relationships b)) (object_relationships b')).
Proof.
  pose proof (add_traces_from_links G traces 1 p (self G p) _ _ eq_refl
                (linked_refl_self G p)) as H.
  unfold run in H. unfold add_traces. cbv zeta.
  assert (linked (length (events (self G p))) (length (object_relationships (self G p)))
                 (self G (add_traces_from G 1 traces p).2)) as [_ _ Le Lr].
  { destruct (add_traces_from G 1 traces p) as [[[]|e] p']; simpl; [done|by destruct H]. }
  split.
  - eapply Forall_impl; [exact Le|]. intros e He. unfold resolved, event_refs in He.
    by rewrite Forall_fmap in He.
  - eapply Forall_impl; [exact Lr|]. intros r Hr. unfold resolved, o2o_refs in Hr.
    inversion Hr as [|? ? Hs Hr']; subst. inversion Hr' as [|? ? Ht _]; subst. done.
Qed.

End LinkTheorems.

(** * What single handlers do to the encounter and the plan *)

Lemma run_elim {G A} (m : M G A) (Q : A -> Process G -> Prop) p :
  run m Q (fun _ _ => False) p -> exists a p', m p = (Ok a, p') /\ Q a p'.
Proof. unfold run. destruct (m p) as [[a|e] p']; [|done]. intros H. by exists a, p'. Qed.

Lemma find_obj_touched oid a l l' :
  upd_obj oid (add_attribute a) l = Some l' ->
  find_obj oid l' = add_attribute a <$> find_obj oid l.
Proof.
  intros Hu. pose proof Hu as Hs.
  apply upd_obj_shape in Hs as (l1 & o & l2 & -> & _ & Hid & Hn).
  rewrite (find_obj_last _ l1 _ _ Hid Hn). simpl.
  eapply (find_obj_upd oid (add_attribute a)); [done|exact Hu|by apply find_obj_last].
Qed.

Lemma current_value_step name name' t v o :
  current_value (add_attribute (attr name t v) o) name'
  = if String.eqb name name' then v else current_value o name'.
Proof.
  destruct (String.eqb_spec name name') as [->|Hne].
  - apply current_value_add.
  - apply current_value_other. congruence.
Qed.

(** Reading an attribute of the object found under [oid]. *)
Lemma read_eq {G} oid name (p : Process G) :
  (_get_obj_attr G oid name p).1
  = Ok (match find_obj oid (objects (self G p)) with
        | Some o => current_value o name
        | None => VNone
        end).
Proof. by rewrite get_obj_attr_eq. Qed.

Ltac read_back :=
  rewrite !read_eq;
  match goal with
  | H : self _ ?p = _ |- context [self _ ?p] => rewrite H
  end;
  simpl;
  repeat match goal with
  | Hu : upd_obj ?oid _ ?l = Some ?l' |- context [find_obj ?oid ?l'] =>
      rewrite (find_obj_touched _ _ _ _ Hu)
  end.

Section HandlerTheorems.

Variable G : Generators.
Implicit Types p : Process G.

(** X13.  A Payment settles the encounter.  When the context's encounter is
    in the collection, the handler returns the context unchanged and appends
    one Payment event stamped with the cursor; the amount is between 100 000
    and 1 000 000 and the method one of card, cash, transfer.  Read back
    afterwards, the encounter's [billing_amount] and [payment_method] are the
    amount and the method of the event, its [billing_status] is "paid" and
    its [billing_time] the time of the event. *)
Theorem payment_settles_encounter ctx t p :
  visit_id ctx ∈ ids (objects (self G p)) ->
  exists p' e amount method,
    _emit_event_payment G ctx t p = (Ok ctx, p') /\
    events (self G p') = events (self G p) ++ [e] /\
    ev_type e = "Payment" /\ ev_time e = iso t /\
    ev_attributes e = [ {| ea_name := "PaymentMethod"; ea_value := VStr method |};
                        {| ea_name := "PaymentAmount"; ea_value := VInt amount |} ] /\
    100000 <= amount <= 1000000 /\ method ∈ ["card"; "cash"; "transfer"] /\
    (_get_obj_attr G (visit_id ctx) "billing_amount" p').1 = Ok (VInt amount) /\
    (_get_obj_attr G (visit_id ctx) "payment_method" p').1 = Ok (VStr method) /\
    (_get_obj_attr G (visit_id ctx) "billing_status" p').1 = Ok (VStr "paid") /\
    (_get_obj_attr G (visit_id ctx) "billing_time" p').1 = Ok (VTime (ev_time e)).
Proof.
  intros Hin. pose proof (eq_refl (self G p)) as Hb.
  destruct (find_obj_is_Some _ _ Hin) as [o Ho].
  cut (run (_emit_event_payment G ctx t)
         (fun ctx' p' => ctx' = ctx /\ exists e amount method,
            events (self G p') = events (self G p) ++ [e] /\
            ev_type e = "Payment" /\ ev_time e = iso t /\
            ev_attributes e = [ {| ea_name := "PaymentMethod"; ea_value := VStr method |};
                                {| ea_name := "PaymentAmount"; ea_value := VInt amount |} ] /\
            100000 <= amount <= 1000000 /\ method ∈ ["card"; "cash"; "transfer"] /\
            (_get_obj_attr G (visit_id ctx) "billing_amount" p').1 = Ok (VInt amount) /\
            (_get_obj_attr G (visit_id ctx) "payment_method" p').1 = Ok (VStr method) /\
            (_get_obj_attr G (visit_id ctx) "billing_status" p').1 = Ok (VStr "paid") /\
            (_get_obj_attr G (visit_id ctx) "billing_time" p').1 = Ok (VTime (ev_time e)))
         (fun _ _ => False) p).
  { intros H. apply run_elim in H as (ctx' & p' & Hrun & -> & e & amount & method & H).
    by exists p', e, amount, method. }
  unfold _emit_event_payment. run_all never_missing.
  split; [done|]. eexists _, v, v0.
  split; [rewrite Hb; reflexivity|]. do 5 (split; [done|]).
  read_back. rewrite Ho. simpl. by rewrite !current_value_step.
Qed.

(** X14.  A Discharge closes the encounter.  When the context's encounter is
    in the collection, the handler returns the context unchanged and appends
    one Discharge event without attributes, stamped with the cursor.  Read
    back afterwards, the encounter's [status] is "closed" and its [end_time]
    the time of the event; every other attribute of the encounter reads as
    before. *)
Theorem discharge_closes_encounter ctx t p :
  visit_id ctx ∈ ids (objects (self G p)) ->
  exists p' e,
    _emit_event_discharge G ctx t p = (Ok ctx, p') /\
    events (self G p') = events (self G p) ++ [e] /\
    ev_type e = "Discharge" /\ ev_time e = iso t /\ ev_attributes e = [] /\
    (_get_obj_attr G (visit_id ctx) "status" p').1 = Ok (VStr "closed") /\
    (_get_obj_attr G (visit_id ctx) "end_time" p').1 = Ok (VTime (ev_time e)) /\
    (forall name, name <> "status" -> name <> "end_time" ->
       (_get_obj_attr G (visit_id ctx) name p').1
       = (_get_obj_attr G (visit_id ctx) name p).1).
Proof.
  intros Hin. pose proof (eq_refl (self G p)) as Hb.
  destruct (find_obj_is_Some _ _ Hin) as [o Ho].
  cut (run (_emit_event_discharge G ctx t)
         (fun ctx' p' => ctx' = ctx /\ exists e,
            events (self G p') = events (self G p) ++ [e] /\
            ev_type e = "Discharge" /\ ev_time e = iso t /\ ev_attributes e = [] /\
            (_get_obj_attr G (visit_id ctx) "status" p').1 = Ok (VStr "closed") /\
            (_get_obj_attr G (visit_id ctx) "end_time" p').1 = Ok (VTime (ev_time e)) /\
            (forall name, name <> "status" -> name <> "end_time" ->
               (_get_obj_attr G (visit_id ctx) name p').1
               = (_get_obj_attr G (visit_id ctx) name p).1))
         (fun _ _ => False) p).
  { intros H. apply run_elim in H as (ctx' & p' & Hrun & -> & e & H). by exists p', e. }
  unfold _emit_event_discharge. run_all never_missing.
  split; [done|]. eexists.
  split; [rewrite Hb; reflexivity|]. do 3 (split; [done|]).
  split; [|split].
  - read_back. rewrite Ho. simpl. by rewrite !current_value_step.
  - read_back. rewrite Ho. simpl. by rewrite !current_value_step.
  - intros name N1 N2. read_back. rewrite Ho. simpl. rewrite !current_value_step.
    apply not_eq_sym, String.eqb_neq in N1, N2. by rewrite N1, N2.
Qed.

(** X15.  An InitialVisit names the attending physician.  When the context's
    encounter is in the collection, the handler returns the context unchanged
    and appends one InitialVisit event whose [AttendingPhysician] is one of
    the three doctors and whose [Department] is Oncology or Surgery.  Read
    back afterwards, the encounter's [attending] is the physician of the
    event. *)
Theorem initial_visit_names_physician ctx t p :
  visit_id ctx ∈ ids (objects (self G p)) ->
  exists p' e department doctor,
    _emit_event_initial_consult G ctx t p = (Ok ctx, p') /\
    events (self G p') = events (self G p) ++ [e] /\
    ev_type e = "InitialVisit" /\ ev_time e = iso t /\
    ev_attributes e = [ {| ea_name := "Department"; ea_value := VStr department |};
                        {| ea_name := "AttendingPhysician"; ea_value := VStr doctor |} ] /\
    department ∈ ["Oncology"; "Surgery"] /\
    doctor ∈ ["Dr. Kim"; "Dr. Cha"; "Dr.Jung"] /\
    (_get_obj_attr G (visit_id ctx) "attending" p').1 = Ok (VStr doctor).
Proof.
  intros Hin. pose proof (eq_refl (self G p)) as Hb.
  destruct (find_obj_is_Some _ _ Hin) as [o Ho].
  cut (run (_emit_event_initial_consult G ctx t)
         (fun ctx' p' => ctx' = ctx /\ exists e department doctor,
            events (self G p') = events (self G p) ++ [e] /\
            ev_type e = "InitialVisit" /\ ev_time e = iso t /\
            ev_attributes e = [ {| ea_name := "Department"; ea_value := VStr department |};
                                {| ea_name := "AttendingPhysician";
                                   ea_value := VStr doctor |} ] /\
            department ∈ ["Oncology"; "Surgery"] /\
            doctor ∈ ["Dr. Kim"; "Dr. Cha"; "Dr.Jung"] /\
            (_get_obj_attr G (visit_id ctx) "attending" p').1 = Ok (VStr doctor))
         (fun _ _ => False) p).
  { intros H. apply run_elim in H as (ctx' & p' & Hrun & -> & e & d & doc & H).
    by exists p', e, d, doc. }
  unfold _emit_event_initial_consult. run_all never_missing.
  split; [done|]. eexists _, v0, v.
  split; [rewrite Hb; reflexivity|]. do 5 (split; [done|]).
  read_back. rewrite Ho. simpl. by rewrite !current_value_step.
Qed.

(** X16.  A MedicationTreatment opens the next cycle.  When the plan the
    context names, if it names one, is in the collection, the handler returns
    a context that names a diagnosis and a plan (those of the old context
    where it named them), has one more dose and one more cycle; it appends
    one MedicationTreatment event whose [CycleNumber] is the new cycle count
    and whose relationships end in the plan and the new dose.  Read back
    afterwards, the plan's [status] is "Proceed". *)
Theorem medication_opens_cycle ctx t p :
  (forall pl, plan_id ctx = Some pl -> pl ∈ ids (objects (self G p))) ->
  exists p' ctx' e dx pl dose,
    _emit_event_medication G ctx t p = (Ok ctx', p') /\
    diagnosis_id ctx' = Some dx /\ plan_id ctx' = Some pl /\
    (forall d, diagnosis_id ctx = Some d -> dx = d) /\
    (forall q, plan_id ctx = Some q -> pl = q) /\
    medication_ids ctx' = medication_ids ctx ++ [dose] /\
    med_cycles ctx' = S (med_cycles ctx) /\
    events (self G p') = events (self G p) ++ [e] /\
    ev_type e = "MedicationTreatment" /\ ev_time e = iso t /\
    ev_attributes e
      = [ {| ea_name := "CycleNumber"; ea_value := VInt (Z.of_nat (med_cycles ctx')) |} ] /\
    ev_relationships e
      = [ {| objectId := patient_id ctx; qualifier := "subject" |};
          {| objectId := visit_id ctx; qualifier := "encounter" |};
          {| objectId := pl; qualifier := "plan" |};
          {| objectId := dose; qualifier := "drug_admin" |} ] /\
    (_get_obj_attr G pl "status" p').1 = Ok (VStr "Proceed").
Proof.
  intros Hin. pose proof (eq_refl (self G p)) as Hb.
  assert (resolved (objects (self G p)) (option_list (plan_id ctx))) as Hplan.
  { destruct (plan_id ctx) as [pl|]; constructor; [by apply Hin|constructor]. }
  clear Hin.
  cut (run (_emit_event_medication G ctx t)
         (fun ctx' p' => exists e dx pl dose,
            diagnosis_id ctx' = Some dx /\ plan_id ctx' = Some pl /\
            (forall d, diagnosis_id ctx = Some d -> dx = d) /\
            (forall q, plan_id ctx = Some q -> pl = q) /\
            medication_ids ctx' = medication_ids ctx ++ [dose] /\
            med_cycles ctx' = S (med_cycles ctx) /\
            events (self G p') = events (self G p) ++ [e] /\
            ev_type e = "MedicationTreatment" /\ ev_time e = iso t /\
            ev_attributes e
              = [ {| ea_name := "CycleNumber";
                     ea_value := VInt (Z.of_nat (med_cycles ctx')) |} ] /\
            ev_relationships e
              = [ {| objectId := patient_id ctx; qualifier := "subject" |};
                  {| objectId := visit_id ctx; qualifier := "encounter" |};
                  {| objectId := pl; qualifier := "plan" |};
                  {| objectId := dose; qualifier := "drug_admin" |} ] /\
            (_get_obj_attr G pl "status" p').1 = Ok (VStr "Proceed"))
         (fun _ _ => False) p).
  { intros H. apply run_elim in H as (ctx' & p' & Hrun & e & dx & pl & dose & H).
    by exists p', ctx', e, dx, pl, dose. }
  unfold _emit_event_medication. run_all never_missing.
  all: eexists _, _, _, _; simpl.
  all: split; [first [reflexivity|eassumption]|].
  all: split; [first [reflexivity|eassumption]|].
  all: split; [intros d Hd; congruence|].
  all: split; [intros q Hq; congruence|].
  all: split; [reflexivity|]; split; [reflexivity|].
  all: split; [rewrite Hb; reflexivity|]; do 4 (split; [reflexivity|]).
  all: read_back.
  all: match goal with
       | Hi : ?pl ∈ ids ?l |- context [find_obj ?pl ?l] =>
           destruct (find_obj_is_Some _ _ Hi) as [o Ho]; rewrite Ho
       end.
  all: simpl; by rewrite current_value_add.
Qed.

End HandlerTheorems.

Lemma payment_settles_encounter_witness :
  visit_id consulted_ctx ∈ ids (objects (self toy consulted_builder)) /\
  exists p' e amount method,
    _emit_event_payment toy consulted_ctx default_base_time consulted_builder
      = (Ok consulted_ctx, p') /\
    ev_attributes e = [ {| ea_name := "PaymentMethod"; ea_value := VStr method |};
                        {| ea_name := "PaymentAmount"; ea_value := VInt amount |} ] /\
    (_get_obj_attr toy (visit_id consulted_ctx) "billing_amount" p').1 = Ok (VInt amount) /\
    (_get_obj_attr toy (visit_id consulted_ctx) "billing_status" p').1 = Ok (VStr "paid").
Proof.
  assert (visit_id consulted_ctx ∈ ids (objects (self toy consulted_builder))) as H.
  { apply (bool_decide_unpack _). vm_compute. exact I. }
  split; [exact H|].
  destruct (payment_settles_encounter toy consulted_ctx default_base_time consulted_builder H)
    as (p' & e & amount & method & Hrun & _ & _ & _ & Ha & _ & _ & R1 & _ & R3 & _).
  exists p', e, amount, method.
  split; [exact Hrun|]. split; [exact Ha|]. split; [exact R1|exact R3].
Defined.

Lemma discharge_closes_encounter_witness :
  visit_id consulted_ctx ∈ ids (objects (self toy consulted_builder)) /\
  exists p' e,
    _emit_event_discharge toy consulted_ctx default_base_time consulted_builder
      = (Ok consulted_ctx, p') /\
    events (self toy p') = events (self toy consulted_builder) ++ [e] /\
    (_get_obj_attr toy (visit_id consulted_ctx) "status" p').1 = Ok (VStr "closed").
Proof.
  assert (visit_id consulted_ctx ∈ ids (objects (self toy consulted_builder))) as H.
  { apply (bool_decide_unpack _). vm_compute. exact I. }
  split; [exact H|].
  destruct (discharge_closes_encounter toy consulted_ctx default_base_time consulted_builder H)
    as (p' & e & Hrun & He & _ & _ & _ & R1 & _).
  exists p', e. split; [exact Hrun|]. split; [exact He|exact R1].
Defined.

Lemma initial_visit_names_physician_witness :
  visit_id consulted_ctx ∈ ids (objects (self toy consulted_builder)) /\
  exists p' e doctor,
    _emit_event_initial_consult toy consulted_ctx default_base_time consulted_builder
      = (Ok consulted_ctx, p') /\
    events (self toy p') = events (self toy consulted_builder) ++ [e] /\
    (_get_obj_attr toy (visit_id consulted_ctx) "attending" p').1 = Ok (VStr doctor).
Proof.
  assert (visit_id consulted_ctx ∈ ids (objects (self toy consulted_builder))) as H.
  { apply (bool_decide_unpack _). vm_compute. exact I. }
  split; [exact H|].
  destruct (initial_visit_names_physician toy consulted_ctx default_base_time
              consulted_builder H)
    as (p' & e & dept & doctor & Hrun & He & _ & _ & _ & _ & _ & R).
  exists p', e, doctor. split; [exact Hrun|]. split; [exact He|exact R].
Defined.

Lemma medication_opens_cycle_witness :
  (forall pl, plan_id consulted_ctx = Some pl ->
              pl ∈ ids (objects (self toy consulted_builder))) /\
  exists p' ctx' e pl,
    _emit_event_medication toy consulted_ctx default_base_time consulted_builder
      = (Ok ctx', p') /\
    plan_id ctx' = Some pl /\ pl = "plan-001" /\
    med_cycles ctx' = S (med_cycles consulted_ctx) /\
    ev_attributes e
      = [ {| ea_name := "CycleNumber"; ea_value := VInt (Z.of_nat (med_cycles ctx')) |} ] /\
    (_get_obj_attr toy pl "status" p').1 = Ok (VStr "Proceed").
Proof.
  assert (forall pl, plan_id consulted_ctx = Some pl ->
                     pl ∈ ids (objects (self toy consulted_builder))) as H.
  { intros pl Hpl. injection Hpl as <-. apply (bool_decide_unpack _). vm_compute. exact I. }
  split; [exact H|].
  destruct (medication_opens_cycle toy consulted_ctx default_base_time consulted_builder H)
    as (p' & ctx' & e & dx & pl & dose & Hrun & _ & Hp & _ & Hq & _ & Hc & _ & _ & _ & Ha & _ & R).
  exists p', ctx', e, pl.
  split; [exact Hrun|]. split; [exact Hp|]. split; [exact (Hq "plan-001" eq_refl)|].
  split; [exact Hc|]. split; [exact Ha|exact R].
Defined.
